(** * Proof-of-Action: the Monte Carlo supply simulation

    A shallow embedding of [simulation/monte_carlo.py]: the logistic growth
    model, the seeded single run with its period loop, and the aggregation
    of many runs into per-period statistics.

    Numbers.  The script computes on IEEE doubles; here a float is a real
    number of the Standard Library and its arithmetic is exact.  The
    statements are kept to what rounding leaves alone: signs and order
    (rounding is monotone), the control flow, array shapes, what the
    generator is asked for, and the code's own expressions.  Where the
    order of the float additions decides the result (the means over the
    runs), the computation is also given on binary64 floats, in the module
    [float64].  Integers (array sizes, indices, seeds, run counts) are [Z].
    numpy's allocation limits are not modelled: an array of any
    non-negative size can be made.

    Effects.  The script mutates numpy's process-wide random generator and
    raises Python exceptions.  Both are kept: a computation is a function
    from a [world] to an outcome and a new [world], and an outcome is either
    a value or the class name of the exception raised. *)

From Stdlib Require Import String.
From Stdlib Require Import Reals ZArith List Bool Lia Lra Permutation Sorted.
From Stdlib Require PrimFloat Uint63.
Import ListNotations.

Open Scope Z_scope.
Open Scope R_scope.

(** ** Outcomes *)

Inductive result (A : Type) : Type :=
| Ok (a : A)
| Raise (cls : string).

Arguments Ok {A} a.
Arguments Raise {A} cls.

Definition ValueError : string := "ValueError".
Definition IndexError : string := "IndexError".
Definition UnboundLocalError : string := "UnboundLocalError".

(** ** The random source

    numpy's legacy generator is not part of the repository.  It is taken as
    a parameter: a state, the state installed by [np.random.seed], and the
    routine producing one standard normal variate. *)

Record BitGenerator : Type := {
  rng_state : Type;
  init_by_seed : Z -> rng_state;
  gauss : rng_state -> R * rng_state
}.

(** ** Simulation parameters: the module-level constants of the script *)

Record Params : Type := {
  N_SIMULATIONS : Z;
  T_STEPS : Z;
  K_MAX_USERS : R;
  r_GROWTH_RATE : R;
  t0_INFLECTION : R;
  mu_MINT : R;
  sigma_MINT : R;
  mu_BURN_INITIAL : R;
  sigma_BURN : R;
  S0_INITIAL_SUPPLY : R;
  R0_INITIAL_REWARD : R;
  ALPHA_ADAPTATION : R
}.

Definition T_YEARS : Z := 10.

(** The values written in the script. *)
Definition script_params : Params := {|
  N_SIMULATIONS := 100;
  T_STEPS := T_YEARS * 12;
  K_MAX_USERS := 100000;
  r_GROWTH_RATE := 5 / 100;
  t0_INFLECTION := 36;
  mu_MINT := 10;
  sigma_MINT := 3;
  mu_BURN_INITIAL := 2;
  sigma_BURN := 1;
  S0_INITIAL_SUPPLY := 0;
  R0_INITIAL_REWARD := 1;
  ALPHA_ADAPTATION := 1 / 10
|}.

(** ** Growth model *)

Definition logistic_growth (t K r t0 : R) : R :=
  K / (1 + exp (- r * (t - t0))).

(** ** Python and numpy primitives *)

(** [int(x)] on a float: truncation toward zero. *)
Definition int (x : R) : Z :=
  if Rle_dec 0 x then Int_part x else (- Int_part (- x))%Z.

(** The builtin [range(lo, hi)]. *)
Definition range (lo hi : Z) : list Z :=
  map (fun i => (lo + Z.of_nat i)%Z) (seq 0 (Z.to_nat (hi - lo))).

(** [a[i] = v] without the bounds check (see [setitem]). *)
Fixpoint upd {A : Type} (a : list A) (i : nat) (v : A) : list A :=
  match a, i with
  | [], _ => []
  | _ :: a', O => v :: a'
  | x :: a', S j => x :: upd a' j v
  end.

(** [a[t]] read at an index known to be in range. *)
Definition item (a : list R) (t : Z) : R := nth (Z.to_nat t) a 0.

(** Insertion into an ascending list, and the sort it gives. *)
Fixpoint insert_sorted (x : R) (l : list R) : list R :=
  match l with
  | [] => [x]
  | y :: l' => if Rle_dec x y then x :: l else y :: insert_sorted x l'
  end.

Fixpoint sort (l : list R) : list R :=
  match l with
  | [] => []
  | x :: l' => insert_sorted x (sort l')
  end.

Module np.

(** [np.arange(n)] *)
Definition arange (n : Z) : list Z := range 0 n.

(** [np.maximum(0, a)], elementwise. *)
Definition maximum0 (a : list R) : list R := map (Rmax 0) a.

(** [np.sum(a)] *)
Definition sum (a : list R) : R := fold_right Rplus 0 a.

(** [np.mean(a)] of a one-dimensional array. *)
Definition mean (a : list R) : R := sum a / INR (length a).

(** [np.std(a)], the population standard deviation (ddof = 0). *)
Definition std (a : list R) : R :=
  sqrt (mean (map (fun x => Rsqr (x - mean a)) a)).

(** [np.percentile(a, q)] with numpy's default method, linear
    interpolation between the two order statistics around the virtual
    index (n - 1) * q / 100. *)
Definition percentile (a : list R) (q : R) : R :=
  let s := sort a in
  let n := length a in
  let h := (INR n - 1) * (q / 100) in
  let lo := Z.to_nat (Int_part h) in
  let hi := Nat.min (lo + 1) (n - 1) in
  nth lo s 0 + (nth hi s 0 - nth lo s 0) * (h - INR lo).

(** Column [j] of a two-dimensional array given as its list of rows. *)
Definition column (rows : list (list R)) (j : nat) : list R :=
  map (fun row => nth j row 0) rows.

(** A reduction along axis 0 of an array with [ncols] columns. *)
Definition along_axis0 (f : list R -> R) (ncols : Z) (rows : list (list R))
  : list R :=
  map (fun j => f (column rows j)) (seq 0 (Z.to_nat ncols)).

End np.

(** ** The means and the standard deviation on doubles

    [np.mean(a, axis=0)] on the matrix of rows is an add-reduction along
    the first axis followed by a division by the number of rows: in every
    column the entries are added in row order, starting from the first
    row.  [np.std(a, axis=0)] is the square root of the mean, taken the
    same way, of the squared deviations from that mean.  On binary64
    floats the order of the additions is part of the result. *)

Module float64.
Import PrimFloat.

(** The add-reduction of one column. *)
Definition add_reduce (c : list float) : float :=
  match c with
  | [] => 0%float
  | x :: c' => fold_left add c' x
  end.

Definition mean (c : list float) : float :=
  div (add_reduce c) (of_uint63 (Uint63.of_Z (Z.of_nat (length c)))).

Definition std (c : list float) : float :=
  let m := mean c in
  sqrt (mean (map (fun x => mul (sub x m) (sub x m)) c)).

Definition column (rows : list (list float)) (j : nat) : list float :=
  map (fun row => nth j row 0%float) rows.

Definition along_axis0 (f : list float -> float) (ncols : nat)
    (rows : list (list float)) : list float :=
  map (fun j => f (column rows j)) (seq 0 ncols).

(** The supply series of three two-period runs, with the supplies 0.1,
    0.2 and 2.5 in period 1, and their reward series, with the
    coefficients 0.1, 0.2 and 0.4 in period 1. *)
Definition three_supply_rows : list (list float) :=
  [[0%float; 0x1.999999999999ap-4%float];
   [0%float; 0x1.999999999999ap-3%float];
   [0%float; 0x1.4p+1%float]].

Definition three_reward_rows : list (list float) :=
  [[1%float; 0x1.999999999999ap-4%float];
   [1%float; 0x1.999999999999ap-3%float];
   [1%float; 0x1.999999999999ap-2%float]].

(** The order [T3, T1, T2] of three rows [T1, T2, T3]. *)
Definition reordered (rows : list (list float)) : list (list float) :=
  [nth 2 rows []; nth 0 rows []; nth 1 rows []].

End float64.

(** ** One run's output *)

Record Trajectory : Type := {
  time : list Z;
  supply : list R;
  users : list R;
  mint_total : list R;
  burn_total : list R;
  rewards : list R
}.

(** ** Aggregate statistics over the runs *)

Record Statistics : Type := {
  mean_supply : list R;
  std_supply : list R;
  percentile_5 : list R;
  percentile_95 : list R;
  mean_reward : list R
}.

(** The statistics [run_monte_carlo] computes from the rows it has
    collected (lines 127-132), when there is at least one row. *)
Definition compute_statistics (ncols : Z) (all_supplies all_rewards : list (list R))
  : Statistics := {|
  mean_supply := np.along_axis0 np.mean ncols all_supplies;
  std_supply := np.along_axis0 np.std ncols all_supplies;
  percentile_5 := np.along_axis0 (fun c => np.percentile c 5) ncols all_supplies;
  percentile_95 := np.along_axis0 (fun c => np.percentile c 95) ncols all_supplies;
  mean_reward := np.along_axis0 np.mean ncols all_rewards
|}.

(** ** Effectful part: the world, the monad, and the script's functions *)

Section Simulation.

Variable G : BitGenerator.
Variable P : Params.

(** [rng] is the state of numpy's global generator.  The two other fields
    are observation traces, not program state: the [seed] argument of
    every call of [simulate_single_run], and the divisor of every division
    evaluated by the period loop, most recent first. *)
Record world : Type := {
  rng : rng_state G;
  runs_started : list (option Z);
  divisors : list R
}.

Definition M (A : Type) : Type := world -> result A * world.

Definition ret {A : Type} (a : A) : M A := fun w => (Ok a, w).

Definition raise {A : Type} (cls : string) : M A := fun w => (Raise cls, w).

Definition bind {A B : Type} (c : M A) (k : A -> M B) : M B :=
  fun w =>
    match c w with
    | (Ok a, w') => k a w'
    | (Raise cls, w') => (Raise cls, w')
    end.

Notation "x <- c ;; k" := (bind c (fun x => k))
  (at level 61, c at next level, right associativity).

(** A [for] loop over the items of [l], threading the loop state. *)
Fixpoint for_in {S : Type} (l : list Z) (body : Z -> S -> M S) (s : S) : M S :=
  match l with
  | [] => ret s
  | i :: l' => s' <- body i s ;; for_in l' body s'
  end.

(** [a[i]] for an index [i >= 0]. *)
Definition getitem {A : Type} (a : list A) (i : Z) : M A :=
  match nth_error a (Z.to_nat i) with
  | Some v => ret v
  | None => raise IndexError
  end.

(** [a[i] = v] for an index [i >= 0]. *)
Definition setitem {A : Type} (a : list A) (i : Z) (v : A) : M (list A) :=
  if (Z.to_nat i <? length a)%nat then ret (upd a (Z.to_nat i) v)
  else raise IndexError.

(** The float division [x / y]; the divisor is traced. *)
Definition div (x y : R) : M R :=
  fun w => (Ok (x / y),
            {| rng := rng w; runs_started := runs_started w;
               divisors := y :: divisors w |}).

Definition trace_run (seed : option Z) : M unit :=
  fun w => (Ok tt,
            {| rng := rng w; runs_started := seed :: runs_started w;
               divisors := divisors w |}).

(** [np.zeros(n)] and [np.ones(n)]; a negative size is refused. *)
Definition np_zeros (n : Z) : M (list R) :=
  if (n <? 0)%Z then raise ValueError else ret (repeat 0 (Z.to_nat n)).

Definition np_ones (n : Z) : M (list R) :=
  if (n <? 0)%Z then raise ValueError else ret (repeat 1 (Z.to_nat n)).

(** [np.zeros((n, m))] as a list of [n] rows. *)
Definition np_zeros2 (n m : Z) : M (list (list R)) :=
  if ((n <? 0) || (m <? 0))%Z then raise ValueError
  else ret (repeat (repeat 0 (Z.to_nat m)) (Z.to_nat n)).

(** [np.random.seed(s)]: the seed must fit 32 unsigned bits. *)
Definition np_random_seed (s : Z) : M unit :=
  fun w =>
    if ((0 <=? s) && (s <? 2 ^ 32))%Z
    then (Ok tt, {| rng := init_by_seed G s; runs_started := runs_started w;
                    divisors := divisors w |})
    else (Raise ValueError, w).

(** [n] standard normal variates drawn in sequence. *)
Fixpoint gauss_n (n : nat) (g : rng_state G) : list R * rng_state G :=
  match n with
  | O => ([], g)
  | S k =>
      let (z, g1) := gauss G g in
      let (zs, g2) := gauss_n k g1 in
      (z :: zs, g2)
  end.

(** [np.random.normal(loc, scale, size)]: each sample is
    [loc + scale * z] for a fresh standard normal [z]; a negative [scale]
    is refused first, then a negative [size].  (numpy's upper limits on
    the size of an array, a ValueError or a MemoryError, are not
    modelled.) *)
Definition np_random_normal (loc scale : R) (size : Z) : M (list R) :=
  fun w =>
    if Rlt_dec scale 0 then (Raise ValueError, w)
    else if (size <? 0)%Z then (Raise ValueError, w)
    else
      let (zs, g') := gauss_n (Z.to_nat size) (rng w) in
      (Ok (map (fun z => loc + scale * z) zs),
       {| rng := g'; runs_started := runs_started w; divisors := divisors w |}).

(** *** The body of the period loop *)

(** The locals of one pass through the loop of [simulate_single_run]. *)
Record Period : Type := {
  mint_per_user : list R;
  M_t : R;
  mu_burn_adaptive : R;
  burn_per_user : list R;
  B_t : R;
  S_t : R;
  R_t : R
}.

(** One pass, from the previous supply [S_prev = supply[t-1]] and the user
    count [n_t = users[t]].  [S_t] is the value [supply[t]] holds after its
    two assignments, [R_t] the value assigned to [rewards[t]]. *)
Definition period_step (S_prev n_t : R) : M Period :=
  mint_raw <- np_random_normal (mu_MINT P) (sigma_MINT P) (int n_t) ;;
  let mint := np.maximum0 mint_raw in
  let Mt := np.sum mint in
  q <- div S_prev (n_t + 1) ;;
  let mu_b := mu_BURN_INITIAL P * (1 + ALPHA_ADAPTATION P * q) in
  burn_raw <- np_random_normal mu_b (sigma_BURN P) (int n_t) ;;
  let burn := np.maximum0 burn_raw in
  let Bt := np.sum burn in
  let St := Rmax 0 (S_prev + Mt - Bt) in
  Rt <- (if Rlt_dec 0 Mt
         then ratio <- div Bt Mt ;; ret (R0_INITIAL_REWARD P * ratio)
         else ret (R0_INITIAL_REWARD P)) ;;
  ret {| mint_per_user := mint; M_t := Mt; mu_burn_adaptive := mu_b;
         burn_per_user := burn; B_t := Bt; S_t := St; R_t := Rt |}.

(** The four arrays the loop writes. *)
Record Arrays : Type := {
  a_supply : list R;
  a_mint_total : list R;
  a_burn_total : list R;
  a_rewards : list R
}.

(** The loop body for period [t]: the two reads, the pass, and the writes
    into the four arrays. *)
Definition loop_body (users : list R) (t : Z) (a : Arrays) : M Arrays :=
  n_t <- getitem users t ;;
  S_prev <- getitem (a_supply a) (t - 1) ;;
  p <- period_step S_prev n_t ;;
  supply' <- setitem (a_supply a) t (S_t p) ;;
  mint' <- setitem (a_mint_total a) t (M_t p) ;;
  burn' <- setitem (a_burn_total a) t (B_t p) ;;
  rewards' <- setitem (a_rewards a) t (R_t p) ;;
  ret {| a_supply := supply'; a_mint_total := mint';
         a_burn_total := burn'; a_rewards := rewards' |}.

(** *** [simulate_single_run] *)

(** The [users] array: the growth model at every entry of [time]. *)
Definition users_series : list R :=
  map (fun t => logistic_growth (IZR t) (K_MAX_USERS P) (r_GROWTH_RATE P)
                  (t0_INFLECTION P))
      (np.arange (T_STEPS P)).

Definition simulate_single_run (seed : option Z) : M Trajectory :=
  _ <- trace_run seed ;;
  _ <- match seed with
       | Some s => np_random_seed s
       | None => ret tt
       end ;;
  let time := np.arange (T_STEPS P) in
  let users := users_series in
  supply <- np_zeros (T_STEPS P) ;;
  mint_total <- np_zeros (T_STEPS P) ;;
  burn_total <- np_zeros (T_STEPS P) ;;
  ones <- np_ones (T_STEPS P) ;;
  let rewards := map (fun x => x * R0_INITIAL_REWARD P) ones in
  supply <- setitem supply 0 (S0_INITIAL_SUPPLY P) ;;
  a <- for_in (range 1 (T_STEPS P)) (loop_body users)
         {| a_supply := supply; a_mint_total := mint_total;
            a_burn_total := burn_total; a_rewards := rewards |} ;;
  ret {| time := time; supply := a_supply a; users := users;
         mint_total := a_mint_total a; burn_total := a_burn_total a;
         rewards := a_rewards a |}.

(** *** [run_monte_carlo] *)

Record MonteCarlo : Type := {
  mc_time : list Z;
  mc_all_supplies : list (list R);
  mc_statistics : Statistics;
  mc_users : list R
}.

(** What the loop over the runs carries: the two result matrices and the
    locals [time] and [users], unbound until a first run has returned. *)
Record Collected : Type := {
  all_supplies : list (list R);
  all_rewards : list (list R);
  last_time_users : option (list Z * list R)
}.

(** The body of the loop over the runs: run [i] is seeded with [i] and its
    supply and reward series are stored as row [i]. *)
Definition collect_run (i : Z) (c : Collected) : M Collected :=
  tr <- simulate_single_run (Some i) ;;
  supplies' <- setitem (all_supplies c) i (supply tr) ;;
  rewards' <- setitem (all_rewards c) i (rewards tr) ;;
  ret {| all_supplies := supplies'; all_rewards := rewards';
         last_time_users := Some (time tr, users tr) |}.

(** [np.percentile(a, q, axis=0)] on the matrix of rows: numpy indexes
    the last row of the partitioned array, which an empty first axis does
    not have.  ([np.mean] and [np.std] only warn there.) *)
Definition np_percentile_axis0 (ncols : Z) (rows : list (list R)) (q : R)
  : M (list R) :=
  match rows with
  | [] => raise IndexError
  | _ :: _ => ret (np.along_axis0 (fun c => np.percentile c q) ncols rows)
  end.

(** The statistics phase of [run_monte_carlo]. *)
Definition statistics_phase (ncols : Z) (supplies rewards : list (list R))
  : M Statistics :=
  let mean_s := np.along_axis0 np.mean ncols supplies in
  let std_s := np.along_axis0 np.std ncols supplies in
  p5 <- np_percentile_axis0 ncols supplies 5 ;;
  p95 <- np_percentile_axis0 ncols supplies 95 ;;
  let mean_r := np.along_axis0 np.mean ncols rewards in
  ret {| mean_supply := mean_s; std_supply := std_s; percentile_5 := p5;
         percentile_95 := p95; mean_reward := mean_r |}.

(** The reporting lines read the last entry of each statistic; the return
    statement reads [time] and [users]. *)
Definition run_monte_carlo : M MonteCarlo :=
  supplies0 <- np_zeros2 (N_SIMULATIONS P) (T_STEPS P) ;;
  rewards0 <- np_zeros2 (N_SIMULATIONS P) (T_STEPS P) ;;
  c <- for_in (range 0 (N_SIMULATIONS P)) collect_run
         {| all_supplies := supplies0; all_rewards := rewards0;
            last_time_users := None |} ;;
  stats <- statistics_phase (T_STEPS P) (all_supplies c) (all_rewards c) ;;
  _ <- (if (T_STEPS P =? 0)%Z then raise IndexError else ret tt) ;;
  match last_time_users c with
  | None => raise UnboundLocalError
  | Some (time, users) =>
      ret {| mc_time := time; mc_all_supplies := all_supplies c;
             mc_statistics := stats; mc_users := users |}
  end.

End Simulation.

Arguments ret {G A} a _.
Arguments raise {G A} cls _.
Arguments bind {G A B} c k _.
Arguments for_in {G S} l body s _.
Arguments getitem {G A} a i _.
Arguments setitem {G A} a i v _.
Arguments div {G} x y _.
Arguments rng {G} w.
Arguments runs_started {G} w.
Arguments divisors {G} w.

(** ** Predicates used in the statements *)

(** The validity conditions of a configuration, as the script needs them:
    at least one period, non-negative standard deviations and capacity. *)
Definition valid_params (P : Params) : Prop :=
  (1 <= T_STEPS P)%Z /\ 0 <= sigma_MINT P /\ 0 <= sigma_BURN P /\
  0 <= K_MAX_USERS P.

(** A seed [np.random.seed] accepts; [None] leaves the generator alone. *)
Definition seed_ok (seed : option Z) : Prop :=
  match seed with
  | Some s => (0 <= s < 2 ^ 32)%Z
  | None => True
  end.

(** The error class the specification names for an invalid configuration.
    The script neither defines nor raises it. *)
Definition ConfigurationError : string := "ConfigurationError".

(** Entry [t] of the four arrays is what one pass of the loop computes from
    the previous supply entry and the user count of that period. *)
Definition period_at (G : BitGenerator) (P : Params) (users : list R)
    (a : Arrays) (t : Z) (p : Period) : Prop :=
  (exists w1 w2 : world G,
     period_step G P (item (a_supply a) (t - 1)) (item users t) w1 = (Ok p, w2)) /\
  item (a_supply a) t = S_t p /\
  item (a_mint_total a) t = M_t p /\
  item (a_burn_total a) t = B_t p /\
  item (a_rewards a) t = R_t p.

(** The four written arrays of a trajectory. *)
Definition arrays_of (tr : Trajectory) : Arrays := {|
  a_supply := supply tr;
  a_mint_total := mint_total tr;
  a_burn_total := burn_total tr;
  a_rewards := rewards tr
|}.

(** Loop invariants: the arrays keep their lengths, and the entries below
    an index are left as they were. *)
Definition same_lengths (a a' : Arrays) : Prop :=
  length (a_supply a') = length (a_supply a) /\
  length (a_mint_total a') = length (a_mint_total a) /\
  length (a_burn_total a') = length (a_burn_total a) /\
  length (a_rewards a') = length (a_rewards a).

Definition same_below (n : nat) (a a' : Arrays) : Prop :=
  forall i, (i < n)%nat ->
    nth i (a_supply a') 0 = nth i (a_supply a) 0 /\
    nth i (a_mint_total a') 0 = nth i (a_mint_total a) 0 /\
    nth i (a_burn_total a') 0 = nth i (a_burn_total a) 0 /\
    nth i (a_rewards a') 0 = nth i (a_rewards a) 0.

(** A computation whose outcome and final generator state depend on the
    world through the generator state only (not through the traces). *)
Definition rng_only {G : BitGenerator} {A : Type} (c : M G A) : Prop :=
  forall w1 w2 : world G,
    rng w1 = rng w2 ->
    fst (c w1) = fst (c w2) /\ rng (snd (c w1)) = rng (snd (c w2)).

(** A computation that can only add calls to the trace of started runs,
    and one that leaves that trace alone. *)
Definition extends_runs {G : BitGenerator} {A : Type} (c : M G A) : Prop :=
  forall w : world G,
    exists l, runs_started (snd (c w)) = l ++ runs_started w.

Definition keeps_runs {G : BitGenerator} {A : Type} (c : M G A) : Prop :=
  forall w : world G, runs_started (snd (c w)) = runs_started w.

(** What a pass yields for (M_t, B_t, S_t, R_t) when both standard
    deviations are 0: every sample is its mean. *)
Definition zero_variance_period (P : Params) (S_prev n_t : R) : R * R * R * R :=
  let n := INR (Z.to_nat (int n_t)) in
  let Mt := n * Rmax 0 (mu_MINT P) in
  let Bt := n * Rmax 0 (mu_BURN_INITIAL P *
                        (1 + ALPHA_ADAPTATION P * (S_prev / (n_t + 1)))) in
  (Mt, Bt, Rmax 0 (S_prev + Mt - Bt),
   if Rlt_dec 0 Mt then R0_INITIAL_REWARD P * (Bt / Mt) else R0_INITIAL_REWARD P).

(** ** Concrete configurations and inputs *)

(** The zero-variance scenario of the specification. *)
Definition scenario_A : Params := {|
  N_SIMULATIONS := 100;
  T_STEPS := 12;
  K_MAX_USERS := 1000;
  r_GROWTH_RATE := 1 / 10;
  t0_INFLECTION := 6;
  mu_MINT := 10;
  sigma_MINT := 0;
  mu_BURN_INITIAL := 2;
  sigma_BURN := 0;
  S0_INITIAL_SUPPLY := 0;
  R0_INITIAL_REWARD := 1;
  ALPHA_ADAPTATION := 0
|}.

(** The script's parameters with another run count. *)
Definition with_run_count (n : Z) : Params := {|
  N_SIMULATIONS := n;
  T_STEPS := T_STEPS script_params;
  K_MAX_USERS := K_MAX_USERS script_params;
  r_GROWTH_RATE := r_GROWTH_RATE script_params;
  t0_INFLECTION := t0_INFLECTION script_params;
  mu_MINT := mu_MINT script_params;
  sigma_MINT := sigma_MINT script_params;
  mu_BURN_INITIAL := mu_BURN_INITIAL script_params;
  sigma_BURN := sigma_BURN script_params;
  S0_INITIAL_SUPPLY := S0_INITIAL_SUPPLY script_params;
  R0_INITIAL_REWARD := R0_INITIAL_REWARD script_params;
  ALPHA_ADAPTATION := ALPHA_ADAPTATION script_params
|}.

(** The run counts 0 and -1. *)
Definition scenario_B : Params := with_run_count 0.

Definition scenario_B_negative : Params := with_run_count (-1).

(** A tiny population: the script's parameters with a capacity of one
    half, so that the logistic count stays below 1 in every period. *)
Definition scenario_C : Params := {|
  N_SIMULATIONS := N_SIMULATIONS script_params;
  T_STEPS := T_STEPS script_params;
  K_MAX_USERS := 1 / 2;
  r_GROWTH_RATE := r_GROWTH_RATE script_params;
  t0_INFLECTION := t0_INFLECTION script_params;
  mu_MINT := mu_MINT script_params;
  sigma_MINT := sigma_MINT script_params;
  mu_BURN_INITIAL := mu_BURN_INITIAL script_params;
  sigma_BURN := sigma_BURN script_params;
  S0_INITIAL_SUPPLY := S0_INITIAL_SUPPLY script_params;
  R0_INITIAL_REWARD := R0_INITIAL_REWARD script_params;
  ALPHA_ADAPTATION := ALPHA_ADAPTATION script_params
|}.

(** A toy generator: the state is a counter and the n-th variate is n. *)
Definition counter_generator : BitGenerator := {|
  rng_state := Z;
  init_by_seed := fun s => s;
  gauss := fun g => (IZR g, (g + 1)%Z)
|}.

Definition world0 : world counter_generator :=
  Build_world counter_generator 0%Z [] [].

(** Three two-period trajectories and a reordering of them. *)
Definition sample_trajectory (s r : R) : Trajectory := {|
  time := [0%Z; 1%Z];
  supply := [0; s];
  users := [1; 2];
  mint_total := [0; s];
  burn_total := [0; 0];
  rewards := [1; r]
|}.

Definition three_runs : list Trajectory :=
  [sample_trajectory 1 1; sample_trajectory 2 (1 / 2); sample_trajectory 4 (1 / 4)].

Definition three_runs_reordered : list Trajectory :=
  [sample_trajectory 4 (1 / 4); sample_trajectory 1 1; sample_trajectory 2 (1 / 2)].

(** A computation whose outcome does not depend on the world at all, and
    one that moreover leaves the same generator state behind whenever it
    returns. *)
Definition outcome_free {G : BitGenerator} {A : Type} (c : M G A) : Prop :=
  forall w1 w2 : world G, fst (c w1) = fst (c w2).

Definition reseeding {G : BitGenerator} {A : Type} (c : M G A) : Prop :=
  forall w1 w2 : world G,
    fst (c w1) = fst (c w2) /\
    (forall a, fst (c w1) = Ok a -> rng (snd (c w1)) = rng (snd (c w2))).

(** ** The sample paths drawn by [plot_results] *)

(** The builtin [range(start, stop, step)] for a positive [step]. *)
Definition range3 (start stop step : Z) : list Z :=
  map (fun i => (start + step * Z.of_nat i)%Z)
      (seq 0 (Z.to_nat ((stop - start + step - 1) / step))).

(** The row indices of [all_supplies] plotted as sample trajectories, for
    a matrix of [n] rows (line 159). *)
Definition plotted_trajectories (n : Z) : list Z := range3 0 (Z.min 50 n) 5.

(** * The stability analysis ([simulation/stability_analysis.py]) *)

Definition ZeroDivisionError : string := "ZeroDivisionError".

(** The module-level constants of the script. *)
Record StabilityParams : Type := {
  COST_COMPUTE : R;
  COST_VERIFICATION : R;
  COST_NETWORK : R;
  R_BASE : R;
  R_MIN : R;
  R_MAX : R;
  PRICE_MIN : R;
  PRICE_MAX : R;
  PRICE_STEPS : Z
}.

Definition script_stability_params : StabilityParams := {|
  COST_COMPUTE := 10 / 100;
  COST_VERIFICATION := 2 / 100;
  COST_NETWORK := 1 / 100;
  R_BASE := 10;
  R_MIN := 1;
  R_MAX := 20;
  PRICE_MIN := 1 / 1000;
  PRICE_MAX := 100 / 1000;
  PRICE_STEPS := 100
|}.

Definition C_ACTION (Q : StabilityParams) : R :=
  COST_COMPUTE Q + COST_VERIFICATION Q + COST_NETWORK Q.

(** Returns [(profit, revenue)]. *)
Definition compute_profitability (token_price reward cost : R) : R * R :=
  let revenue := reward * token_price in
  let profit := revenue - cost in
  (profit, revenue).

(** [cost / reward] on Python floats: a zero divisor raises. *)
Definition sybil_threshold_price (reward cost : R) : result R :=
  if Req_dec_T reward 0 then Raise ZeroDivisionError else Ok (cost / reward).

(** Sequencing of outcomes where no world is involved. *)
Definition and_then {A B : Type} (r : result A) (k : A -> result B) : result B :=
  match r with
  | Ok a => k a
  | Raise cls => Raise cls
  end.

(** A loop whose body only computes (and reports) a value per item. *)
Fixpoint for_each {A B : Type} (l : list A) (body : A -> result B) : result unit :=
  match l with
  | [] => Ok tt
  | x :: l' => and_then (body x) (fun _ => for_each l' body)
  end.

(** [np.linspace(start, stop, num)], end point included; a negative [num]
    is refused and a single sample is [start]. *)
Definition np_linspace (start stop : R) (num : Z) : result (list R) :=
  if (num <? 0)%Z then Raise ValueError
  else if (num =? 1)%Z then Ok [start]
  else Ok (map (fun i => start + IZR i * ((stop - start) / IZR (num - 1)))
               (range 0 num)).

(** A Python dict with float keys, in insertion order. *)
Definition dict (V : Type) : Type := list (R * V).

(** [d[k] = v]: an existing key keeps its place and takes the new value. *)
Fixpoint dict_set {V : Type} (d : dict V) (k : R) (v : V) : dict V :=
  match d with
  | [] => [(k, v)]
  | (k', v') :: d' =>
      if Req_dec_T k k' then (k, v) :: d' else (k', v') :: dict_set d' k v
  end.

(** [d[k]], [None] standing for the KeyError. *)
Fixpoint dict_get {V : Type} (d : dict V) (k : R) : option V :=
  match d with
  | [] => None
  | (k', v') :: d' => if Req_dec_T k k' then Some v' else dict_get d' k
  end.

(** The inner loop of [sensitivity_analysis]: the profit and the revenue at
    every price, appended in price order. *)
Definition price_sweep (prices : list R) (reward cost : R) : list R * list R :=
  fold_left
    (fun acc P =>
       let '(profits, revenues) := acc in
       let '(profit, revenue) := compute_profitability P reward cost in
       (profits ++ [profit], revenues ++ [revenue]))
    prices ([], []).

(** Returns [(prices, results, rewards)]; the reporting loop evaluates the
    threshold of every reward level before the sweep. *)
Definition sensitivity_analysis (Q : StabilityParams)
  : result (list R * dict (list R * list R) * list R) :=
  let rewards := [R_MIN Q; R_BASE Q; R_MAX Q] in
  and_then (for_each rewards (fun Rw => sybil_threshold_price Rw (C_ACTION Q)))
    (fun _ =>
  and_then (np_linspace (PRICE_MIN Q) (PRICE_MAX Q) (PRICE_STEPS Q))
    (fun prices =>
  let results :=
    fold_left (fun d Rw => dict_set d Rw (price_sweep prices Rw (C_ACTION Q)))
              rewards [] in
  Ok (prices, results, rewards))).

(** One pass of the cost-sensitivity loop of [plot_stability_analysis]
    (lines 177-180): the threshold price and the profit curve for the
    cost scaled by [mult], at the fixed reward [R_BASE]. *)
Definition cost_sensitivity_curve (Q : StabilityParams) (prices : list R) (mult : R)
  : result (R * list R) :=
  let R_fixed := R_BASE Q in
  let C_scaled := C_ACTION Q * mult in
  and_then (sybil_threshold_price R_fixed C_scaled)
    (fun P_threshold =>
       Ok (P_threshold, map (fun P => R_fixed * P - C_scaled) prices)).

(** The four arrays as the period loop of a run finds them. *)
Definition initial_arrays (P : Params) : Arrays := {|
  a_supply := upd (repeat 0 (Z.to_nat (T_STEPS P))) 0 (S0_INITIAL_SUPPLY P);
  a_mint_total := repeat 0 (Z.to_nat (T_STEPS P));
  a_burn_total := repeat 0 (Z.to_nat (T_STEPS P));
  a_rewards := map (fun x => x * R0_INITIAL_REWARD P) (repeat 1 (Z.to_nat (T_STEPS P)))
|}.

(** The trajectory a run returns from the arrays its loop leaves. *)
Definition trajectory_of (P : Params) (a : Arrays) : Trajectory := {|
  time := np.arange (T_STEPS P);
  supply := a_supply a;
  users := users_series P;
  mint_total := a_mint_total a;
  burn_total := a_burn_total a;
  rewards := a_rewards a
|}.

(** The world a run is in once it is traced and seeded. *)
Definition seeded_world {G : BitGenerator} (seed : option Z) (w : world G) : world G := {|
  rng := match seed with Some s => init_by_seed G s | None => rng w end;
  runs_started := seed :: runs_started w;
  divisors := divisors w
|}.

(** The script's parameters with a horizon of a single period and a
    negative mint deviation. *)
Definition single_period_params : Params := {|
  N_SIMULATIONS := N_SIMULATIONS script_params;
  T_STEPS := 1;
  K_MAX_USERS := K_MAX_USERS script_params;
  r_GROWTH_RATE := r_GROWTH_RATE script_params;
  t0_INFLECTION := t0_INFLECTION script_params;
  mu_MINT := mu_MINT script_params;
  sigma_MINT := -1;
  mu_BURN_INITIAL := mu_BURN_INITIAL script_params;
  sigma_BURN := sigma_BURN script_params;
  S0_INITIAL_SUPPLY := S0_INITIAL_SUPPLY script_params;
  R0_INITIAL_REWARD := R0_INITIAL_REWARD script_params;
  ALPHA_ADAPTATION := ALPHA_ADAPTATION script_params
|}.

(** The number of samples one period draws, mint and burn together, and the
    number a whole run draws. *)
Definition variates_of_period (P : Params) (t : Z) : nat :=
  2 * Z.to_nat (int (item (users_series P) t)).

Definition variates_of_run (P : Params) : nat :=
  list_sum (map (variates_of_period P) (range 1 (T_STEPS P))).

(** The script's parameters with an empty horizon. *)
Definition empty_horizon_params : Params := {|
  N_SIMULATIONS := N_SIMULATIONS script_params;
  T_STEPS := 0;
  K_MAX_USERS := K_MAX_USERS script_params;
  r_GROWTH_RATE := r_GROWTH_RATE script_params;
  t0_INFLECTION := t0_INFLECTION script_params;
  mu_MINT := mu_MINT script_params;
  sigma_MINT := sigma_MINT script_params;
  mu_BURN_INITIAL := mu_BURN_INITIAL script_params;
  sigma_BURN := sigma_BURN script_params;
  S0_INITIAL_SUPPLY := S0_INITIAL_SUPPLY script_params;
  R0_INITIAL_REWARD := R0_INITIAL_REWARD script_params;
  ALPHA_ADAPTATION := ALPHA_ADAPTATION script_params
|}.

(** * Proofs *)

(** ** The growth model *)

Lemma logistic_denominator_pos (t r t0 : R) : 0 < 1 + exp (- r * (t - t0)).
Proof.
  pose proof (exp_pos (- r * (t - t0))). lra.
Qed.

Lemma logistic_growth_nonneg (t K r t0 : R) :
  0 <= K -> 0 <= logistic_growth t K r t0.
Proof.
  intros HK. unfold logistic_growth.
  apply Rmult_le_pos; [exact HK|].
  left. apply Rinv_0_lt_compat, logistic_denominator_pos.
Qed.

Lemma logistic_growth_pos (t K r t0 : R) :
  0 < K -> 0 < logistic_growth t K r t0.
Proof.
  intros HK. unfold logistic_growth.
  apply Rdiv_lt_0_compat; [exact HK | apply logistic_denominator_pos].
Qed.





(** ** Lists and arrays *)

Lemma length_upd {A : Type} (a : list A) (i : nat) (v : A) :
  length (upd a i v) = length a.
Proof.
  revert i. induction a as [|x a IH]; intros [|i]; simpl; auto.
Qed.

Lemma nth_upd_same {A : Type} (a : list A) (i : nat) (v d : A) :
  (i < length a)%nat -> nth i (upd a i v) d = v.
Proof.
  revert i. induction a as [|x a IH]; intros [|i] H; simpl in *; try lia; auto.
  apply IH. lia.
Qed.

Lemma nth_upd_other {A : Type} (a : list A) (i j : nat) (v d : A) :
  i <> j -> nth j (upd a i v) d = nth j a d.
Proof.
  revert i j. induction a as [|x a IH]; intros [|i] [|j] H; simpl; auto; try lia.
Qed.

Lemma range_nil (lo hi : Z) : (hi <= lo)%Z -> range lo hi = [].
Proof.
  intros H. unfold range. replace (Z.to_nat (hi - lo)) with O by lia. reflexivity.
Qed.

Lemma range_cons (lo hi : Z) :
  (lo < hi)%Z -> range lo hi = lo :: range (lo + 1) hi.
Proof.
  intros H. unfold range.
  replace (Z.to_nat (hi - lo)) with (S (Z.to_nat (hi - (lo + 1)))) by lia.
  cbn [seq map]. f_equal; [lia|].
  rewrite <- seq_shift, map_map.
  apply map_ext. intros i. lia.
Qed.

Lemma length_range (lo hi : Z) : length (range lo hi) = Z.to_nat (hi - lo).
Proof.
  unfold range. now rewrite length_map, length_seq.
Qed.

Lemma nth_range (lo hi : Z) (i : nat) (d : Z) :
  (i < Z.to_nat (hi - lo))%nat -> nth i (range lo hi) d = (lo + Z.of_nat i)%Z.
Proof.
  intros H. unfold range.
  rewrite (nth_indep _ d (lo + Z.of_nat 0)%Z) by now rewrite length_map, length_seq.
  rewrite (map_nth (fun i => (lo + Z.of_nat i)%Z)), seq_nth by exact H.
  reflexivity.
Qed.

Lemma sum_maximum0_nonneg (a : list R) : 0 <= np.sum (np.maximum0 a).
Proof.
  unfold np.sum, np.maximum0.
  induction a as [|x a IH]; simpl; [lra|].
  pose proof (Rmax_l 0 x). lra.
Qed.

(** ** The monad *)

Section MonadLemmas.

Context {G : BitGenerator}.

Lemma bind_Ok {A B : Type} (c : M G A) (k : A -> M G B) w b w' :
  bind c k w = (Ok b, w') ->
  exists a w1, c w = (Ok a, w1) /\ k a w1 = (Ok b, w').
Proof.
  unfold bind. destruct (c w) as [[a|cls] w1]; intros H.
  - exists a, w1. auto.
  - discriminate.
Qed.

Lemma bind_step {A B : Type} (c : M G A) (k : A -> M G B) w a w1 :
  c w = (Ok a, w1) -> bind c k w = k a w1.
Proof.
  unfold bind. now intros ->.
Qed.

Lemma bind_Raise {A B : Type} (c : M G A) (k : A -> M G B) w cls w1 :
  c w = (Raise cls, w1) -> bind c k w = (Raise cls, w1).
Proof.
  unfold bind. now intros ->.
Qed.

Lemma ret_Ok {A : Type} (a b : A) (w w' : world G) :
  ret a w = (Ok b, w') -> b = a /\ w' = w.
Proof.
  unfold ret. intros H. inversion H. auto.
Qed.

Lemma getitem_Ok (a : list R) (i : Z) (w : world G) v w' :
  getitem a i w = (Ok v, w') ->
  v = item a i /\ w' = w /\ (Z.to_nat i < length a)%nat.
Proof.
  unfold getitem, item.
  destruct (nth_error a (Z.to_nat i)) as [x|] eqn:E; intros H.
  - apply ret_Ok in H. destruct H as [-> ->].
    split; [|split; [reflexivity|]].
    + symmetry. now apply nth_error_nth.
    + apply nth_error_Some. congruence.
  - discriminate.
Qed.

Lemma getitem_in_range (a : list R) (i : Z) (w : world G) :
  (Z.to_nat i < length a)%nat -> getitem a i w = (Ok (item a i), w).
Proof.
  intros H. unfold getitem, item.
  rewrite (nth_error_nth' a 0 H). reflexivity.
Qed.

Lemma setitem_Ok {A : Type} (a : list A) (i : Z) (v : A) (w : world G) a' w' :
  setitem a i v w = (Ok a', w') ->
  a' = upd a (Z.to_nat i) v /\ w' = w /\ (Z.to_nat i < length a)%nat.
Proof.
  unfold setitem.
  destruct (Nat.ltb_spec (Z.to_nat i) (length a)) as [Hlt|Hge]; intros H.
  - apply ret_Ok in H. tauto.
  - discriminate.
Qed.

Lemma setitem_in_range {A : Type} (a : list A) (i : Z) (v : A) (w : world G) :
  (Z.to_nat i < length a)%nat ->
  setitem a i v w = (Ok (upd a (Z.to_nat i) v), w).
Proof.
  intros H. unfold setitem.
  destruct (Nat.ltb_spec (Z.to_nat i) (length a)); [reflexivity | lia].
Qed.

Lemma length_gauss_n (n : nat) (g : rng_state G) :
  length (fst (gauss_n G n g)) = n.
Proof.
  revert g. induction n as [|n IH]; intros g; simpl; [reflexivity|].
  destruct (gauss G g) as [z g1]. specialize (IH g1).
  destruct (gauss_n G n g1) as [zs g2]. simpl in *. now rewrite IH.
Qed.

Lemma np_random_normal_Ok (loc scale : R) (size : Z) w xs w' :
  np_random_normal G loc scale size w = (Ok xs, w') ->
  0 <= scale /\ (0 <= size)%Z /\
  xs = map (fun z => loc + scale * z) (fst (gauss_n G (Z.to_nat size) (rng w))) /\
  rng w' = snd (gauss_n G (Z.to_nat size) (rng w)) /\
  runs_started w' = runs_started w /\ divisors w' = divisors w.
Proof.
  unfold np_random_normal.
  destruct (Rlt_dec scale 0); [discriminate|].
  destruct (Z.ltb_spec size 0); [discriminate|].
  destruct (gauss_n G (Z.to_nat size) (rng w)) as [zs g'].
  intros E. inversion E; subst; simpl.
  repeat split; auto; lra.
Qed.

Lemma np_random_normal_returns (loc scale : R) (size : Z) (w : world G) :
  0 <= scale -> (0 <= size)%Z ->
  exists xs w', np_random_normal G loc scale size w = (Ok xs, w').
Proof.
  intros Hs Hn. unfold np_random_normal.
  destruct (Rlt_dec scale 0); [lra|].
  destruct (Z.ltb_spec size 0); [lia|].
  destruct (gauss_n G (Z.to_nat size) (rng w)) as [zs g'].
  eauto.
Qed.

End MonadLemmas.

(** ** One period *)

Section PeriodLemmas.

Variable G : BitGenerator.
Variable P : Params.

(** What a pass that returns has computed, local by local, and what it
    has done to the world. *)
Lemma period_step_Ok (S_prev n_t : R) (w : world G) (p : Period) (w' : world G) :
  period_step G P S_prev n_t w = (Ok p, w') ->
  let n := Z.to_nat (int n_t) in
  let zs1 := fst (gauss_n G n (rng w)) in
  let g1 := snd (gauss_n G n (rng w)) in
  let zs2 := fst (gauss_n G n g1) in
  0 <= sigma_MINT P /\ 0 <= sigma_BURN P /\ (0 <= int n_t)%Z /\
  mint_per_user p =
    np.maximum0 (map (fun z => mu_MINT P + sigma_MINT P * z) zs1) /\
  M_t p = np.sum (mint_per_user p) /\
  mu_burn_adaptive p =
    mu_BURN_INITIAL P * (1 + ALPHA_ADAPTATION P * (S_prev / (n_t + 1))) /\
  burn_per_user p =
    np.maximum0 (map (fun z => mu_burn_adaptive p + sigma_BURN P * z) zs2) /\
  B_t p = np.sum (burn_per_user p) /\
  S_t p = Rmax 0 (S_prev + M_t p - B_t p) /\
  R_t p = (if Rlt_dec 0 (M_t p)
           then R0_INITIAL_REWARD P * (B_t p / M_t p)
           else R0_INITIAL_REWARD P) /\
  rng w' = snd (gauss_n G n g1) /\
  runs_started w' = runs_started w /\
  divisors w' =
    (if Rlt_dec 0 (M_t p) then [M_t p; n_t + 1] else [n_t + 1]) ++ divisors w.
Proof.
  unfold period_step. intros H.
  apply bind_Ok in H as (mint_raw & w1 & H1 & H).
  apply np_random_normal_Ok in H1 as (Hsm & Hn & -> & Hg1 & Hr1 & Hd1).
  apply bind_Ok in H as (q & w2 & H2 & H).
  unfold div in H2. inversion H2; subst q w2; clear H2.
  apply bind_Ok in H as (burn_raw & w3 & H3 & H).
  apply np_random_normal_Ok in H3 as (Hsb & _ & -> & Hg3 & Hr3 & Hd3).
  simpl in Hg3, Hr3, Hd3.
  apply bind_Ok in H as (Rt & w4 & H4 & H).
  apply ret_Ok in H as [-> ->]. simpl.
  rewrite Hg1 in *.
  destruct (Rlt_dec 0 _) as [Hpos|Hnpos].
  - apply bind_Ok in H4 as (ratio & w5 & H5 & H4).
    unfold div in H5. inversion H5; subst ratio w5; clear H5.
    apply ret_Ok in H4 as [-> ->]. simpl.
    rewrite Hr3, Hd3, Hr1, Hd1.
    repeat split; auto.
  - apply ret_Ok in H4 as [-> ->].
    rewrite Hr3, Hd3, Hr1, Hd1.
    repeat split; auto.
Qed.

(** A pass returns as soon as both standard deviations are non-negative
    and the truncated user count is. *)
Lemma period_step_returns (S_prev n_t : R) (w : world G) :
  0 <= sigma_MINT P -> 0 <= sigma_BURN P -> (0 <= int n_t)%Z ->
  exists p w', period_step G P S_prev n_t w = (Ok p, w').
Proof.
  intros Hsm Hsb Hn. unfold period_step.
  destruct (np_random_normal_returns (mu_MINT P) (sigma_MINT P) (int n_t) w Hsm Hn)
    as (xs & w1 & E1).
  rewrite (bind_step _ _ _ _ _ E1).
  unfold div at 1. unfold bind at 1.
  match goal with
  | |- context [np_random_normal G ?loc ?sc ?sz] =>
      destruct (np_random_normal_returns loc sc sz
        {| rng := rng w1; runs_started := runs_started w1;
           divisors := (n_t + 1) :: divisors w1 |} Hsb Hn) as (ys & w2 & E2)
  end.
  rewrite (bind_step _ _ _ _ _ E2).
  destruct (Rlt_dec 0 _); unfold bind, div, ret; eauto.
Qed.

Lemma period_step_nonneg (S_prev n_t : R) (w : world G) (p : Period) (w' : world G) :
  period_step G P S_prev n_t w = (Ok p, w') ->
  0 <= M_t p /\ 0 <= B_t p /\ 0 <= S_t p.
Proof.
  intros H. apply period_step_Ok in H. cbv zeta in H.
  destruct H as (_ & _ & _ & Hm & HM & _ & Hb & HB & HS & _).
  rewrite HM, HB, HS, Hm, Hb.
  split; [apply sum_maximum0_nonneg|].
  split; [apply sum_maximum0_nonneg|apply Rmax_l].
Qed.

End PeriodLemmas.

(** ** The period loop *)

Lemma Int_part_nonneg (x : R) : 0 <= x -> (0 <= Int_part x)%Z.
Proof.
  intros Hx. destruct (base_Int_part x) as [_ Hgt].
  assert (H : IZR (-1) < IZR (Int_part x)) by (simpl; lra).
  apply lt_IZR in H. lia.
Qed.

Lemma int_nonneg (x : R) : 0 <= x -> (0 <= int x)%Z.
Proof.
  intros Hx. unfold int. destruct (Rle_dec 0 x); [|lra].
  now apply Int_part_nonneg.
Qed.

Lemma int_of_nonneg (x : R) : 0 <= x -> int x = Int_part x.
Proof.
  intros Hx. unfold int. destruct (Rle_dec 0 x); [reflexivity|lra].
Qed.

Lemma item_map_range (f : Z -> R) (n t : Z) :
  (0 <= t < n)%Z -> item (map f (range 0 n)) t = f t.
Proof.
  intros Ht. unfold item.
  rewrite (nth_indep _ 0 (f 0%Z)).
  - rewrite map_nth, nth_range by lia. f_equal. lia.
  - rewrite length_map, length_range. lia.
Qed.

Lemma item_users_series (P : Params) (t : Z) :
  (0 <= t < T_STEPS P)%Z ->
  item (users_series P) t =
  logistic_growth (IZR t) (K_MAX_USERS P) (r_GROWTH_RATE P) (t0_INFLECTION P).
Proof.
  intros Ht. unfold users_series, np.arange.
  now rewrite item_map_range.
Qed.

Lemma length_users_series (P : Params) :
  length (users_series P) = Z.to_nat (T_STEPS P).
Proof.
  unfold users_series, np.arange.
  rewrite length_map, length_range. f_equal. lia.
Qed.

Section LoopLemmas.

Variable G : BitGenerator.
Variable P : Params.

Lemma loop_body_Ok (users : list R) (t : Z) (a : Arrays) (w : world G) a' w' :
  loop_body G P users t a w = (Ok a', w') ->
  exists p,
    period_step G P (item (a_supply a) (t - 1)) (item users t) w = (Ok p, w') /\
    a' = {| a_supply := upd (a_supply a) (Z.to_nat t) (S_t p);
            a_mint_total := upd (a_mint_total a) (Z.to_nat t) (M_t p);
            a_burn_total := upd (a_burn_total a) (Z.to_nat t) (B_t p);
            a_rewards := upd (a_rewards a) (Z.to_nat t) (R_t p) |} /\
    (Z.to_nat t < length (a_supply a))%nat /\
    (Z.to_nat t < length (a_mint_total a))%nat /\
    (Z.to_nat t < length (a_burn_total a))%nat /\
    (Z.to_nat t < length (a_rewards a))%nat.
Proof.
  unfold loop_body. intros H.
  apply bind_Ok in H as (n_t & w1 & H1 & H).
  apply getitem_Ok in H1 as (-> & -> & _).
  apply bind_Ok in H as (S_prev & w1 & H1 & H).
  apply getitem_Ok in H1 as (-> & -> & _).
  apply bind_Ok in H as (p & w1 & Hp & H).
  apply bind_Ok in H as (s' & w2 & H1 & H).
  apply setitem_Ok in H1 as (-> & -> & L1).
  apply bind_Ok in H as (m' & w2 & H1 & H).
  apply setitem_Ok in H1 as (-> & -> & L2).
  apply bind_Ok in H as (b' & w2 & H1 & H).
  apply setitem_Ok in H1 as (-> & -> & L3).
  apply bind_Ok in H as (r' & w2 & H1 & H).
  apply setitem_Ok in H1 as (-> & -> & L4).
  apply ret_Ok in H as [-> ->].
  exists p. auto 10.
Qed.

Lemma loop_body_returns (users : list R) (t : Z) (a : Arrays) (w : world G) :
  0 <= sigma_MINT P -> 0 <= sigma_BURN P -> (0 <= int (item users t))%Z ->
  (1 <= t)%Z ->
  (Z.to_nat t < length users)%nat ->
  (Z.to_nat t < length (a_supply a))%nat ->
  (Z.to_nat t < length (a_mint_total a))%nat ->
  (Z.to_nat t < length (a_burn_total a))%nat ->
  (Z.to_nat t < length (a_rewards a))%nat ->
  exists a' w', loop_body G P users t a w = (Ok a', w').
Proof.
  intros Hsm Hsb Hn Ht Lu L1 L2 L3 L4. unfold loop_body.
  rewrite (bind_step _ _ _ _ _ (getitem_in_range users t w Lu)).
  assert (L0 : (Z.to_nat (t - 1) < length (a_supply a))%nat) by lia.
  rewrite (bind_step _ _ _ _ _ (getitem_in_range (a_supply a) (t - 1) w L0)).
  destruct (period_step_returns G P (item (a_supply a) (t - 1)) (item users t) w
              Hsm Hsb Hn) as (p & w1 & Hp).
  rewrite (bind_step _ _ _ _ _ Hp).
  rewrite (bind_step _ _ _ _ _ (setitem_in_range _ t _ w1 L1)).
  rewrite (bind_step _ _ _ _ _ (setitem_in_range _ t _ w1 L2)).
  rewrite (bind_step _ _ _ _ _ (setitem_in_range _ t _ w1 L3)).
  rewrite (bind_step _ _ _ _ _ (setitem_in_range _ t _ w1 L4)).
  unfold ret. eauto.
Qed.

(** The loop from period [lo] on: lengths are kept, entries below [lo] are
    left alone, and every entry from [lo] on is the result of its pass. *)
Lemma for_in_loop_body_Ok (users : list R) (k : nat) :
  forall (lo : Z) (a : Arrays) (w : world G) a' w',
    for_in (range lo (lo + Z.of_nat k)) (loop_body G P users) a w = (Ok a', w') ->
    (1 <= lo)%Z ->
    same_lengths a a' /\
    same_below (Z.to_nat lo) a a' /\
    forall t, (lo <= t < lo + Z.of_nat k)%Z ->
      exists p, period_at G P users a' t p.
Proof.
  induction k as [|k IH]; intros lo a w a' w' H Hlo.
  - rewrite range_nil in H by lia. cbn [for_in] in H.
    apply ret_Ok in H as [-> ->].
    split; [repeat split|]. split; [intros i Hi; auto|]. intros t Ht. lia.
  - rewrite range_cons in H by lia. cbn [for_in] in H.
    apply bind_Ok in H as (a1 & w1 & Hb & H).
    replace (lo + Z.of_nat (S k))%Z with (lo + 1 + Z.of_nat k)%Z in * by lia.
    apply IH in H; [|lia].
    destruct H as ((E1 & E2 & E3 & E4) & Hbelow & Hper).
    apply loop_body_Ok in Hb as (p & Hp & -> & L1 & L2 & L3 & L4).
    simpl in *. rewrite !length_upd in *.
    split; [repeat split; assumption|].
    split.
    + intros i Hi.
      destruct (Hbelow i) as (F1 & F2 & F3 & F4); [lia|]. simpl in *.
      rewrite F1, F2, F3, F4.
      rewrite !nth_upd_other by lia. auto.
    + intros t Ht.
      destruct (Z.eq_dec t lo) as [->|Hne]; [|apply Hper; lia].
      exists p.
      destruct (Hbelow (Z.to_nat lo)) as (F1 & F2 & F3 & F4); [lia|].
      destruct (Hbelow (Z.to_nat (lo - 1))) as (F0 & _); [lia|].
      simpl in *.
      unfold period_at, item.
      rewrite F0, F1, F2, F3, F4.
      rewrite !nth_upd_same by assumption.
      rewrite nth_upd_other by lia.
      split; [exists w, w1; exact Hp|]. auto.
Qed.

Lemma for_in_loop_body_returns (users : list R) (n : nat) (k : nat) :
  0 <= sigma_MINT P -> 0 <= sigma_BURN P ->
  (forall t, (1 <= t)%Z -> (Z.to_nat t < n)%nat -> (0 <= int (item users t))%Z) ->
  length users = n ->
  forall (lo : Z) (a : Arrays) (w : world G),
    (1 <= lo)%Z -> (Z.to_nat (lo + Z.of_nat k) <= n)%nat ->
    length (a_supply a) = n -> length (a_mint_total a) = n ->
    length (a_burn_total a) = n -> length (a_rewards a) = n ->
    exists a' w',
      for_in (range lo (lo + Z.of_nat k)) (loop_body G P users) a w = (Ok a', w').
Proof.
  intros Hsm Hsb Hint Lu.
  induction k as [|k IH]; intros lo a w Hlo Hhi L1 L2 L3 L4.
  - rewrite range_nil by lia. cbn [for_in]. unfold ret. eauto.
  - rewrite range_cons by lia. cbn [for_in].
    destruct (loop_body_returns users lo a w) as (a1 & w1 & Hb);
      try lia; auto.
    { apply Hint; lia. }
    rewrite (bind_step _ _ _ _ _ Hb).
    replace (lo + Z.of_nat (S k))%Z with (lo + 1 + Z.of_nat k)%Z in * by lia.
    apply loop_body_Ok in Hb as (p & _ & -> & _).
    apply IH; simpl; rewrite ?length_upd; auto; lia.
Qed.

End LoopLemmas.

(** ** One run *)

Section RunLemmas.

Variable G : BitGenerator.
Variable P : Params.

Lemma np_zeros_Ok (n : Z) (w : world G) a w' :
  np_zeros G n w = (Ok a, w') ->
  (0 <= n)%Z /\ a = repeat 0 (Z.to_nat n) /\ w' = w.
Proof.
  unfold np_zeros. destruct (Z.ltb_spec n 0); [discriminate|].
  intros E. apply ret_Ok in E as [-> ->]. auto.
Qed.

Lemma np_ones_Ok (n : Z) (w : world G) a w' :
  np_ones G n w = (Ok a, w') ->
  (0 <= n)%Z /\ a = repeat 1 (Z.to_nat n) /\ w' = w.
Proof.
  unfold np_ones. destruct (Z.ltb_spec n 0); [discriminate|].
  intros E. apply ret_Ok in E as [-> ->]. auto.
Qed.

Lemma np_random_seed_Ok (s : Z) (w : world G) u w' :
  np_random_seed G s w = (Ok u, w') ->
  (0 <= s < 2 ^ 32)%Z /\
  w' = {| rng := init_by_seed G s; runs_started := runs_started w;
          divisors := divisors w |}.
Proof.
  unfold np_random_seed.
  destruct (Z.leb_spec 0 s), (Z.ltb_spec s (2 ^ 32)); simpl;
    intros E; inversion E; auto.
Qed.

Lemma seeding_Ok (seed : option Z) (w : world G) u w' :
  match seed with
  | Some s => np_random_seed G s
  | None => ret tt
  end w = (Ok u, w') ->
  seed_ok seed.
Proof.
  destruct seed as [s|]; simpl; [|auto].
  intros H. now apply np_random_seed_Ok in H.
Qed.

(** What a run that returns has produced. *)
Lemma simulate_single_run_Ok (seed : option Z) (w : world G) tr w' :
  simulate_single_run G P seed w = (Ok tr, w') ->
  (1 <= T_STEPS P)%Z /\ seed_ok seed /\
  time tr = np.arange (T_STEPS P) /\
  users tr = users_series P /\
  same_lengths
    {| a_supply := users_series P; a_mint_total := users_series P;
       a_burn_total := users_series P; a_rewards := users_series P |}
    (arrays_of tr) /\
  item (supply tr) 0 = S0_INITIAL_SUPPLY P /\
  item (mint_total tr) 0 = 0 /\
  item (burn_total tr) 0 = 0 /\
  item (rewards tr) 0 = R0_INITIAL_REWARD P /\
  forall t, (1 <= t < T_STEPS P)%Z ->
    exists p, period_at G P (users_series P) (arrays_of tr) t p.
Proof.
  unfold simulate_single_run. intros H.
  apply bind_Ok in H as (u0 & w0 & _ & H).
  apply bind_Ok in H as (u1 & w1 & Hseed & H).
  apply seeding_Ok in Hseed.
  apply bind_Ok in H as (s0 & w2 & H0 & H).
  apply np_zeros_Ok in H0 as (HT & -> & ->).
  apply bind_Ok in H as (m0 & w2 & H0 & H).
  apply np_zeros_Ok in H0 as (_ & -> & ->).
  apply bind_Ok in H as (b0 & w2 & H0 & H).
  apply np_zeros_Ok in H0 as (_ & -> & ->).
  apply bind_Ok in H as (o0 & w2 & H0 & H).
  apply np_ones_Ok in H0 as (_ & -> & ->).
  apply bind_Ok in H as (s1 & w2 & H0 & H).
  apply setitem_Ok in H0 as (-> & -> & L0).
  rewrite repeat_length in L0.
  apply bind_Ok in H as (a & w2 & Hloop & H).
  apply ret_Ok in H as [-> ->].
  replace (T_STEPS P) with (1 + Z.of_nat (Z.to_nat (T_STEPS P - 1)))%Z
    in Hloop at 1 by lia.
  apply for_in_loop_body_Ok in Hloop; [|lia].
  destruct Hloop as ((E1 & E2 & E3 & E4) & Hbelow & Hper).
  simpl in E1, E2, E3, E4.
  rewrite ?length_upd, ?length_map, ?repeat_length in *.
  destruct (Hbelow O) as (F1 & F2 & F3 & F4); [lia|]. simpl in F1, F2, F3, F4.
  split; [lia|]. split; [exact Hseed|].
  split; [reflexivity|]. split; [reflexivity|].
  split.
  { unfold same_lengths, arrays_of; simpl. rewrite length_users_series. auto. }
  unfold item; simpl.
  split. { rewrite F1. change (Z.to_nat 0) with O. now rewrite nth_upd_same by (rewrite repeat_length; lia). }
  split. { rewrite F2. now rewrite nth_repeat. }
  split. { rewrite F3. now rewrite nth_repeat. }
  split.
  { rewrite F4.
    destruct (Z.to_nat (T_STEPS P)) as [|n] eqn:E; [lia|]. simpl. lra. }
  intros t Ht. destruct (Hper t) as [p Hp]; [lia|].
  exists p. destruct a; exact Hp.
Qed.

Lemma simulate_single_run_returns (seed : option Z) (w : world G) :
  valid_params P -> seed_ok seed ->
  exists tr w', simulate_single_run G P seed w = (Ok tr, w').
Proof.
  intros (HT & Hsm & Hsb & HK) Hseed. unfold simulate_single_run.
  unfold trace_run at 1. unfold bind at 1.
  set (w0 := {| rng := rng w; runs_started := seed :: runs_started w;
                divisors := divisors w |}).
  assert (Hs : exists w1,
             match seed with
             | Some s => np_random_seed G s
             | None => ret tt
             end w0 = (Ok tt, w1)).
  { destruct seed as [s|]; simpl in *.
    - unfold np_random_seed.
      destruct (Z.leb_spec 0 s), (Z.ltb_spec s (2 ^ 32)); simpl; try lia; eauto.
    - unfold ret. eauto. }
  destruct Hs as (w1 & Hs). rewrite (bind_step _ _ _ _ _ Hs).
  unfold np_zeros, np_ones.
  destruct (Z.ltb_spec (T_STEPS P) 0); [lia|].
  unfold ret at 1. unfold bind at 1.
  unfold ret at 1. unfold bind at 1.
  unfold ret at 1. unfold bind at 1.
  unfold ret at 1. unfold bind at 1.
  assert (L0 : (Z.to_nat 0 < length (repeat 0%R (Z.to_nat (T_STEPS P))))%nat)
    by (rewrite repeat_length; lia).
  rewrite (bind_step _ _ _ _ _
             (setitem_in_range _ 0 (S0_INITIAL_SUPPLY P) w1 L0)).
  set (a0 := {| a_supply := _ |}).
  destruct (for_in_loop_body_returns G P (users_series P)
              (Z.to_nat (T_STEPS P)) (Z.to_nat (T_STEPS P - 1)) Hsm Hsb)
    with (lo := 1%Z) (a := a0) (w := w1) as (a' & w' & Hloop).
  - intros t Ht1 Ht2. apply int_nonneg.
    rewrite item_users_series by lia.
    now apply logistic_growth_nonneg.
  - apply length_users_series.
  - lia.
  - lia.
  - subst a0; simpl. now rewrite length_upd, repeat_length.
  - subst a0; simpl. now rewrite repeat_length.
  - subst a0; simpl. now rewrite repeat_length.
  - subst a0; simpl. now rewrite length_map, repeat_length.
  - replace (1 + Z.of_nat (Z.to_nat (T_STEPS P - 1)))%Z with (T_STEPS P)
      in Hloop by lia.
    rewrite (bind_step _ _ _ _ _ Hloop). unfold ret. eauto.
Qed.

End RunLemmas.

(** ** Claims about a single run *)



Lemma int_zero_bounds (x : R) : int x = 0%Z -> -1 < x < 1.
Proof.
  unfold int. destruct (Rle_dec 0 x) as [Hx|Hx]; intros H.
  - destruct (base_Int_part x) as [_ Hgt]. rewrite H in Hgt. simpl in Hgt. lra.
  - destruct (base_Int_part (- x)) as [_ Hgt].
    assert (E : Int_part (- x) = 0%Z) by lia.
    rewrite E in Hgt. simpl in Hgt. lra.
Qed.

Lemma int_small (x : R) : 0 <= x < 1 -> int x = 0%Z.
Proof.
  intros Hx. rewrite int_of_nonneg by lra.
  symmetry. apply Int_part_spec. simpl. lra.
Qed.

(** C8: in a period whose user count truncates to zero the pass draws no
    sample (the generator state is unchanged), its mint and burn totals
    are 0, the reward coefficient is R0, and the only division evaluated
    has the divisor n_t + 1, which is not zero; the arrays of a run hold
    0, 0 and R0 at such a period. *)
Theorem zero_population_period (G : BitGenerator) (P : Params) :
  (forall (S_prev n_t : R) (w : world G),
     int n_t = 0%Z ->
     n_t + 1 <> 0 /\
     (0 <= sigma_MINT P -> 0 <= sigma_BURN P ->
      exists p w', period_step G P S_prev n_t w = (Ok p, w')) /\
     (forall p w', period_step G P S_prev n_t w = (Ok p, w') ->
        mint_per_user p = [] /\ burn_per_user p = [] /\
        M_t p = 0 /\ B_t p = 0 /\ R_t p = R0_INITIAL_REWARD P /\
        rng w' = rng w /\
        divisors w' = (n_t + 1) :: divisors w)) /\
  (forall (seed : option Z) (w : world G) tr w',
     simulate_single_run G P seed w = (Ok tr, w') ->
     forall t, (0 <= t < T_STEPS P)%Z ->
       int (item (users tr) t) = 0%Z ->
       item (mint_total tr) t = 0 /\
       item (burn_total tr) t = 0 /\
       item (rewards tr) t = R0_INITIAL_REWARD P).
Proof.
  assert (Hstep : forall (S_prev n_t : R) (w : world G) p w',
            int n_t = 0%Z ->
            period_step G P S_prev n_t w = (Ok p, w') ->
            mint_per_user p = [] /\ burn_per_user p = [] /\
            M_t p = 0 /\ B_t p = 0 /\ R_t p = R0_INITIAL_REWARD P /\
            rng w' = rng w /\
            divisors w' = (n_t + 1) :: divisors w).
  { intros S_prev n_t w p w' Hn Hp.
    apply period_step_Ok in Hp. cbv zeta in Hp. rewrite Hn in Hp. simpl in Hp.
    destruct Hp as (_ & _ & _ & Hm & HM & _ & Hb & HB & _ & HR & Hg & _ & Hd).
    rewrite Hm in HM. rewrite Hb in HB. simpl in HM, HB.
    rewrite HM in HR, Hd.
    destruct (Rlt_dec 0 0) as [Habs|_]; [lra|].
    repeat split; auto. }
  split.
  - intros S_prev n_t w Hn.
    split; [apply int_zero_bounds in Hn; lra|].
    split.
    + intros Hsm Hsb. apply period_step_returns; auto. rewrite Hn. lia.
    + intros p w' Hp. now apply (Hstep S_prev n_t w).
  - intros seed w tr w' Hrun t Ht Hn.
    apply simulate_single_run_Ok in Hrun
      as (_ & _ & _ & Hu & _ & _ & HM0 & HB0 & HR0 & Hper).
    destruct (Z.eq_dec t 0) as [->|Hne]; [auto|].
    destruct (Hper t) as (p & (w1 & w2 & Hp) & _ & EM & EB & ER); [lia|].
    simpl in *. rewrite Hu in Hn.
    destruct (Hstep _ _ _ _ _ Hn Hp) as (_ & _ & HM & HB & HR & _).
    rewrite EM, EB, ER. auto.
Qed.

(** C9: the user series a run returns is the logistic formula at every
    period, period 0 included; it is the same for any two runs of one
    configuration, whatever their seeds, generators and generator
    states. *)
Theorem users_series_ignores_random_source
    (G1 G2 : BitGenerator) (P : Params) (seed1 seed2 : option Z)
    (w1 : world G1) (w2 : world G2) tr1 tr2 w1' w2' :
  simulate_single_run G1 P seed1 w1 = (Ok tr1, w1') ->
  simulate_single_run G2 P seed2 w2 = (Ok tr2, w2') ->
  users tr1 = users tr2 /\
  length (users tr1) = Z.to_nat (T_STEPS P) /\
  forall t, (0 <= t < T_STEPS P)%Z ->
    item (users tr1) t =
    logistic_growth (IZR t) (K_MAX_USERS P) (r_GROWTH_RATE P) (t0_INFLECTION P).
Proof.
  intros H1 H2.
  apply simulate_single_run_Ok in H1 as (_ & _ & _ & Hu1 & _).
  apply simulate_single_run_Ok in H2 as (_ & _ & _ & Hu2 & _).
  rewrite Hu1, Hu2. split; [reflexivity|].
  split; [apply length_users_series|].
  intros t Ht. now apply item_users_series.
Qed.

(** C10: in every period t >= 1 of a run, with n_t = users[t] the entry
    of the run's own user series, the mint samples and the burn samples
    both number int(n_t), the count truncated toward zero; a run that
    returns never truncated to a negative size, and for a count n_t >= 0
    (as a non-negative capacity gives) int(n_t) is the floor of n_t.  The
    adaptive burn mean of the same pass divides supply[t-1] by n_t + 1
    with n_t itself, not its truncation. *)
Theorem sample_counts_truncated_burn_mean_not
    (G : BitGenerator) (P : Params) (seed : option Z) (w : world G) tr w' :
  simulate_single_run G P seed w = (Ok tr, w') ->
  forall t, (1 <= t < T_STEPS P)%Z ->
    let n_t := item (users tr) t in
    (0 <= int n_t)%Z /\
    (0 <= n_t ->
     int n_t = Int_part n_t /\ IZR (int n_t) <= n_t < IZR (int n_t) + 1) /\
    (0 <= K_MAX_USERS P -> 0 <= n_t) /\
    exists p, period_at G P (users tr) (arrays_of tr) t p /\
      length (mint_per_user p) = Z.to_nat (int n_t) /\
      length (burn_per_user p) = Z.to_nat (int n_t) /\
      mu_burn_adaptive p =
        mu_BURN_INITIAL P *
        (1 + ALPHA_ADAPTATION P * (item (supply tr) (t - 1) / (n_t + 1))).
Proof.
  intros Hrun t Ht n_t.
  apply simulate_single_run_Ok in Hrun
    as (_ & _ & _ & Hu & _ & _ & _ & _ & _ & Hper).
  destruct (Hper t Ht) as (p & Hp).
  pose proof Hp as ((w1 & w2 & Hstep) & _).
  rewrite <- Hu in Hstep. fold n_t in Hstep.
  apply period_step_Ok in Hstep. cbv zeta in Hstep.
  destruct Hstep as (_ & _ & Hsize & Hm & _ & Hmu & Hb & _).
  split; [exact Hsize|].
  split.
  { intros Hn. rewrite (int_of_nonneg n_t Hn).
    split; [reflexivity|]. destruct (base_Int_part n_t); lra. }
  split.
  { intros HK. unfold n_t. rewrite Hu, item_users_series by lia.
    now apply logistic_growth_nonneg. }
  exists p. rewrite Hu. split; [exact Hp|].
  rewrite Hm, Hb. unfold np.maximum0.
  rewrite !length_map, !length_gauss_n.
  repeat split; auto.
Qed.

(** ** Reproducibility *)

Section RngOnly.

Context {G : BitGenerator}.

Lemma rng_only_ret {A : Type} (a : A) : rng_only (@ret G A a).
Proof. intros w1 w2 H. simpl. auto. Qed.

Lemma rng_only_raise {A : Type} (cls : string) : rng_only (@raise G A cls).
Proof. intros w1 w2 H. simpl. auto. Qed.

Lemma rng_only_bind {A B : Type} (c : M G A) (k : A -> M G B) :
  rng_only c -> (forall a, rng_only (k a)) -> rng_only (bind c k).
Proof.
  intros Hc Hk w1 w2 H. unfold bind.
  destruct (Hc w1 w2 H) as [E1 E2].
  destruct (c w1) as [[a1|e1] w1'], (c w2) as [[a2|e2] w2'];
    simpl in E1, E2; inversion E1; subst; simpl; auto.
  now apply Hk.
Qed.

Lemma rng_only_for_in {S : Type} (l : list Z) (body : Z -> S -> M G S) :
  (forall i s, rng_only (body i s)) -> forall s, rng_only (for_in l body s).
Proof.
  intros Hb. induction l as [|i l IH]; intros s; cbn [for_in].
  - apply rng_only_ret.
  - apply rng_only_bind; auto.
Qed.

Lemma rng_only_getitem {A : Type} (a : list A) (i : Z) :
  rng_only (@getitem G A a i).
Proof.
  unfold getitem. destruct (nth_error a (Z.to_nat i));
    [apply rng_only_ret | apply rng_only_raise].
Qed.

Lemma rng_only_setitem {A : Type} (a : list A) (i : Z) (v : A) :
  rng_only (@setitem G A a i v).
Proof.
  unfold setitem. destruct (Z.to_nat i <? length a)%nat;
    [apply rng_only_ret | apply rng_only_raise].
Qed.

Lemma rng_only_div (x y : R) : rng_only (@div G x y).
Proof. intros w1 w2 H. simpl. auto. Qed.

Lemma rng_only_np_zeros (n : Z) : rng_only (np_zeros G n).
Proof.
  unfold np_zeros. destruct (n <? 0)%Z;
    [apply rng_only_raise | apply rng_only_ret].
Qed.

Lemma rng_only_np_ones (n : Z) : rng_only (np_ones G n).
Proof.
  unfold np_ones. destruct (n <? 0)%Z;
    [apply rng_only_raise | apply rng_only_ret].
Qed.

Lemma rng_only_np_random_normal (loc scale : R) (size : Z) :
  rng_only (np_random_normal G loc scale size).
Proof.
  intros w1 w2 H. unfold np_random_normal. rewrite H.
  destruct (Rlt_dec scale 0); [simpl; auto|].
  destruct (size <? 0)%Z; [simpl; auto|].
  destruct (gauss_n G (Z.to_nat size) (rng w2)) as [zs g']. simpl. auto.
Qed.

Lemma rng_only_period_step (P : Params) (S_prev n_t : R) :
  rng_only (period_step G P S_prev n_t).
Proof.
  unfold period_step.
  apply rng_only_bind; [apply rng_only_np_random_normal|]. intros mint_raw.
  apply rng_only_bind; [apply rng_only_div|]. intros q.
  apply rng_only_bind; [apply rng_only_np_random_normal|]. intros burn_raw.
  apply rng_only_bind; [|intros Rt; apply rng_only_ret].
  destruct (Rlt_dec 0 _); [|apply rng_only_ret].
  apply rng_only_bind; [apply rng_only_div|]. intros ratio.
  apply rng_only_ret.
Qed.

Lemma rng_only_loop_body (P : Params) (users : list R) (t : Z) (a : Arrays) :
  rng_only (loop_body G P users t a).
Proof.
  unfold loop_body.
  apply rng_only_bind; [apply rng_only_getitem|]. intros n_t.
  apply rng_only_bind; [apply rng_only_getitem|]. intros S_prev.
  apply rng_only_bind; [apply rng_only_period_step|]. intros p.
  repeat (apply rng_only_bind; [apply rng_only_setitem|]; intro).
  apply rng_only_ret.
Qed.

(** After seeding with an accepted seed, nothing of the previous world
    reaches the outcome of the run. *)
Lemma simulate_single_run_seeded (P : Params) (s : Z) (w1 w2 : world G) :
  fst (simulate_single_run G P (Some s) w1) =
  fst (simulate_single_run G P (Some s) w2) /\
  rng (snd (simulate_single_run G P (Some s) w1)) =
  rng (snd (simulate_single_run G P (Some s) w2)) \/
  fst (simulate_single_run G P (Some s) w1) = Raise ValueError /\
  fst (simulate_single_run G P (Some s) w2) = Raise ValueError.
Proof.
  unfold simulate_single_run.
  match goal with
  | |- context [bind (np_random_seed G s) ?k] => set (rest := k)
  end.
  assert (Hrest : forall u, rng_only (rest u)).
  { intros u. subst rest. cbv beta.
    apply rng_only_bind; [apply rng_only_np_zeros|]. intros s0.
    apply rng_only_bind; [apply rng_only_np_zeros|]. intros m0.
    apply rng_only_bind; [apply rng_only_np_zeros|]. intros b0.
    apply rng_only_bind; [apply rng_only_np_ones|]. intros o0.
    apply rng_only_bind; [apply rng_only_setitem|]. intros s1.
    apply rng_only_bind; [|intros a; apply rng_only_ret].
    apply rng_only_for_in. intros i a. apply rng_only_loop_body. }
  clearbody rest.
  unfold bind, trace_run, np_random_seed. cbn [rng runs_started divisors].
  destruct ((0 <=? s) && (s <? 2 ^ 32))%Z.
  - left. apply Hrest. reflexivity.
  - right. simpl. auto.
Qed.

End RngOnly.

(** C5: two invocations of the single run with the same configuration and
    the same seed give the same outcome, whatever state the global
    generator was left in before each of them, in particular when the
    second follows the first; on a valid configuration and an accepted seed
    that outcome is one trajectory, equal in all six series. *)
Theorem same_seed_same_trajectory (G : BitGenerator) (P : Params) (s : Z) :
  (forall w1 w2 : world G,
     fst (simulate_single_run G P (Some s) w1) =
     fst (simulate_single_run G P (Some s) w2)) /\
  (forall w : world G,
     fst (simulate_single_run G P (Some s)
            (snd (simulate_single_run G P (Some s) w))) =
     fst (simulate_single_run G P (Some s) w)) /\
  (valid_params P -> (0 <= s < 2 ^ 32)%Z ->
   forall w1 w2 : world G, exists tr,
     fst (simulate_single_run G P (Some s) w1) = Ok tr /\
     fst (simulate_single_run G P (Some s) w2) = Ok tr).
Proof.
  assert (Hsame : forall w1 w2 : world G,
            fst (simulate_single_run G P (Some s) w1) =
            fst (simulate_single_run G P (Some s) w2)).
  { intros w1 w2.
    destruct (simulate_single_run_seeded P s w1 w2) as [[E _]|[E1 E2]];
      congruence. }
  split; [exact Hsame|]. split; [intros w; apply Hsame|].
  intros Hv Hs w1 w2.
  destruct (simulate_single_run_returns G P (Some s) w1 Hv Hs) as (tr & w' & E).
  exists tr. rewrite <- (Hsame w1 w2), E. auto.
Qed.

(** ** The zero-variance scenario *)

Lemma exp_square (x : R) : exp (2 * x) = exp x * exp x.
Proof.
  replace (2 * x) with (x + x) by ring. apply exp_plus.
Qed.

Lemma square_bounds (a lo hi lo' hi' : R) :
  0 < lo -> lo < a < hi -> lo' <= lo * lo -> hi * hi <= hi' ->
  lo' < a * a < hi'.
Proof.
  intros Hlo [H1 H2] Hl Hh. split; nra.
Qed.

(** Bounds on [exp (1/2)] by nine squarings from [1 + x < exp x]. *)
Lemma exp_half_bounds : 1648 / 1000 < exp (1 / 2) < 1650 / 1000.
Proof.
  assert (B0 : 100097656 / 100000000 < exp (1 / 1024) < 100097752 / 100000000).
  { pose proof (exp_ineq1 (1 / 1024) ltac:(lra)) as Hl.
    pose proof (exp_ineq1 (- (1 / 1024)) ltac:(lra)) as Hu.
    rewrite exp_Ropp in Hu.
    pose proof (exp_pos (1 / 1024)) as Hp.
    assert (E : exp (1 / 1024) * / exp (1 / 1024) = 1) by (field; lra).
    split; [lra | nra]. }
  assert (B1 : 100195407 / 100000000 < exp (1 / 512) < 100195600 / 100000000).
  { replace (1 / 512) with (2 * (1 / 1024)) by lra. rewrite exp_square.
    refine (square_bounds _ _ _ _ _ _ B0 _ _); lra. }
  assert (B2 : 100391195 / 100000000 < exp (1 / 256) < 100391583 / 100000000).
  { replace (1 / 256) with (2 * (1 / 512)) by lra. rewrite exp_square.
    refine (square_bounds _ _ _ _ _ _ B1 _ _); lra. }
  assert (B3 : 100783920 / 100000000 < exp (1 / 128) < 100784700 / 100000000).
  { replace (1 / 128) with (2 * (1 / 256)) by lra. rewrite exp_square.
    refine (square_bounds _ _ _ _ _ _ B2 _ _); lra. }
  assert (B4 : 101573985 / 100000000 < exp (1 / 64) < 101575558 / 100000000).
  { replace (1 / 64) with (2 * (1 / 128)) by lra. rewrite exp_square.
    refine (square_bounds _ _ _ _ _ _ B3 _ _); lra. }
  assert (B5 : 103172744 / 100000000 < exp (1 / 32) < 103175940 / 100000000).
  { replace (1 / 32) with (2 * (1 / 64)) by lra. rewrite exp_square.
    refine (square_bounds _ _ _ _ _ _ B4 _ _); lra. }
  assert (B6 : 106446151 / 100000000 < exp (1 / 16) < 106452746 / 100000000).
  { replace (1 / 16) with (2 * (1 / 32)) by lra. rewrite exp_square.
    refine (square_bounds _ _ _ _ _ _ B5 _ _); lra. }
  assert (B7 : 113307830 / 100000000 < exp (1 / 8) < 113321872 / 100000000).
  { replace (1 / 8) with (2 * (1 / 16)) by lra. rewrite exp_square.
    refine (square_bounds _ _ _ _ _ _ B6 _ _); lra. }
  assert (B8 : 128386643 / 100000000 < exp (1 / 4) < 128418467 / 100000000).
  { replace (1 / 4) with (2 * (1 / 8)) by lra. rewrite exp_square.
    refine (square_bounds _ _ _ _ _ _ B7 _ _); lra. }
  replace (1 / 2) with (2 * (1 / 4)) by lra. rewrite exp_square.
  refine (square_bounds _ _ _ _ _ _ B8 _ _); lra.
Qed.

(** The logistic count of period 1 in the scenario lies strictly between
    377 and 378. *)
Lemma scenario_A_users_1 :
  377 < logistic_growth 1 1000 (1 / 10) 6 < 378.
Proof.
  unfold logistic_growth.
  replace (- (1 / 10) * (1 - 6)) with (1 / 2) by lra.
  pose proof exp_half_bounds as [Hl Hu].
  assert (Hd : 0 < 1 + exp (1 / 2)) by lra.
  split.
  - apply Rmult_lt_reg_r with (1 + exp (1 / 2)); [exact Hd|].
    unfold Rdiv. rewrite Rmult_assoc, Rinv_l by lra. lra.
  - apply Rmult_lt_reg_r with (1 + exp (1 / 2)); [exact Hd|].
    unfold Rdiv. rewrite Rmult_assoc, Rinv_l by lra. lra.
Qed.

Lemma scenario_A_int_users_1 : int (logistic_growth 1 1000 (1 / 10) 6) = 377%Z.
Proof.
  pose proof scenario_A_users_1 as [Hl Hu].
  rewrite int_of_nonneg by lra.
  symmetry. apply Int_part_spec. lra.
Qed.

Lemma sum_maximum0_constant (loc : R) (zs : list R) :
  np.sum (np.maximum0 (map (fun z => loc + 0 * z) zs)) =
  INR (length zs) * Rmax 0 loc.
Proof.
  unfold np.sum, np.maximum0.
  induction zs as [|z zs IH]; [simpl; lra|].
  cbn [map fold_right]. rewrite IH, length_cons, S_INR.
  replace (loc + 0 * z) with loc by ring. ring.
Qed.

(** Period 1 of any run of the scenario: 377 users are sampled, each mints
    10 and burns 2. *)
Lemma scenario_A_period_1 (G : BitGenerator) (seed : option Z) (w : world G) tr w' :
  simulate_single_run G scenario_A seed w = (Ok tr, w') ->
  item (mint_total tr) 1 = 3770 /\
  item (burn_total tr) 1 = 754 /\
  item (supply tr) 1 = 3016 /\
  item (rewards tr) 1 = 1 * (754 / 3770).
Proof.
  intros Hrun.
  apply simulate_single_run_Ok in Hrun
    as (_ & _ & _ & _ & _ & HS0 & _ & _ & _ & Hper).
  destruct (Hper 1%Z) as (p & (w1 & w2 & Hp) & ES & EM & EB & ER);
    [simpl; lia|].
  simpl in ES, EM, EB, ER, Hp.
  change (1 - 1)%Z with 0%Z in Hp. rewrite HS0 in Hp.
  rewrite item_users_series in Hp by (simpl; lia).
  apply period_step_Ok in Hp. cbv zeta in Hp. simpl in Hp.
  rewrite scenario_A_int_users_1 in Hp.
  destruct Hp as (_ & _ & _ & Hm & HM & Hmu & Hb & HB & HSt & HR & _).
  rewrite Hm in HM. rewrite sum_maximum0_constant, length_gauss_n in HM.
  rewrite Hb in HB. rewrite sum_maximum0_constant, length_gauss_n in HB.
  rewrite Hmu in HB.
  replace (INR (Z.to_nat 377)) with 377 in HM, HB
    by (rewrite INR_IZR_INZ; f_equal).
  rewrite Rmax_right in HM by lra.
  rewrite Rmax_right in HB by lra.
  assert (HM' : M_t p = 3770) by lra.
  assert (HB' : B_t p = 754) by lra.
  rewrite HM', HB' in HSt, HR.
  rewrite Rmax_right in HSt by lra.
  destruct (Rlt_dec 0 3770) as [_|Habs]; [|lra].
  rewrite EM, EB, ES, ER, HSt, HR.
  repeat split; lra.
Qed.

(** With both standard deviations at 0 a pass does not depend on the
    generator. *)
Lemma period_step_zero_variance (G : BitGenerator) (P : Params)
    (S_prev n_t : R) (w : world G) p w' :
  sigma_MINT P = 0 -> sigma_BURN P = 0 ->
  period_step G P S_prev n_t w = (Ok p, w') ->
  (M_t p, B_t p, S_t p, R_t p) = zero_variance_period P S_prev n_t.
Proof.
  intros Hsm Hsb Hp.
  apply period_step_Ok in Hp. cbv zeta in Hp.
  destruct Hp as (_ & _ & _ & Hm & HM & Hmu & Hb & HB & HSt & HR & _).
  rewrite Hsm in Hm. rewrite Hsb in Hb.
  rewrite Hm in HM. rewrite sum_maximum0_constant, length_gauss_n in HM.
  rewrite Hb in HB. rewrite sum_maximum0_constant, length_gauss_n in HB.
  rewrite Hmu in HB.
  unfold zero_variance_period. cbv zeta.
  rewrite <- HM, <- HB, <- HSt, <- HR. reflexivity.
Qed.

(** Two returning runs of a zero-variance configuration agree entry by
    entry, whatever their generators, seeds and generator states. *)
Lemma zero_variance_runs_agree (G1 G2 : BitGenerator) (P : Params)
    (seed1 seed2 : option Z) (w1 : world G1) (w2 : world G2) tr1 tr2 w1' w2' :
  sigma_MINT P = 0 -> sigma_BURN P = 0 ->
  simulate_single_run G1 P seed1 w1 = (Ok tr1, w1') ->
  simulate_single_run G2 P seed2 w2 = (Ok tr2, w2') ->
  tr1 = tr2.
Proof.
  intros Hsm Hsb H1 H2.
  apply simulate_single_run_Ok in H1
    as (HT & _ & Ht1 & Hu1 & (L1 & L2 & L3 & L4) & S1 & M1 & B1 & R1 & P1).
  apply simulate_single_run_Ok in H2
    as (_ & _ & Ht2 & Hu2 & (K1 & K2 & K3 & K4) & S2 & M2 & B2 & R2 & P2).
  simpl in L1, L2, L3, L4, K1, K2, K3, K4.
  assert (Hall : forall n : nat, (Z.of_nat n < T_STEPS P)%Z ->
            item (supply tr1) (Z.of_nat n) = item (supply tr2) (Z.of_nat n) /\
            item (mint_total tr1) (Z.of_nat n) = item (mint_total tr2) (Z.of_nat n) /\
            item (burn_total tr1) (Z.of_nat n) = item (burn_total tr2) (Z.of_nat n) /\
            item (rewards tr1) (Z.of_nat n) = item (rewards tr2) (Z.of_nat n)).
  { induction n as [|n IH]; intros Hn.
    - change (Z.of_nat 0) with 0%Z. rewrite S1, S2, M1, M2, B1, B2, R1, R2. auto.
    - destruct IH as (IHS & _); [lia|].
      destruct (P1 (Z.of_nat (S n))) as (p1 & (u1 & u1' & Hp1) & ES1 & EM1 & EB1 & ER1);
        [lia|].
      destruct (P2 (Z.of_nat (S n))) as (p2 & (u2 & u2' & Hp2) & ES2 & EM2 & EB2 & ER2);
        [lia|].
      unfold arrays_of in *.
      cbn [a_supply a_mint_total a_burn_total a_rewards] in *.
      replace (Z.of_nat (S n) - 1)%Z with (Z.of_nat n) in Hp1, Hp2 by lia.
      apply (period_step_zero_variance _ _ _ _ _ _ _ Hsm Hsb) in Hp1.
      apply (period_step_zero_variance _ _ _ _ _ _ _ Hsm Hsb) in Hp2.
      rewrite <- IHS in Hp2. rewrite <- Hp1 in Hp2.
      inversion Hp2 as [[EM EB ES ER]].
      rewrite ES1, EM1, EB1, ER1, ES2, EM2, EB2, ER2. auto. }
  assert (Hnth : forall (l1 l2 : list R),
            length l1 = length (users_series P) ->
            length l2 = length (users_series P) ->
            (forall n : nat, (Z.of_nat n < T_STEPS P)%Z ->
               item l1 (Z.of_nat n) = item l2 (Z.of_nat n)) ->
            l1 = l2).
  { intros l1 l2 E1 E2 Hitems.
    apply (nth_ext l1 l2 0 0); [congruence|].
    intros n Hn. rewrite E1, length_users_series in Hn.
    specialize (Hitems n ltac:(lia)). unfold item in Hitems.
    now rewrite Nat2Z.id in Hitems. }
  destruct tr1 as [t1 s1 us1 m1 b1 r1], tr2 as [t2 s2 us2 m2 b2 r2].
  simpl in *. subst t1 t2 us1 us2.
  f_equal; apply Hnth; auto; intros n Hn; apply (Hall n Hn).
Qed.

(** C3, as the code has it: in the zero-variance scenario every run, for
    any generator, seed and generator state, returns one and the same
    trajectory; in period 1 its supply is
    int(userCount(1)) * 10 - int(userCount(1)) * 2 = 3016, with the
    truncated count int(userCount(1)) = 377, and its reward coefficient is
    1 * (2 / 10). *)
Theorem scenario_A_first_period
    (G : BitGenerator) (seed : option Z) (w : world G) tr w' :
  simulate_single_run G scenario_A seed w = (Ok tr, w') ->
  let n1 := logistic_growth 1 1000 (1 / 10) 6 in
  item (users tr) 1 = n1 /\
  int n1 = 377%Z /\
  item (supply tr) 1 = IZR (int n1) * 10 - IZR (int n1) * 2 /\
  item (supply tr) 1 = 3016 /\
  item (rewards tr) 1 = 1 * (2 / 10) /\
  (forall (G' : BitGenerator) (seed' : option Z) (v : world G') tr' v',
     simulate_single_run G' scenario_A seed' v = (Ok tr', v') -> tr' = tr).
Proof.
  intros Hrun n1.
  pose proof (scenario_A_period_1 G seed w tr w' Hrun) as (_ & _ & HS & HR).
  assert (Hdet : forall (G' : BitGenerator) (seed' : option Z) (v : world G') tr' v',
            simulate_single_run G' scenario_A seed' v = (Ok tr', v') -> tr' = tr).
  { intros G' seed' v tr' v' Hrun'.
    apply (zero_variance_runs_agree G' G scenario_A seed' seed v w tr' tr v' w');
      auto. }
  apply simulate_single_run_Ok in Hrun as (_ & _ & _ & Hu & _).
  split.
  { rewrite Hu, item_users_series by (simpl; lia). reflexivity. }
  subst n1. rewrite scenario_A_int_users_1.
  split; [reflexivity|].
  rewrite HS, HR. repeat split; try lra. exact Hdet.
Qed.

(** C3, as stated, fails: the supply of period 1 is not the real-valued
    logistic count times 10 minus that count times 2. *)
Lemma scenario_A_supply_is_not_from_real_count :
  exists tr w',
    simulate_single_run counter_generator scenario_A (Some 0%Z) world0 = (Ok tr, w') /\
    item (supply tr) 1 <>
    logistic_growth 1 1000 (1 / 10) 6 * 10 - logistic_growth 1 1000 (1 / 10) 6 * 2.
Proof.
  destruct (simulate_single_run_returns counter_generator scenario_A
              (Some 0%Z) world0) as (tr & w' & Hrun).
  - unfold valid_params; simpl. repeat split; try lra; lia.
  - simpl. lia.
  - exists tr, w'. split; [exact Hrun|].
    pose proof (scenario_A_period_1 _ _ _ _ _ Hrun) as (_ & _ & HS & _).
    pose proof scenario_A_users_1 as [Hl Hu].
    rewrite HS. lra.
Qed.

(** ** The trace of started runs *)

Section RunsTrace.

Context {G : BitGenerator}.

Lemma keeps_runs_ret {A : Type} (a : A) : keeps_runs (@ret G A a).
Proof. intros w. reflexivity. Qed.

Lemma keeps_runs_raise {A : Type} (cls : string) : keeps_runs (@raise G A cls).
Proof. intros w. reflexivity. Qed.

Lemma runs_after_bind {A B : Type} (c : M G A) (k : A -> M G B) (w : world G) :
  (forall a, keeps_runs (k a)) ->
  runs_started (snd (bind c k w)) = runs_started (snd (c w)).
Proof.
  intros Hk. unfold bind. destruct (c w) as [[a|cls] w1]; simpl; [apply Hk | reflexivity].
Qed.

Lemma keeps_runs_bind {A B : Type} (c : M G A) (k : A -> M G B) :
  keeps_runs c -> (forall a, keeps_runs (k a)) -> keeps_runs (bind c k).
Proof.
  intros Hc Hk w. now rewrite runs_after_bind, Hc.
Qed.

Lemma keeps_runs_for_in {S : Type} (l : list Z) (body : Z -> S -> M G S) :
  (forall i s, keeps_runs (body i s)) -> forall s, keeps_runs (for_in l body s).
Proof.
  intros Hb. induction l as [|i l IH]; intros s; cbn [for_in].
  - apply keeps_runs_ret.
  - apply keeps_runs_bind; auto.
Qed.

Lemma keeps_runs_getitem {A : Type} (a : list A) (i : Z) :
  keeps_runs (@getitem G A a i).
Proof.
  unfold getitem. destruct (nth_error a (Z.to_nat i));
    [apply keeps_runs_ret | apply keeps_runs_raise].
Qed.

Lemma keeps_runs_setitem {A : Type} (a : list A) (i : Z) (v : A) :
  keeps_runs (@setitem G A a i v).
Proof.
  unfold setitem. destruct (Z.to_nat i <? length a)%nat;
    [apply keeps_runs_ret | apply keeps_runs_raise].
Qed.

Lemma keeps_runs_div (x y : R) : keeps_runs (@div G x y).
Proof. intros w. reflexivity. Qed.

Lemma keeps_runs_np_zeros (n : Z) : keeps_runs (np_zeros G n).
Proof.
  unfold np_zeros. destruct (n <? 0)%Z;
    [apply keeps_runs_raise | apply keeps_runs_ret].
Qed.

Lemma keeps_runs_np_ones (n : Z) : keeps_runs (np_ones G n).
Proof.
  unfold np_ones. destruct (n <? 0)%Z;
    [apply keeps_runs_raise | apply keeps_runs_ret].
Qed.

Lemma keeps_runs_np_random_seed (s : Z) : keeps_runs (np_random_seed G s).
Proof.
  intros w. unfold np_random_seed.
  destruct ((0 <=? s) && (s <? 2 ^ 32))%Z; reflexivity.
Qed.

Lemma keeps_runs_np_random_normal (loc scale : R) (size : Z) :
  keeps_runs (np_random_normal G loc scale size).
Proof.
  intros w. unfold np_random_normal.
  destruct (Rlt_dec scale 0); [reflexivity|].
  destruct (size <? 0)%Z; [reflexivity|].
  destruct (gauss_n G (Z.to_nat size) (rng w)). reflexivity.
Qed.

Lemma keeps_runs_np_percentile_axis0 (ncols : Z) (rows : list (list R)) (q : R) :
  keeps_runs (np_percentile_axis0 G ncols rows q).
Proof.
  destruct rows; [apply keeps_runs_raise | apply keeps_runs_ret].
Qed.

Create HintDb runs_trace.

#[local] Hint Resolve keeps_runs_ret keeps_runs_raise keeps_runs_getitem
  keeps_runs_setitem keeps_runs_div keeps_runs_np_zeros keeps_runs_np_ones
  keeps_runs_np_random_seed keeps_runs_np_random_normal
  keeps_runs_np_percentile_axis0 : runs_trace.

Ltac keeps_runs_steps :=
  repeat (apply keeps_runs_bind; [solve [auto with runs_trace] | intro]);
  auto with runs_trace.

Lemma keeps_runs_period_step (P : Params) (S_prev n_t : R) :
  keeps_runs (period_step G P S_prev n_t).
Proof.
  unfold period_step.
  repeat (apply keeps_runs_bind; [solve [auto with runs_trace] | intro]).
  apply keeps_runs_bind; [|intro; auto with runs_trace].
  destruct (Rlt_dec 0 _); keeps_runs_steps.
Qed.

Lemma keeps_runs_loop_body (P : Params) (users : list R) (t : Z) (a : Arrays) :
  keeps_runs (loop_body G P users t a).
Proof.
  unfold loop_body.
  repeat (apply keeps_runs_bind; [solve [auto with runs_trace] | intro]).
  apply keeps_runs_bind; [apply keeps_runs_period_step | intro].
  keeps_runs_steps.
Qed.

Lemma keeps_runs_statistics_phase (ncols : Z) (s r : list (list R)) :
  keeps_runs (statistics_phase G ncols s r).
Proof.
  unfold statistics_phase. keeps_runs_steps.
Qed.

(** Every call of the single run, returning or not, is traced once. *)
Lemma simulate_single_run_traced (P : Params) (seed : option Z) (w : world G) :
  runs_started (snd (simulate_single_run G P seed w)) = seed :: runs_started w.
Proof.
  unfold simulate_single_run.
  rewrite runs_after_bind; [reflexivity|].
  intros u. apply keeps_runs_bind.
  - destruct seed; auto with runs_trace.
  - intros u'.
    repeat (apply keeps_runs_bind; [solve [auto with runs_trace] | intro]).
    apply keeps_runs_bind; [|intro; auto with runs_trace].
    apply keeps_runs_for_in. intros ? ?. apply keeps_runs_loop_body.
Qed.

Lemma collect_run_traced (P : Params) (i : Z) (c : Collected) (w : world G) :
  runs_started (snd (collect_run G P i c w)) = Some i :: runs_started w.
Proof.
  unfold collect_run.
  rewrite runs_after_bind; [apply simulate_single_run_traced|].
  intros tr. keeps_runs_steps.
Qed.

Lemma extends_runs_for_in_collect_run (P : Params) (l : list Z) :
  forall c, extends_runs (for_in l (collect_run G P) c).
Proof.
  induction l as [|i l IH]; intros c w; cbn [for_in].
  - exists []. reflexivity.
  - unfold bind.
    pose proof (collect_run_traced P i c w) as Ht.
    destruct (collect_run G P i c w) as [[c1|cls] w1]; simpl in Ht.
    + destruct (IH c1 w1) as [l' Hl']. exists (l' ++ [Some i]).
      rewrite Hl', Ht, <- app_assoc. reflexivity.
    + exists [Some i]. simpl. now rewrite Ht.
Qed.

(** With a positive run count (and a non-negative horizon, so that the
    result arrays are allocated) the run of seed 0 is started first. *)
Lemma positive_run_count_starts_runs (P : Params) (w : world G) :
  (1 <= N_SIMULATIONS P)%Z -> (0 <= T_STEPS P)%Z ->
  exists l,
    runs_started (snd (run_monte_carlo G P w)) = l ++ Some 0%Z :: runs_started w.
Proof.
  intros HN HT. unfold run_monte_carlo, np_zeros2.
  destruct (Z.ltb_spec (N_SIMULATIONS P) 0); [lia|].
  destruct (Z.ltb_spec (T_STEPS P) 0); [lia|]. cbn [orb].
  unfold ret at 1. unfold bind at 1. unfold ret at 1. unfold bind at 1.
  rewrite runs_after_bind.
  2:{ intros c. apply keeps_runs_bind; [apply keeps_runs_statistics_phase|].
      intros st. apply keeps_runs_bind.
      - destruct (T_STEPS P =? 0)%Z; auto with runs_trace.
      - intros u. destruct (last_time_users c) as [[tm us]|];
          auto with runs_trace. }
  rewrite range_cons by lia. cbn [for_in]. unfold bind.
  match goal with
  | |- context [collect_run G P 0 ?c0 w] =>
      pose proof (collect_run_traced P 0 c0 w) as Ht;
      destruct (collect_run G P 0 c0 w) as [[c1|cls] w1]
  end; simpl in Ht.
  - destruct (extends_runs_for_in_collect_run P (range (0 + 1) (N_SIMULATIONS P)) c1 w1)
      as [l Hl].
    exists l. now rewrite Hl, Ht.
  - exists []. simpl. exact Ht.
Qed.

End RunsTrace.

(** ** The run count *)

(** C4, as the code has it: with a run count <= 0 no run is started and
    the world is left as it was; no statistics are returned, the call ends
    in an exception that is never a ConfigurationError; a negative count
    is refused with a ValueError by the allocation that precedes the
    loop. *)
Theorem nonpositive_run_count_runs_nothing
    (G : BitGenerator) (P : Params) (w : world G) :
  (N_SIMULATIONS P <= 0)%Z ->
  snd (run_monte_carlo G P w) = w /\
  (exists cls, fst (run_monte_carlo G P w) = Raise cls /\
               cls <> ConfigurationError) /\
  ((N_SIMULATIONS P < 0)%Z -> fst (run_monte_carlo G P w) = Raise ValueError).
Proof.
  intros HN. unfold run_monte_carlo, np_zeros2.
  destruct (Z.ltb_spec (N_SIMULATIONS P) 0) as [Hneg|Hzero].
  - simpl. unfold bind, raise. simpl.
    split; [reflexivity|]. split; [|reflexivity].
    exists ValueError. split; [reflexivity | discriminate].
  - assert (E : N_SIMULATIONS P = 0%Z) by lia. rewrite E.
    destruct (Z.ltb_spec (T_STEPS P) 0) as [HT|HT].
    + simpl. unfold bind, raise. simpl.
      split; [reflexivity|]. split; [|lia].
      exists ValueError. split; [reflexivity | discriminate].
    + rewrite range_nil by lia. simpl. unfold bind, ret, raise. simpl.
      split; [reflexivity|]. split; [|lia].
      exists IndexError. split; [reflexivity | discriminate].
Qed.

(** C4, as stated, fails: with a run count of 0 the call ends in an
    exception of the statistics phase, with a run count of -1 in the
    ValueError of the allocation; neither is a ConfigurationError. *)
Lemma run_count_zero_is_not_a_configuration_error :
  fst (run_monte_carlo counter_generator scenario_B world0) <> Raise ConfigurationError /\
  fst (run_monte_carlo counter_generator scenario_B_negative world0) = Raise ValueError /\
  fst (run_monte_carlo counter_generator scenario_B_negative world0) <> Raise ConfigurationError.
Proof.
  assert (E0 : fst (run_monte_carlo counter_generator scenario_B world0)
               = Raise IndexError) by reflexivity.
  assert (E1 : fst (run_monte_carlo counter_generator scenario_B_negative world0)
               = Raise ValueError) by reflexivity.
  rewrite E0, E1. repeat split; discriminate.
Qed.

(** ** Aggregation *)

Lemma insert_sorted_comm (x y : R) (l : list R) :
  insert_sorted x (insert_sorted y l) = insert_sorted y (insert_sorted x l).
Proof.
  induction l as [|z l IH]; simpl.
  - destruct (Rle_dec x y), (Rle_dec y x); try reflexivity.
    + assert (x = y) by lra. now subst.
    + lra.
  - destruct (Rle_dec y z), (Rle_dec x z); simpl;
      repeat (destruct (Rle_dec _ _); simpl); try reflexivity; try lra.
    + assert (x = y) by lra. now subst.
    + now rewrite IH.
Qed.

Lemma sort_Permutation (l l' : list R) :
  Permutation l l' -> sort l = sort l'.
Proof.
  induction 1; simpl.
  - reflexivity.
  - now f_equal.
  - apply insert_sorted_comm.
  - congruence.
Qed.

Lemma insert_sorted_perm (x : R) (l : list R) :
  Permutation (insert_sorted x l) (x :: l).
Proof.
  induction l as [|y l IH]; simpl; [reflexivity|].
  destruct (Rle_dec x y); [reflexivity|].
  rewrite IH. apply perm_swap.
Qed.

Lemma sort_perm (l : list R) : Permutation (sort l) l.
Proof.
  induction l as [|x l IH]; simpl; [reflexivity|].
  rewrite insert_sorted_perm. now apply perm_skip.
Qed.

Lemma insert_sorted_Sorted (x : R) (l : list R) :
  Sorted Rle l -> Sorted Rle (insert_sorted x l).
Proof.
  induction 1 as [|y l Hs IH Hd]; simpl.
  - repeat constructor.
  - destruct (Rle_dec x y) as [Hxy|Hxy].
    + constructor; [constructor; assumption | constructor; exact Hxy].
    + constructor; [exact IH|].
      destruct Hd as [|z l' Hyz]; simpl.
      * constructor. lra.
      * destruct (Rle_dec x z); constructor; lra.
Qed.

Lemma sort_Sorted (l : list R) : Sorted Rle (sort l).
Proof.
  induction l as [|x l IH]; simpl; [constructor|].
  now apply insert_sorted_Sorted.
Qed.

Lemma percentile_Permutation (l l' : list R) (q : R) :
  Permutation l l' -> np.percentile l q = np.percentile l' q.
Proof.
  intros H. unfold np.percentile.
  now rewrite (sort_Permutation _ _ H), (Permutation_length H).
Qed.

Lemma length_along_axis0 (f : list R -> R) (ncols : Z) (rows : list (list R)) :
  length (np.along_axis0 f ncols rows) = Z.to_nat ncols.
Proof.
  unfold np.along_axis0. now rewrite length_map, length_seq.
Qed.

Lemma nth_along_axis0 (f : list R -> R) (ncols : Z) (rows : list (list R)) (j : nat) :
  (j < Z.to_nat ncols)%nat ->
  nth j (np.along_axis0 f ncols rows) 0 = f (np.column rows j).
Proof.
  intros Hj. unfold np.along_axis0.
  set (g := fun j => f (np.column rows j)).
  rewrite (nth_indep _ 0 (g O)) by now rewrite length_map, length_seq.
  rewrite map_nth, seq_nth by exact Hj. reflexivity.
Qed.

Lemma percentile_axis0_Permutation (ncols : Z) (rows rows' : list (list R)) (q : R) :
  Permutation rows rows' ->
  np.along_axis0 (fun c => np.percentile c q) ncols rows =
  np.along_axis0 (fun c => np.percentile c q) ncols rows'.
Proof.
  intros H. unfold np.along_axis0.
  apply map_ext. intros j. apply percentile_Permutation.
  unfold np.column. now apply Permutation_map.
Qed.

Lemma statistics_phase_nonempty (G : BitGenerator) (ncols : Z)
    (s r : list (list R)) (w : world G) :
  s <> [] ->
  statistics_phase G ncols s r w = (Ok (compute_statistics ncols s r), w).
Proof.
  intros Hs. destruct s as [|row s]; [congruence|]. reflexivity.
Qed.

Lemma statistics_phase_empty (G : BitGenerator) (ncols : Z)
    (r : list (list R)) (w : world G) :
  statistics_phase G ncols [] r w = (Raise IndexError, w).
Proof. reflexivity. Qed.

(** The interpolation weight and the two indices of a percentile. *)
Lemma percentile_indices (n : nat) (q : R) :
  (1 <= n)%nat -> 0 <= q <= 100 ->
  let h := (INR n - 1) * (q / 100) in
  let lo := Z.to_nat (Int_part h) in
  let hi := Nat.min (lo + 1) (n - 1) in
  (lo <= hi)%nat /\ (hi < n)%nat /\ 0 <= h - INR lo < 1.
Proof.
  intros Hn Hq h lo hi.
  assert (Hn1 : 1 <= INR n) by (change 1 with (INR 1); apply le_INR; lia).
  assert (Hh0 : 0 <= h) by (unfold h; apply Rmult_le_pos; lra).
  assert (Hh1 : h <= INR n - 1) by (unfold h; nra).
  destruct (base_Int_part h) as [Hfl Hfr].
  pose proof (Int_part_nonneg h Hh0) as Hi0.
  assert (Elo : INR lo = IZR (Int_part h)).
  { unfold lo. rewrite INR_IZR_INZ, Z2Nat.id by lia. reflexivity. }
  assert (Hlo : (lo <= n - 1)%nat).
  { apply INR_le. rewrite minus_INR by lia. simpl. lra. }
  unfold hi. repeat split; try lia; lra.
Qed.

Lemma length_sort (c : list R) : length (sort c) = length c.
Proof.
  apply Permutation_length, sort_perm.
Qed.

Lemma Sorted_nth_le (s : list R) :
  Sorted Rle s ->
  forall i j, (i <= j < length s)%nat -> nth i s 0 <= nth j s 0.
Proof.
  intros Hs. apply Sorted_StronglySorted in Hs; [|intros x y z; apply Rle_trans].
  induction Hs as [|x l Hl IH Hx]; intros i j Hij; simpl in Hij; [lia|].
  destruct i as [|i], j as [|j]; simpl; try lia.
  - lra.
  - rewrite Forall_forall in Hx. apply Hx, nth_In. lia.
  - apply IH. lia.
Qed.

(** The parts of a percentile: the two ranks, the weight, and the two
    order statistics it lies between. *)
Lemma percentile_parts (c : list R) (q : R) :
  c <> [] -> 0 <= q <= 100 ->
  exists (lo hi : nat) (gamma : R),
    INR lo = IZR (Int_part ((INR (length c) - 1) * (q / 100))) /\
    gamma = (INR (length c) - 1) * (q / 100) - INR lo /\
    hi = Nat.min (lo + 1) (length c - 1) /\
    (lo <= hi < length c)%nat /\ 0 <= gamma < 1 /\
    np.percentile c q =
      nth lo (sort c) 0 + (nth hi (sort c) 0 - nth lo (sort c) 0) * gamma /\
    nth lo (sort c) 0 <= np.percentile c q <= nth hi (sort c) 0.
Proof.
  intros Hc Hq.
  assert (Hn : (1 <= length c)%nat) by (destruct c; [congruence | simpl; lia]).
  pose proof (percentile_indices (length c) q Hn Hq) as H. cbv zeta in H.
  destruct H as (H1 & H2 & H3).
  set (h := (INR (length c) - 1) * (q / 100)) in *.
  set (lo := Z.to_nat (Int_part h)) in *.
  set (hi := Nat.min (lo + 1) (length c - 1)) in *.
  assert (Hh0 : 0 <= h).
  { assert (1 <= INR (length c)) by (change 1 with (INR 1); apply le_INR; lia).
    unfold h. apply Rmult_le_pos; lra. }
  exists lo, hi, (h - INR lo).
  split.
  { unfold lo. rewrite INR_IZR_INZ, Z2Nat.id by (apply Int_part_nonneg; exact Hh0).
    reflexivity. }
  split; [reflexivity|]. split; [reflexivity|].
  split; [lia|]. split; [exact H3|].
  assert (Hle : nth lo (sort c) 0 <= nth hi (sort c) 0).
  { apply Sorted_nth_le; [apply sort_Sorted | rewrite length_sort; lia]. }
  split; [reflexivity|].
  unfold np.percentile. fold h. fold lo. fold hi. nra.
Qed.

(** C6, as the code has it: on a non-empty collection of trajectories and
    on any reordering of it the statistics phase returns the same 5th and
    95th percentile of the supply.  In every period the percentile is taken
    from the supplies the trajectories have in that period: with the
    column sorted, it is the linear interpolation, with weight gamma in
    [0, 1), between the order statistics of ranks lo and
    hi = min (lo + 1, n - 1), where lo + gamma = (n - 1) * q / 100, and
    it lies between these two. *)
Theorem percentile_bands_invariant_under_reordering
    (G : BitGenerator) (ncols : Z) (w : world G) :
  (forall trs trs' : list Trajectory,
     trs <> [] -> Permutation trs trs' ->
     exists st st',
       statistics_phase G ncols (map supply trs) (map rewards trs) w = (Ok st, w) /\
       statistics_phase G ncols (map supply trs') (map rewards trs') w = (Ok st', w) /\
       percentile_5 st' = percentile_5 st /\
       percentile_95 st' = percentile_95 st /\
       length (percentile_5 st) = Z.to_nat ncols /\
       length (percentile_95 st) = Z.to_nat ncols /\
       forall j, (j < Z.to_nat ncols)%nat ->
         nth j (percentile_5 st) 0 =
           np.percentile (map (fun tr => nth j (supply tr) 0) trs) 5 /\
         nth j (percentile_95 st) 0 =
           np.percentile (map (fun tr => nth j (supply tr) 0) trs) 95) /\
  (forall (c : list R) (q : R),
     c <> [] -> 0 <= q <= 100 ->
     Permutation (sort c) c /\ Sorted Rle (sort c) /\
     exists (lo hi : nat) (gamma : R),
       (lo <= hi < length c)%nat /\ hi = Nat.min (lo + 1) (length c - 1) /\
       0 <= gamma < 1 /\
       INR lo + gamma = (INR (length c) - 1) * (q / 100) /\
       np.percentile c q =
         nth lo (sort c) 0 + (nth hi (sort c) 0 - nth lo (sort c) 0) * gamma /\
       nth lo (sort c) 0 <= np.percentile c q <= nth hi (sort c) 0).
Proof.
  split.
  - intros trs trs' Hne Hp.
    assert (Hs : Permutation (map supply trs) (map supply trs'))
      by now apply Permutation_map.
    assert (Hne1 : map supply trs <> [])
      by (destruct trs; [congruence | discriminate]).
    assert (Hne2 : map supply trs' <> []).
    { destruct trs' as [|tr' trs']; [|discriminate].
      apply Permutation_sym, Permutation_nil in Hp. congruence. }
    eexists _, _.
    split; [apply statistics_phase_nonempty; exact Hne1|].
    split; [apply statistics_phase_nonempty; exact Hne2|].
    cbn [compute_statistics percentile_5 percentile_95].
    split; [symmetry; now apply percentile_axis0_Permutation|].
    split; [symmetry; now apply percentile_axis0_Permutation|].
    rewrite !length_along_axis0.
    split; [reflexivity|]. split; [reflexivity|].
    intros j Hj. rewrite !nth_along_axis0 by exact Hj.
    unfold np.column. rewrite map_map. split; reflexivity.
  - intros c q Hc Hq.
    split; [apply sort_perm|]. split; [apply sort_Sorted|].
    destruct (percentile_parts c q Hc Hq)
      as (lo & hi & gamma & _ & Eg & Ehi & Hr & Hg & Ev & Hb).
    exists lo, hi, gamma.
    split; [exact Hr|]. split; [exact Ehi|]. split; [exact Hg|].
    split; [rewrite Eg; ring|]. split; [exact Ev | exact Hb].
Qed.

(** C6, as stated, fails on the means and the standard deviation: on
    doubles they are reductions over the runs in run order.  For three
    runs with the supplies 0.1, 0.2, 2.5 and the reward coefficients 0.1,
    0.2, 0.4 in period 1, the mean supply, the standard deviation of the
    supply and the mean reward of that period all differ between the
    order [T1, T2, T3] and the order [T3, T1, T2]. *)
Lemma mean_and_std_depend_on_run_order :
  Permutation float64.three_supply_rows
    (float64.reordered float64.three_supply_rows) /\
  Permutation float64.three_reward_rows
    (float64.reordered float64.three_reward_rows) /\
  float64.along_axis0 float64.mean 2 float64.three_supply_rows <>
  float64.along_axis0 float64.mean 2 (float64.reordered float64.three_supply_rows) /\
  float64.along_axis0 float64.std 2 float64.three_supply_rows <>
  float64.along_axis0 float64.std 2 (float64.reordered float64.three_supply_rows) /\
  float64.along_axis0 float64.mean 2 float64.three_reward_rows <>
  float64.along_axis0 float64.mean 2 (float64.reordered float64.three_reward_rows).
Proof.
  assert (Hperm : forall a b c : list PrimFloat.float,
            Permutation [a; b; c] [c; a; b])
    by (intros a b c; exact (Permutation_sym (Permutation_cons_append [a; b] c))).
  assert (Hneq : forall (f : list PrimFloat.float -> PrimFloat.float) rows,
            PrimFloat.eqb
              (nth 1 (float64.along_axis0 f 2 rows) PrimFloat.zero)
              (nth 1 (float64.along_axis0 f 2 (float64.reordered rows)) PrimFloat.zero)
            = false ->
            (let x := nth 1 (float64.along_axis0 f 2 (float64.reordered rows))
                        PrimFloat.zero in PrimFloat.eqb x x = true) ->
            float64.along_axis0 f 2 rows <>
            float64.along_axis0 f 2 (float64.reordered rows)).
  { intros f rows E Er H. cbv zeta in Er. rewrite H in E. congruence. }
  split; [apply Hperm|]. split; [apply Hperm|].
  split; [|split]; apply Hneq; vm_compute; reflexivity.
Qed.

(** ** Examples: the theorems at concrete inputs *)

Lemma valid_script_params : valid_params script_params.
Proof.
  unfold valid_params, script_params, T_YEARS; simpl. repeat split; try lra. lia.
Qed.

Lemma valid_scenario_A : valid_params scenario_A.
Proof.
  unfold valid_params; simpl. repeat split; try lra. lia.
Qed.

Lemma valid_scenario_C : valid_params scenario_C.
Proof.
  unfold valid_params, scenario_C, script_params, T_YEARS; simpl.
  repeat split; try lra. lia.
Qed.

Lemma seed_ok_7 : seed_ok (Some 7%Z).
Proof. simpl. lia. Qed.

Lemma period_5_of_script : (1 <= 5 < T_STEPS script_params)%Z.
Proof. unfold script_params, T_YEARS; simpl. lia. Qed.



Lemma scenario_A_first_period_witness :
  exists tr w',
    simulate_single_run counter_generator scenario_A (Some 7%Z) world0 = (Ok tr, w') /\
    item (supply tr) 1 = 3016 /\ item (rewards tr) 1 = 1 * (2 / 10).
Proof.
  destruct (simulate_single_run_returns counter_generator scenario_A
              (Some 7%Z) world0 valid_scenario_A seed_ok_7) as (tr & w' & E).
  exists tr, w'. split; [exact E|].
  destruct (scenario_A_first_period counter_generator (Some 7%Z) world0 tr w' E)
    as (_ & _ & _ & HS & HR & _).
  split; assumption.
Defined.

Lemma nonpositive_run_count_runs_nothing_witness :
  (N_SIMULATIONS scenario_B <= 0)%Z /\
  snd (run_monte_carlo counter_generator scenario_B world0) = world0.
Proof.
  assert (H : (N_SIMULATIONS scenario_B <= 0)%Z) by (simpl; lia).
  split; [exact H|].
  exact (proj1 (nonpositive_run_count_runs_nothing counter_generator scenario_B world0 H)).
Defined.

Lemma same_seed_same_trajectory_witness :
  exists tr,
    fst (simulate_single_run counter_generator script_params (Some 7%Z) world0) = Ok tr /\
    fst (simulate_single_run counter_generator script_params (Some 7%Z)
           (snd (simulate_single_run counter_generator script_params (Some 7%Z) world0)))
    = Ok tr.
Proof.
  destruct (same_seed_same_trajectory counter_generator script_params 7%Z)
    as (_ & _ & Hret).
  apply (Hret valid_script_params seed_ok_7).
Defined.

Lemma percentile_bands_invariant_under_reordering_witness :
  Permutation three_runs three_runs_reordered /\
  exists st st',
    statistics_phase counter_generator 2 (map supply three_runs)
      (map rewards three_runs) world0 = (Ok st, world0) /\
    statistics_phase counter_generator 2 (map supply three_runs_reordered)
      (map rewards three_runs_reordered) world0 = (Ok st', world0) /\
    percentile_5 st' = percentile_5 st /\
    percentile_95 st' = percentile_95 st.
Proof.
  assert (Hp : Permutation three_runs three_runs_reordered)
    by exact (Permutation_sym
                (Permutation_cons_append
                   [sample_trajectory 1 1; sample_trajectory 2 (1 / 2)]
                   (sample_trajectory 4 (1 / 4)))).
  assert (Hne : three_runs <> []) by discriminate.
  split; [exact Hp|].
  destruct (proj1 (percentile_bands_invariant_under_reordering
                     counter_generator 2 world0) _ _ Hne Hp)
    as (st & st' & E & E' & H5 & H95 & _).
  exists st, st'. auto.
Defined.


Lemma int_half : int (1 / 2) = 0%Z.
Proof. apply int_small. lra. Qed.

Lemma scenario_C_users_5 : int (item (users_series scenario_C) 5) = 0%Z.
Proof.
  rewrite item_users_series
    by (unfold scenario_C, script_params, T_YEARS; simpl; lia).
  apply int_small. simpl.
  pose proof (logistic_growth_pos 5 (1 / 2) (5 / 100) 36 ltac:(lra)) as Hpos.
  split; [lra|].
  unfold logistic_growth in *.
  pose proof (exp_pos (- (5 / 100) * (5 - 36))) as He.
  apply Rmult_lt_reg_r with (1 + exp (- (5 / 100) * (5 - 36))); [lra|].
  unfold Rdiv at 1. rewrite Rmult_assoc, Rinv_l by lra. lra.
Qed.

Lemma zero_population_period_witness :
  (exists p w',
     period_step counter_generator script_params 0 (1 / 2) world0 = (Ok p, w') /\
     M_t p = 0 /\ B_t p = 0 /\ R_t p = 1 /\ rng w' = rng world0) /\
  (exists tr w',
     simulate_single_run counter_generator scenario_C (Some 7%Z) world0 = (Ok tr, w') /\
     item (mint_total tr) 5 = 0 /\ item (burn_total tr) 5 = 0 /\
     item (rewards tr) 5 = 1).
Proof.
  split.
  - destruct (proj1 (zero_population_period counter_generator script_params)
                0 (1 / 2) world0 int_half) as (_ & Hret & Hprop).
    destruct Hret as (p & w' & E); [simpl; lra | simpl; lra |].
    exists p, w'. split; [exact E|].
    destruct (Hprop p w' E) as (_ & _ & HM & HB & HR & Hg & _).
    repeat split; assumption.
  - destruct (simulate_single_run_returns counter_generator scenario_C
                (Some 7%Z) world0 valid_scenario_C seed_ok_7) as (tr & w' & E).
    exists tr, w'. split; [exact E|].
    assert (Hu : users tr = users_series scenario_C).
    { apply simulate_single_run_Ok in E. tauto. }
    apply (proj2 (zero_population_period counter_generator scenario_C)
             (Some 7%Z) world0 tr w' E 5%Z).
    + unfold scenario_C, script_params, T_YEARS; simpl; lia.
    + rewrite Hu. exact scenario_C_users_5.
Defined.

Lemma users_series_ignores_random_source_witness :
  exists tr1 tr2 w1' w2',
    simulate_single_run counter_generator script_params (Some 7%Z) world0 = (Ok tr1, w1') /\
    simulate_single_run counter_generator script_params None world0 = (Ok tr2, w2') /\
    users tr1 = users tr2.
Proof.
  destruct (simulate_single_run_returns counter_generator script_params
              (Some 7%Z) world0 valid_script_params seed_ok_7) as (tr1 & w1' & E1).
  destruct (simulate_single_run_returns counter_generator script_params
              None world0 valid_script_params I) as (tr2 & w2' & E2).
  exists tr1, tr2, w1', w2'. split; [exact E1|]. split; [exact E2|].
  exact (proj1 (users_series_ignores_random_source _ _ _ _ _ _ _ _ _ _ _ E1 E2)).
Defined.

Lemma sample_counts_truncated_burn_mean_not_witness :
  exists tr w',
    simulate_single_run counter_generator script_params (Some 7%Z) world0 = (Ok tr, w') /\
    exists p, period_at counter_generator script_params (users tr) (arrays_of tr) 5 p /\
      length (mint_per_user p) = Z.to_nat (int (item (users tr) 5)) /\
      length (burn_per_user p) = length (mint_per_user p).
Proof.
  destruct (simulate_single_run_returns counter_generator script_params
              (Some 7%Z) world0 valid_script_params seed_ok_7) as (tr & w' & E).
  exists tr, w'. split; [exact E|].
  pose proof period_5_of_script as Ht.
  destruct (sample_counts_truncated_burn_mean_not counter_generator script_params
              (Some 7%Z) world0 tr w' E 5%Z Ht) as (_ & _ & _ & p & Hp & Lm & Lb & _).
  exists p. split; [exact Hp|]. split; [exact Lm | now rewrite Lm, Lb].
Defined.

(** * Further properties of the two scripts *)

(** ** The stability analysis *)

Lemma sybil_threshold_price_Ok (reward cost : R) :
  reward <> 0 -> sybil_threshold_price reward cost = Ok (cost / reward).
Proof.
  intros H. unfold sybil_threshold_price.
  destruct (Req_dec_T reward 0); [contradiction | reflexivity].
Qed.

Lemma sybil_threshold_price_zero (cost : R) :
  sybil_threshold_price 0 cost = Raise ZeroDivisionError.
Proof.
  unfold sybil_threshold_price.
  destruct (Req_dec_T 0 0) as [_|H]; [reflexivity | contradiction H; reflexivity].
Qed.

Lemma profit_sign_by_threshold (reward cost P : R) :
  0 < reward ->
  (P < cost / reward -> reward * P - cost <= 0) /\
  (cost / reward < P -> 0 <= reward * P - cost).
Proof.
  intros Hr.
  assert (E : reward * (cost / reward) = cost) by (field; lra).
  split; intros H; apply (Rmult_lt_compat_l reward) in H; try exact Hr; lra.
Qed.

Lemma compute_profitability_monotone (reward cost P P' : R) :
  0 <= reward -> P <= P' ->
  fst (compute_profitability P reward cost)
    <= fst (compute_profitability P' reward cost) /\
  snd (compute_profitability P reward cost)
    <= snd (compute_profitability P' reward cost).
Proof.
  intros Hr HP. unfold compute_profitability; simpl.
  assert (reward * P <= reward * P') by now apply Rmult_le_compat_l.
  lra.
Qed.

(** X1: the threshold price separates loss from profit.  A zero reward
    has no threshold: the division raises ZeroDivisionError.  For a
    positive reward the threshold is cost / reward; at a price below it
    the profit is not positive and at a price above it the profit is not
    negative.  For a non-negative reward neither the profit nor the
    revenue falls when the price rises. *)
Theorem threshold_price_separates_loss_from_profit (reward cost : R) :
  (reward = 0 -> sybil_threshold_price reward cost = Raise ZeroDivisionError) /\
  (0 < reward ->
   exists P0,
     sybil_threshold_price reward cost = Ok P0 /\
     forall P,
       (P < P0 -> fst (compute_profitability P reward cost) <= 0) /\
       (P0 < P -> 0 <= fst (compute_profitability P reward cost))) /\
  (0 <= reward ->
   forall P P', P <= P' ->
     fst (compute_profitability P reward cost)
       <= fst (compute_profitability P' reward cost) /\
     snd (compute_profitability P reward cost)
       <= snd (compute_profitability P' reward cost)).
Proof.
  split; [intros ->; apply sybil_threshold_price_zero|].
  split.
  - intros Hr. exists (cost / reward).
    split; [apply sybil_threshold_price_Ok; lra|].
    intros P. apply profit_sign_by_threshold. exact Hr.
  - intros Hr P P' HP. now apply compute_profitability_monotone.
Qed.

Lemma price_sweep_from (prices : list R) (reward cost : R) (a b : list R) :
  fold_left
    (fun acc P =>
       let '(profits, revenues) := acc in
       let '(profit, revenue) := compute_profitability P reward cost in
       (profits ++ [profit], revenues ++ [revenue]))
    prices (a, b)
  = (a ++ map (fun P => reward * P - cost) prices,
     b ++ map (fun P => reward * P) prices).
Proof.
  revert a b. induction prices as [|P prices IH]; intros a b; simpl.
  - now rewrite !app_nil_r.
  - rewrite IH, <- !app_assoc. reflexivity.
Qed.

Lemma price_sweep_maps (prices : list R) (reward cost : R) :
  price_sweep prices reward cost
  = (map (fun P => reward * P - cost) prices, map (fun P => reward * P) prices).
Proof.
  unfold price_sweep. now rewrite price_sweep_from.
Qed.

Lemma dict_get_set_same {V : Type} (d : dict V) (k : R) (v : V) :
  dict_get (dict_set d k v) k = Some v.
Proof.
  induction d as [|[k' v'] d IH]; simpl.
  - destruct (Req_dec_T k k); [reflexivity | contradiction].
  - destruct (Req_dec_T k k') as [E|E]; simpl.
    + destruct (Req_dec_T k k); [reflexivity | contradiction].
    + destruct (Req_dec_T k k'); [contradiction | exact IH].
Qed.

Lemma dict_get_set_other {V : Type} (d : dict V) (k k0 : R) (v : V) :
  k0 <> k -> dict_get (dict_set d k v) k0 = dict_get d k0.
Proof.
  intros Hne. induction d as [|[k' v'] d IH]; simpl.
  - destruct (Req_dec_T k0 k); [contradiction | reflexivity].
  - destruct (Req_dec_T k k') as [E|E]; simpl.
    + subst k'. destruct (Req_dec_T k0 k); [contradiction | reflexivity].
    + destruct (Req_dec_T k0 k'); [reflexivity | exact IH].
Qed.

Lemma dict_fold_keeps {V : Type} (f : R -> V) (keys : list R) :
  forall (d : dict V) (k : R),
    dict_get d k = Some (f k) ->
    dict_get (fold_left (fun d r => dict_set d r (f r)) keys d) k = Some (f k).
Proof.
  induction keys as [|x keys IH]; intros d k H; simpl; [exact H|].
  apply IH. destruct (Req_dec_T k x) as [->|Hne].
  - apply dict_get_set_same.
  - now rewrite dict_get_set_other.
Qed.

Lemma dict_fold_get {V : Type} (f : R -> V) (keys : list R) :
  forall (d : dict V) (k : R),
    In k keys ->
    dict_get (fold_left (fun d r => dict_set d r (f r)) keys d) k = Some (f k).
Proof.
  induction keys as [|x keys IH]; intros d k Hin; simpl; [contradiction|].
  destruct (Req_dec_T k x) as [->|Hne].
  - apply dict_fold_keeps, dict_get_set_same.
  - apply IH. destruct Hin as [E|Hin]; [congruence | exact Hin].
Qed.

Lemma np_linspace_nth (start stop : R) (num : Z) (prices : list R) :
  np_linspace start stop num = Ok prices ->
  (0 <= num)%Z /\
  length prices = Z.to_nat num /\
  forall i : nat, (i < Z.to_nat num)%nat ->
    nth i prices 0 = start + INR i * ((stop - start) / (IZR num - 1)).
Proof.
  unfold np_linspace.
  destruct (Z.ltb_spec num 0); [discriminate|].
  destruct (Z.eqb_spec num 1) as [->|Hne]; intros E; inversion E; subst; clear E.
  - split; [lia|]. split; [reflexivity|].
    intros i Hi. assert (i = O) by lia. subst i. simpl. lra.
  - split; [lia|]. split; [now rewrite length_map, length_range, Z.sub_0_r|].
    intros i Hi.
    set (f := fun j => start + IZR j * ((stop - start) / IZR (num - 1))).
    rewrite (nth_indep _ 0 (f 0%Z)) by (rewrite length_map, length_range; lia).
    rewrite map_nth, nth_range by lia. unfold f.
    rewrite Z.add_0_l, <- INR_IZR_INZ, minus_IZR. reflexivity.
Qed.

Lemma for_each_thresholds (rewards : list R) (cost : R) :
  (Forall (fun Rw => Rw <> 0) rewards ->
   for_each rewards (fun Rw => sybil_threshold_price Rw cost) = Ok tt) /\
  (Exists (fun Rw => Rw = 0) rewards ->
   for_each rewards (fun Rw => sybil_threshold_price Rw cost) = Raise ZeroDivisionError).
Proof.
  induction rewards as [|x rewards [IHok IHraise]]; simpl.
  - split; [reflexivity | intros H; inversion H].
  - split.
    + intros H. inversion H as [|? ? Hx Hrest]; subst.
      rewrite sybil_threshold_price_Ok by exact Hx. simpl. now apply IHok.
    + intros H. destruct (Req_dec_T x 0) as [->|Hx].
      * now rewrite sybil_threshold_price_zero.
      * rewrite sybil_threshold_price_Ok by exact Hx. simpl.
        apply IHraise. inversion H; [contradiction | assumption].
Qed.

Lemma sensitivity_analysis_Ok (Q : StabilityParams) prices results rewards :
  sensitivity_analysis Q = Ok (prices, results, rewards) ->
  R_MIN Q <> 0 /\ R_BASE Q <> 0 /\ R_MAX Q <> 0 /\
  np_linspace (PRICE_MIN Q) (PRICE_MAX Q) (PRICE_STEPS Q) = Ok prices /\
  rewards = [R_MIN Q; R_BASE Q; R_MAX Q] /\
  results =
    fold_left (fun d Rw => dict_set d Rw (price_sweep prices Rw (C_ACTION Q)))
      rewards [].
Proof.
  unfold sensitivity_analysis. cbn [for_each].
  unfold sybil_threshold_price.
  destruct (Req_dec_T (R_MIN Q) 0); [discriminate|].
  destruct (Req_dec_T (R_BASE Q) 0); [discriminate|].
  destruct (Req_dec_T (R_MAX Q) 0); [discriminate|].
  cbn [and_then].
  destruct (np_linspace (PRICE_MIN Q) (PRICE_MAX Q) (PRICE_STEPS Q)) as [ps|cls];
    cbn [and_then]; [|discriminate].
  intros E. inversion E; subst. auto 10.
Qed.

Lemma sensitivity_analysis_returns (Q : StabilityParams) :
  R_MIN Q <> 0 -> R_BASE Q <> 0 -> R_MAX Q <> 0 -> (0 <= PRICE_STEPS Q)%Z ->
  exists prices results,
    sensitivity_analysis Q = Ok (prices, results, [R_MIN Q; R_BASE Q; R_MAX Q]).
Proof.
  intros H1 H2 H3 Hn. unfold sensitivity_analysis. cbn [for_each].
  rewrite !sybil_threshold_price_Ok by assumption. cbn [and_then].
  unfold np_linspace. destruct (Z.ltb_spec (PRICE_STEPS Q) 0); [lia|].
  destruct (PRICE_STEPS Q =? 1)%Z; cbn [and_then]; eauto.
Qed.

Lemma script_stability_rewards :
  R_MIN script_stability_params <> 0 /\ R_BASE script_stability_params <> 0 /\
  R_MAX script_stability_params <> 0 /\ (0 <= PRICE_STEPS script_stability_params)%Z.
Proof.
  simpl. repeat split; try lra. lia.
Qed.

(** X2: the outcome of the sensitivity analysis: a reward level of 0
    ends it with a ZeroDivisionError, raised by the threshold report before
    any price is swept; otherwise a negative number of price steps ends it
    with the ValueError of the price grid; otherwise it returns its three
    results, the reward levels being R_MIN, R_BASE, R_MAX in that order. *)
Theorem sensitivity_analysis_outcome (Q : StabilityParams) :
  (R_MIN Q = 0 \/ R_BASE Q = 0 \/ R_MAX Q = 0 ->
   sensitivity_analysis Q = Raise ZeroDivisionError) /\
  (R_MIN Q <> 0 -> R_BASE Q <> 0 -> R_MAX Q <> 0 ->
   ((PRICE_STEPS Q < 0)%Z -> sensitivity_analysis Q = Raise ValueError) /\
   ((0 <= PRICE_STEPS Q)%Z ->
    exists prices results,
      sensitivity_analysis Q = Ok (prices, results, [R_MIN Q; R_BASE Q; R_MAX Q]))).
Proof.
  split.
  - intros H. unfold sensitivity_analysis.
    rewrite (proj2 (for_each_thresholds _ _)); [reflexivity|].
    destruct H as [H|[H|H]].
    + apply Exists_cons_hd. exact H.
    + apply Exists_cons_tl, Exists_cons_hd. exact H.
    + apply Exists_cons_tl, Exists_cons_tl, Exists_cons_hd. exact H.
  - intros H1 H2 H3. split.
    + intros Hn. unfold sensitivity_analysis.
      rewrite (proj1 (for_each_thresholds _ _)) by (repeat constructor; assumption).
      cbn [and_then]. unfold np_linspace.
      destruct (Z.ltb_spec (PRICE_STEPS Q) 0); [reflexivity | lia].
    + now apply sensitivity_analysis_returns.
Qed.

Lemma sensitivity_analysis_outcome_witness :
  exists prices results,
    sensitivity_analysis script_stability_params
    = Ok (prices, results, [1; 10; 20]).
Proof.
  destruct script_stability_rewards as (H1 & H2 & H3 & Hn).
  exact (proj2 (proj2 (sensitivity_analysis_outcome script_stability_params) H1 H2 H3) Hn).
Defined.

(** The grid of [np.linspace] for start <= stop: it does not fall, and it
    stays between its two end points. *)
Lemma np_linspace_monotone (start stop : R) (num : Z) (prices : list R) :
  np_linspace start stop num = Ok prices -> start <= stop ->
  (forall i, (i < length prices)%nat -> start <= nth i prices 0 <= stop) /\
  (forall i j, (i <= j < length prices)%nat -> nth i prices 0 <= nth j prices 0).
Proof.
  intros Hl Hle.
  apply np_linspace_nth in Hl as (Hn & Hlen & Hnth).
  rewrite Hlen.
  destruct (Z.eq_dec num 1) as [->|N1].
  { split.
    - intros i Hi. rewrite Hnth by exact Hi.
      assert (i = O) by lia. subst i. simpl. lra.
    - intros i j Hij. assert (i = O) by lia. assert (j = O) by lia. subst. lra. }
  assert (Hd : forall i, (i < Z.to_nat num)%nat -> 0 < IZR num - 1).
  { intros i Hi. assert (IZR 2 <= IZR num) by (apply IZR_le; lia). lra. }
  split.
  - intros i Hi. rewrite Hnth by exact Hi.
    pose proof (Hd i Hi) as Hpos.
    assert (Hi0 : 0 <= INR i) by apply pos_INR.
    assert (Hi1 : INR i <= IZR num - 1).
    { assert (H : INR i <= INR (Z.to_nat num - 1)) by (apply le_INR; lia).
      rewrite minus_INR in H by lia.
      rewrite (INR_IZR_INZ (Z.to_nat num)), Z2Nat.id in H by lia.
      simpl in H. exact H. }
    assert (Hs : 0 <= (stop - start) / (IZR num - 1))
      by (apply Rmult_le_pos; [lra | left; now apply Rinv_0_lt_compat]).
    assert (Et : (IZR num - 1) * ((stop - start) / (IZR num - 1)) = stop - start)
      by (field; lra).
    split; [nra|].
    assert (INR i * ((stop - start) / (IZR num - 1))
            <= (IZR num - 1) * ((stop - start) / (IZR num - 1)))
      by now apply Rmult_le_compat_r.
    lra.
  - intros i j Hij. rewrite !Hnth by lia.
    assert (Hpos : 0 < IZR num - 1) by (apply (Hd j); lia).
    assert (Hs : 0 <= (stop - start) / (IZR num - 1))
      by (apply Rmult_le_pos; [lra | left; now apply Rinv_0_lt_compat]).
    assert (Hi : INR i <= INR j) by (apply le_INR; lia).
    assert (INR i * ((stop - start) / (IZR num - 1))
            <= INR j * ((stop - start) / (IZR num - 1)))
      by now apply Rmult_le_compat_r.
    lra.
Qed.

(** X3: the price grid the sensitivity analysis returns has PRICE_STEPS
    entries.  A grid of one step is PRICE_MIN alone; with at least two
    steps it starts at PRICE_MIN and ends at PRICE_MAX.  When
    PRICE_MIN <= PRICE_MAX every price of the grid lies between the two
    and the grid does not fall from one entry to the next. *)
Theorem sensitivity_analysis_price_grid (Q : StabilityParams) prices results rewards :
  sensitivity_analysis Q = Ok (prices, results, rewards) ->
  let n := Z.to_nat (PRICE_STEPS Q) in
  length prices = n /\
  (PRICE_STEPS Q = 1%Z -> prices = [PRICE_MIN Q]) /\
  ((2 <= PRICE_STEPS Q)%Z ->
   nth 0 prices 0 = PRICE_MIN Q /\ nth (n - 1) prices 0 = PRICE_MAX Q) /\
  (PRICE_MIN Q <= PRICE_MAX Q ->
   (forall i, (i < n)%nat -> PRICE_MIN Q <= nth i prices 0 <= PRICE_MAX Q) /\
   (forall i j, (i <= j < n)%nat -> nth i prices 0 <= nth j prices 0)).
Proof.
  intros H n.
  apply sensitivity_analysis_Ok in H as (_ & _ & _ & Hl & _ & _).
  pose proof (np_linspace_nth _ _ _ _ Hl) as (Hn & Hlen & Hnth).
  split; [exact Hlen|]. split.
  { intros E1. unfold np_linspace in Hl. rewrite E1 in Hl. simpl in Hl.
    now inversion Hl. }
  split.
  - intros H2.
    assert (Hd : 0 < IZR (PRICE_STEPS Q) - 1).
    { assert (IZR 2 <= IZR (PRICE_STEPS Q)) by (apply IZR_le; exact H2). lra. }
    split; [rewrite Hnth by (unfold n; lia); simpl; lra|].
    rewrite Hnth by (unfold n; lia).
    rewrite minus_INR by (unfold n; lia). unfold n.
    rewrite INR_IZR_INZ, Z2Nat.id by lia. simpl. field. lra.
  - intros Hle.
    pose proof (np_linspace_monotone _ _ _ _ Hl Hle) as Hm.
    rewrite Hlen in Hm. exact Hm.
Qed.

Lemma sensitivity_analysis_price_grid_witness :
  exists prices results rewards,
    sensitivity_analysis script_stability_params = Ok (prices, results, rewards) /\
    length prices = 100%nat /\
    nth 0 prices 0 = 1 / 1000 /\ nth 99 prices 0 = 100 / 1000 /\
    nth 0 prices 0 <= nth 50 prices 0.
Proof.
  destruct script_stability_rewards as (H1 & H2 & H3 & Hn).
  destruct (sensitivity_analysis_returns script_stability_params H1 H2 H3 Hn)
    as (prices & results & E).
  exists prices, results, [R_MIN script_stability_params; R_BASE script_stability_params;
                         R_MAX script_stability_params].
  split; [exact E|].
  destruct (sensitivity_analysis_price_grid _ _ _ _ E) as (Hlen & _ & Hends & Hord).
  split; [exact Hlen|].
  destruct Hends as (Hfirst & Hlast); [simpl; lia|].
  split; [exact Hfirst|]. split; [exact Hlast|].
  destruct Hord as (_ & Hmono); [simpl; lra|].
  apply Hmono. simpl. lia.
Defined.

(** X4: for every reward level the results dict of the sensitivity
    analysis holds, under that reward, one revenue and one profit per
    price of the grid, in grid order: the revenue is reward * price and the
    profit is the revenue minus the total action cost. *)
Theorem sensitivity_analysis_results (Q : StabilityParams) prices results rewards :
  sensitivity_analysis Q = Ok (prices, results, rewards) ->
  forall Rw, In Rw rewards ->
    exists profits revenues,
      dict_get results Rw = Some (profits, revenues) /\
      length profits = length prices /\
      length revenues = length prices /\
      forall i, (i < length prices)%nat ->
        nth i revenues 0 = Rw * nth i prices 0 /\
        nth i profits 0 = nth i revenues 0 - C_ACTION Q.
Proof.
  intros H Rw Hin.
  apply sensitivity_analysis_Ok in H as (_ & _ & _ & _ & -> & ->).
  exists (map (fun P => Rw * P - C_ACTION Q) prices), (map (fun P => Rw * P) prices).
  split.
  - rewrite (dict_fold_get (fun r => price_sweep prices r (C_ACTION Q)) _ _ _ Hin).
    now rewrite price_sweep_maps.
  - rewrite !length_map. split; [reflexivity|]. split; [reflexivity|].
    intros i Hi.
    set (f := fun P => Rw * P). set (g := fun P => Rw * P - C_ACTION Q).
    rewrite (nth_indep (map f prices) 0 (f 0)) by now rewrite length_map.
    rewrite (nth_indep (map g prices) 0 (g 0)) by now rewrite length_map.
    rewrite !map_nth. unfold f, g. split; reflexivity.
Qed.

Lemma sensitivity_analysis_results_witness :
  exists prices results rewards profits revenues,
    sensitivity_analysis script_stability_params = Ok (prices, results, rewards) /\
    dict_get results 10 = Some (profits, revenues) /\
    length profits = length prices.
Proof.
  destruct script_stability_rewards as (H1 & H2 & H3 & Hn).
  destruct (sensitivity_analysis_returns script_stability_params H1 H2 H3 Hn)
    as (prices & results & E).
  destruct (sensitivity_analysis_results _ _ _ _ E 10)
    as (profits & revenues & Hget & Hlen & _).
  { simpl. auto. }
  exists prices, results, [R_MIN script_stability_params; R_BASE script_stability_params;
                         R_MAX script_stability_params], profits, revenues.
  auto.
Defined.

Lemma nth_map_R (f : R -> R) (l : list R) (i : nat) :
  (i < length l)%nat -> nth i (map f l) 0 = f (nth i l 0).
Proof.
  intros Hi. rewrite (nth_indep (map f l) 0 (f 0)) by now rewrite length_map.
  apply map_nth.
Qed.

(** X5: on the profit curve the sensitivity analysis stores for a positive
    reward level, the profit at a grid price below the threshold
    C_ACTION / reward is not positive and the profit at a grid price above
    it is not negative; and with PRICE_MIN <= PRICE_MAX neither the profit
    nor the revenue falls along the grid. *)
Theorem sensitivity_analysis_profit_curve (Q : StabilityParams) prices results rewards :
  sensitivity_analysis Q = Ok (prices, results, rewards) ->
  forall Rw profits revenues,
    In Rw rewards -> 0 < Rw ->
    dict_get results Rw = Some (profits, revenues) ->
    sybil_threshold_price Rw (C_ACTION Q) = Ok (C_ACTION Q / Rw) /\
    (forall i, (i < length prices)%nat ->
       (nth i prices 0 < C_ACTION Q / Rw -> nth i profits 0 <= 0) /\
       (C_ACTION Q / Rw < nth i prices 0 -> 0 <= nth i profits 0)) /\
    (PRICE_MIN Q <= PRICE_MAX Q ->
     forall i j, (i <= j < length prices)%nat ->
       nth i profits 0 <= nth j profits 0 /\
       nth i revenues 0 <= nth j revenues 0).
Proof.
  intros H Rw profits revenues Hin Hpos Hget.
  apply sensitivity_analysis_Ok in H as (_ & _ & _ & Hl & -> & ->).
  rewrite (dict_fold_get (fun r => price_sweep prices r (C_ACTION Q)) _ _ _ Hin)
    in Hget.
  rewrite price_sweep_maps in Hget. inversion Hget; subst; clear Hget.
  split; [apply sybil_threshold_price_Ok; lra|].
  split.
  - intros i Hi. rewrite nth_map_R by exact Hi.
    now apply profit_sign_by_threshold.
  - intros Hle i j Hij. rewrite !nth_map_R by lia.
    pose proof (proj2 (np_linspace_monotone _ _ _ _ Hl Hle) i j Hij) as Hinc.
    assert (Rw * nth i prices 0 <= Rw * nth j prices 0)
      by (apply Rmult_le_compat_l; lra).
    lra.
Qed.

Lemma sensitivity_analysis_profit_curve_witness :
  exists prices results rewards profits revenues,
    sensitivity_analysis script_stability_params = Ok (prices, results, rewards) /\
    dict_get results 10 = Some (profits, revenues) /\
    nth 0 profits 0 <= nth 99 profits 0.
Proof.
  destruct script_stability_rewards as (H1 & H2 & H3 & Hn).
  destruct (sensitivity_analysis_returns script_stability_params H1 H2 H3 Hn)
    as (prices & results & E).
  assert (Hget : dict_get results 10
                 = Some (price_sweep prices 10 (C_ACTION script_stability_params))).
  { apply sensitivity_analysis_Ok in E as (_ & _ & _ & _ & _ & ->).
    apply (dict_fold_get (fun r => price_sweep prices r (C_ACTION script_stability_params))).
    simpl. auto. }
  assert (Hlen : length prices = 100%nat).
  { apply sensitivity_analysis_Ok in E as (_ & _ & _ & Hl & _).
    apply np_linspace_nth in Hl as (_ & Hlen & _). exact Hlen. }
  destruct (price_sweep prices 10 (C_ACTION script_stability_params))
    as [profits revenues] eqn:Es.
  exists prices, results, [R_MIN script_stability_params; R_BASE script_stability_params;
                           R_MAX script_stability_params], profits, revenues.
  split; [exact E|]. split; [exact Hget|].
  assert (Hin : In 10 [R_MIN script_stability_params; R_BASE script_stability_params;
                       R_MAX script_stability_params]) by (simpl; auto).
  assert (Hpos : 0 < 10) by lra.
  destruct (sensitivity_analysis_profit_curve _ _ _ _ E 10 profits revenues Hin Hpos Hget)
    as (_ & _ & Hinc).
  apply Hinc; [simpl; lra | rewrite Hlen; lia].
Defined.

Lemma threshold_price_separates_loss_from_profit_witness :
  exists P0,
    sybil_threshold_price 10 (13 / 100) = Ok P0 /\
    fst (compute_profitability (1 / 100) 10 (13 / 100)) <= 0 /\
    0 <= fst (compute_profitability (2 / 100) 10 (13 / 100)).
Proof.
  assert (Hpos : 0 < 10) by lra.
  destruct (proj1 (proj2 (threshold_price_separates_loss_from_profit 10 (13 / 100)))
              Hpos) as (P0 & E & Hsign).
  exists P0. split; [exact E|].
  assert (E0 : P0 = 13 / 100 / 10).
  { rewrite sybil_threshold_price_Ok in E by lra. now inversion E. }
  split.
  - apply (proj1 (Hsign (1 / 100))). lra.
  - apply (proj2 (Hsign (2 / 100))). lra.
Defined.

(** X6: one pass of the cost-sensitivity loop.  A zero base reward raises
    ZeroDivisionError.  Otherwise the pass gives the threshold of the
    scaled cost and one profit per price, and the inline profit formula
    agrees with compute_profitability at the scaled cost.  For a positive
    base reward the curve is not positive below its threshold and not
    negative above it; and with a non-negative baseline cost a larger
    multiplier gives a threshold that is not lower and a curve that is
    nowhere higher. *)
Theorem cost_sensitivity_curve_spec (Q : StabilityParams) (prices : list R) (mult : R) :
  (R_BASE Q = 0 ->
   cost_sensitivity_curve Q prices mult = Raise ZeroDivisionError) /\
  (R_BASE Q <> 0 ->
   exists thr profits,
     cost_sensitivity_curve Q prices mult = Ok (thr, profits) /\
     sybil_threshold_price (R_BASE Q) (C_ACTION Q * mult) = Ok thr /\
     profits =
       map (fun P => fst (compute_profitability P (R_BASE Q) (C_ACTION Q * mult)))
           prices /\
     (0 < R_BASE Q ->
      forall i, (i < length prices)%nat ->
        (nth i prices 0 < thr -> nth i profits 0 <= 0) /\
        (thr < nth i prices 0 -> 0 <= nth i profits 0)) /\
     forall mult' thr' profits',
       0 <= C_ACTION Q -> mult <= mult' ->
       cost_sensitivity_curve Q prices mult' = Ok (thr', profits') ->
       (0 < R_BASE Q -> thr <= thr') /\
       forall i, (i < length prices)%nat -> nth i profits' 0 <= nth i profits 0).
Proof.
  split.
  - intros H0. unfold cost_sensitivity_curve.
    rewrite H0, sybil_threshold_price_zero. reflexivity.
  - intros Hne.
    assert (Hcurve : forall m,
              cost_sensitivity_curve Q prices m
              = Ok (C_ACTION Q * m / R_BASE Q,
                    map (fun P => R_BASE Q * P - C_ACTION Q * m) prices)).
    { intros m. unfold cost_sensitivity_curve.
      rewrite (sybil_threshold_price_Ok (R_BASE Q) (C_ACTION Q * m) Hne).
      reflexivity. }
    eexists _, _. split; [apply Hcurve|].
    split; [now apply sybil_threshold_price_Ok|].
    split; [reflexivity|].
    split.
    + intros Hpos i Hi. rewrite nth_map_R by exact Hi.
      now apply profit_sign_by_threshold.
    + intros mult' thr' profits' Hc Hm E'.
      rewrite Hcurve in E'. inversion E'; subst; clear E'.
      assert (Hcm : C_ACTION Q * mult <= C_ACTION Q * mult')
        by now apply Rmult_le_compat_l.
      split.
      * intros Hpos. unfold Rdiv.
        apply Rmult_le_compat_r; [left; now apply Rinv_0_lt_compat | exact Hcm].
      * intros i Hi. rewrite !nth_map_R by exact Hi. lra.
Qed.

Lemma cost_sensitivity_curve_spec_witness :
  exists thr profits,
    cost_sensitivity_curve script_stability_params [1 / 100; 2 / 100] 2
    = Ok (thr, profits) /\
    length profits = 2%nat.
Proof.
  assert (Hne : R_BASE script_stability_params <> 0) by (simpl; lra).
  destruct (proj2 (cost_sensitivity_curve_spec script_stability_params
                     [1 / 100; 2 / 100] 2) Hne) as (thr & profits & E & _ & Ep & _).
  exists thr, profits. split; [exact E|]. rewrite Ep. reflexivity.
Defined.

(** ** The single run: shape, recurrence, failures *)

Lemma simulate_single_run_lengths (G : BitGenerator) (P : Params)
    (seed : option Z) (w : world G) tr w' :
  simulate_single_run G P seed w = (Ok tr, w') ->
  length (time tr) = Z.to_nat (T_STEPS P) /\
  length (supply tr) = Z.to_nat (T_STEPS P) /\
  length (users tr) = Z.to_nat (T_STEPS P) /\
  length (mint_total tr) = Z.to_nat (T_STEPS P) /\
  length (burn_total tr) = Z.to_nat (T_STEPS P) /\
  length (rewards tr) = Z.to_nat (T_STEPS P).
Proof.
  intros H.
  apply simulate_single_run_Ok in H
    as (_ & _ & Ht & Hu & (L1 & L2 & L3 & L4) & _).
  simpl in L1, L2, L3, L4. rewrite length_users_series in *.
  rewrite Ht, Hu, length_users_series. unfold np.arange.
  rewrite length_range, Z.sub_0_r. auto 10.
Qed.

(** X7: a run that returns gives six series of length T_STEPS; time[t] is
    t; and period 0 is never written by the loop: supply[0] is the initial
    supply, mint_total[0] and burn_total[0] are 0 and rewards[0] is the base
    reward. *)
Theorem run_shape_and_initial_period
    (G : BitGenerator) (P : Params) (seed : option Z) (w : world G) tr w' :
  simulate_single_run G P seed w = (Ok tr, w') ->
  (length (time tr) = Z.to_nat (T_STEPS P) /\
   length (supply tr) = Z.to_nat (T_STEPS P) /\
   length (users tr) = Z.to_nat (T_STEPS P) /\
   length (mint_total tr) = Z.to_nat (T_STEPS P) /\
   length (burn_total tr) = Z.to_nat (T_STEPS P) /\
   length (rewards tr) = Z.to_nat (T_STEPS P)) /\
  (forall t, (0 <= t < T_STEPS P)%Z -> nth (Z.to_nat t) (time tr) 0%Z = t) /\
  item (supply tr) 0 = S0_INITIAL_SUPPLY P /\
  item (mint_total tr) 0 = 0 /\
  item (burn_total tr) 0 = 0 /\
  item (rewards tr) 0 = R0_INITIAL_REWARD P.
Proof.
  intros H. split; [exact (simulate_single_run_lengths _ _ _ _ _ _ H)|].
  apply simulate_single_run_Ok in H
    as (_ & _ & Ht & _ & _ & HS & HM & HB & HR & _).
  split; [|auto].
  intros t Hrange. rewrite Ht. unfold np.arange.
  rewrite nth_range by lia. lia.
Qed.

Lemma run_shape_and_initial_period_witness :
  exists tr w',
    simulate_single_run counter_generator script_params (Some 7%Z) world0 = (Ok tr, w') /\
    length (supply tr) = 120%nat /\ item (supply tr) 0 = 0 /\ item (rewards tr) 0 = 1.
Proof.
  destruct (simulate_single_run_returns counter_generator script_params
              (Some 7%Z) world0 valid_script_params seed_ok_7) as (tr & w' & E).
  exists tr, w'. split; [exact E|].
  destruct (run_shape_and_initial_period _ _ _ _ _ _ E)
    as ((_ & L & _) & _ & HS & _ & _ & HR).
  split; [exact L|]. split; [exact HS | exact HR].
Defined.


(** The recurrence of one period, read off the arrays of a run. *)
Lemma run_supply_step (G : BitGenerator) (P : Params)
    (seed : option Z) (w : world G) tr w' :
  simulate_single_run G P seed w = (Ok tr, w') ->
  forall t, (1 <= t < T_STEPS P)%Z ->
    item (supply tr) t =
      Rmax 0 (item (supply tr) (t - 1) + item (mint_total tr) t - item (burn_total tr) t) /\
    0 <= item (mint_total tr) t /\ 0 <= item (burn_total tr) t.
Proof.
  intros H t Ht.
  apply simulate_single_run_Ok in H as (_ & _ & _ & _ & _ & _ & _ & _ & _ & Hper).
  destruct (Hper t Ht) as (p & (w1 & w2 & Hp) & ES & EM & EB & _). simpl in *.
  pose proof (period_step_nonneg _ _ _ _ _ _ _ Hp) as (HM & HB & _).
  apply period_step_Ok in Hp. cbv zeta in Hp.
  destruct Hp as (_ & _ & _ & _ & _ & _ & _ & _ & HSt & _).
  rewrite ES, EM, EB. auto.
Qed.

(** X8: the supply recurrence of a run.  In every period t >= 1,
    supply[t] = max(0, supply[t-1] + mint_total[t] - burn_total[t]); a burn
    beyond the available supply is dropped, not carried: supply[t] is never
    below the unclamped balance, and from a non-negative supply[t-1] it
    is never above supply[t-1] + mint_total[t]. *)
Theorem supply_recurrence
    (G : BitGenerator) (P : Params) (seed : option Z) (w : world G) tr w' :
  simulate_single_run G P seed w = (Ok tr, w') ->
  forall t, (1 <= t < T_STEPS P)%Z ->
    let balance :=
      item (supply tr) (t - 1) + item (mint_total tr) t - item (burn_total tr) t in
    item (supply tr) t = Rmax 0 balance /\
    balance <= item (supply tr) t /\
    (0 <= balance -> item (supply tr) t = balance) /\
    (0 <= item (supply tr) (t - 1) ->
     item (supply tr) t <= item (supply tr) (t - 1) + item (mint_total tr) t).
Proof.
  intros H t Ht balance.
  destruct (run_supply_step _ _ _ _ _ _ H t Ht) as (E & HM & HB).
  fold balance in E. rewrite E.
  split; [reflexivity|]. split; [apply Rmax_r|].
  split; [intros Hb; now apply Rmax_right|].
  intros Hprev. apply Rmax_lub; unfold balance; lra.
Qed.

Lemma supply_recurrence_witness :
  exists tr w',
    simulate_single_run counter_generator script_params (Some 7%Z) world0 = (Ok tr, w') /\
    item (supply tr) 5 =
      Rmax 0 (item (supply tr) (5 - 1) + item (mint_total tr) 5 - item (burn_total tr) 5).
Proof.
  destruct (simulate_single_run_returns counter_generator script_params
              (Some 7%Z) world0 valid_script_params seed_ok_7) as (tr & w' & E).
  exists tr, w'. split; [exact E|].
  exact (proj1 (supply_recurrence _ _ _ _ _ _ E 5%Z period_5_of_script)).
Defined.



(** A run with an accepted seed, by the sign of its horizon. *)
Lemma simulate_single_run_cases (G : BitGenerator) (P : Params)
    (seed : option Z) (w : world G) :
  seed_ok seed ->
  ((T_STEPS P < 0)%Z ->
   simulate_single_run G P seed w = (Raise ValueError, seeded_world seed w)) /\
  (T_STEPS P = 0%Z ->
   simulate_single_run G P seed w = (Raise IndexError, seeded_world seed w)) /\
  ((1 <= T_STEPS P)%Z ->
   simulate_single_run G P seed w =
   bind (for_in (range 1 (T_STEPS P)) (loop_body G P (users_series P))
           (initial_arrays P))
        (fun a => ret (trajectory_of P a))
        (seeded_world seed w)).
Proof.
  intros Hseed.
  assert (E : simulate_single_run G P seed w =
              bind (np_zeros G (T_STEPS P)) (fun supply =>
                bind (np_zeros G (T_STEPS P)) (fun mint_total =>
                bind (np_zeros G (T_STEPS P)) (fun burn_total =>
                bind (np_ones G (T_STEPS P)) (fun ones =>
                bind (setitem supply 0 (S0_INITIAL_SUPPLY P)) (fun supply0 =>
                bind (for_in (range 1 (T_STEPS P)) (loop_body G P (users_series P))
                        {| a_supply := supply0; a_mint_total := mint_total;
                           a_burn_total := burn_total;
                           a_rewards := map (fun x => x * R0_INITIAL_REWARD P) ones |})
                  (fun a => ret (trajectory_of P a)))))))
                (seeded_world seed w)).
  { unfold simulate_single_run. unfold trace_run at 1. unfold bind at 1.
    destruct seed as [s|]; simpl in Hseed.
    - unfold np_random_seed at 1. unfold bind at 1.
      destruct (Z.leb_spec 0 s), (Z.ltb_spec s (2 ^ 32)); cbn [andb]; try lia.
      reflexivity.
    - unfold ret at 1. unfold bind at 1. reflexivity. }
  rewrite E. clear E. unfold np_zeros, np_ones.
  split; [|split]; intros HT.
  - destruct (Z.ltb_spec (T_STEPS P) 0); [reflexivity | lia].
  - destruct (Z.ltb_spec (T_STEPS P) 0); [lia|].
    unfold ret at 1. unfold bind at 1. unfold ret at 1. unfold bind at 1.
    unfold ret at 1. unfold bind at 1. unfold ret at 1. unfold bind at 1.
    unfold setitem at 1. rewrite repeat_length.
    destruct (Nat.ltb_spec (Z.to_nat 0) (Z.to_nat (T_STEPS P))); [lia | reflexivity].
  - destruct (Z.ltb_spec (T_STEPS P) 0); [lia|].
    unfold ret at 1. unfold bind at 1. unfold ret at 1. unfold bind at 1.
    unfold ret at 1. unfold bind at 1. unfold ret at 1. unfold bind at 1.
    unfold setitem at 1. rewrite repeat_length.
    destruct (Nat.ltb_spec (Z.to_nat 0) (Z.to_nat (T_STEPS P))); [reflexivity | lia].
Qed.

Lemma length_initial_arrays (P : Params) :
  length (a_supply (initial_arrays P)) = Z.to_nat (T_STEPS P) /\
  length (a_mint_total (initial_arrays P)) = Z.to_nat (T_STEPS P) /\
  length (a_burn_total (initial_arrays P)) = Z.to_nat (T_STEPS P) /\
  length (a_rewards (initial_arrays P)) = Z.to_nat (T_STEPS P).
Proof.
  unfold initial_arrays; simpl.
  now rewrite length_upd, length_map, !repeat_length.
Qed.

Lemma int_nonneg_above_minus_one (x : R) : (0 <= int x)%Z -> -1 < x.
Proof.
  unfold int. destruct (Rle_dec 0 x) as [Hx|Hx]; [lra|].
  intros H. destruct (base_Int_part (- x)) as [_ Hgt].
  assert (Hi : IZR (Int_part (- x)) <= 0) by (apply IZR_le; lia).
  lra.
Qed.

(** X10: what a run that returns has met: its seed was accepted, the
    horizon has at least one period, and, when there is a period to
    simulate, both standard deviations are non-negative and no user count
    of a simulated period truncates to a negative sample size, so every
    such count is above -1. *)
Theorem returning_run_conditions
    (G : BitGenerator) (P : Params) (seed : option Z) (w : world G) tr w' :
  simulate_single_run G P seed w = (Ok tr, w') ->
  seed_ok seed /\ (1 <= T_STEPS P)%Z /\
  ((2 <= T_STEPS P)%Z -> 0 <= sigma_MINT P /\ 0 <= sigma_BURN P) /\
  (forall t, (1 <= t < T_STEPS P)%Z ->
     (0 <= int (item (users tr) t))%Z /\ -1 < item (users tr) t).
Proof.
  intros H.
  apply simulate_single_run_Ok in H
    as (HT & Hseed & _ & Hu & _ & _ & _ & _ & _ & Hper).
  assert (Hp : forall t, (1 <= t < T_STEPS P)%Z ->
            0 <= sigma_MINT P /\ 0 <= sigma_BURN P /\
            (0 <= int (item (users tr) t))%Z).
  { intros t Ht. destruct (Hper t Ht) as (p & (w1 & w2 & Hp) & _).
    rewrite <- Hu in Hp.
    apply period_step_Ok in Hp. cbv zeta in Hp. tauto. }
  split; [exact Hseed|]. split; [exact HT|]. split.
  - intros H2. destruct (Hp 1%Z) as (? & ? & _); [lia | auto].
  - intros t Ht. destruct (Hp t Ht) as (_ & _ & Hi).
    split; [exact Hi | now apply int_nonneg_above_minus_one].
Qed.

Lemma returning_run_conditions_witness :
  exists tr w',
    simulate_single_run counter_generator scenario_A (Some 7%Z) world0 = (Ok tr, w') /\
    (0 <= int (item (users tr) 1))%Z.
Proof.
  destruct (simulate_single_run_returns counter_generator scenario_A
              (Some 7%Z) world0 valid_scenario_A seed_ok_7) as (tr & w' & E).
  exists tr, w'. split; [exact E|].
  destruct (returning_run_conditions _ _ _ _ _ _ E) as (_ & _ & _ & Hu).
  apply Hu. simpl. lia.
Defined.

Lemma period_step_negative_mint_deviation (G : BitGenerator) (P : Params)
    (S_prev n_t : R) (w : world G) :
  sigma_MINT P < 0 -> period_step G P S_prev n_t w = (Raise ValueError, w).
Proof.
  intros Hs. unfold period_step. apply bind_Raise.
  unfold np_random_normal.
  destruct (Rlt_dec (sigma_MINT P) 0); [reflexivity | contradiction].
Qed.

Lemma loop_body_negative_mint_deviation (G : BitGenerator) (P : Params)
    (users : list R) (t : Z) (a : Arrays) (w : world G) :
  sigma_MINT P < 0 -> (1 <= t)%Z ->
  (Z.to_nat t < length users)%nat -> (Z.to_nat t < length (a_supply a))%nat ->
  loop_body G P users t a w = (Raise ValueError, w).
Proof.
  intros Hs Ht Lu La. unfold loop_body.
  rewrite (bind_step _ _ _ _ _ (getitem_in_range users t w Lu)).
  assert (L0 : (Z.to_nat (t - 1) < length (a_supply a))%nat) by lia.
  rewrite (bind_step _ _ _ _ _ (getitem_in_range (a_supply a) (t - 1) w L0)).
  apply bind_Raise. now apply period_step_negative_mint_deviation.
Qed.

(** X11: how a run fails.  A seed outside 0 .. 2^32 - 1 is refused with a
    ValueError and the generator is left as it was.  With an accepted seed,
    a negative horizon gives a ValueError, an empty horizon an IndexError
    (the write of supply[0]), and a negative mint deviation with at least
    two periods a ValueError in the first pass of the loop, before any
    variate is drawn. *)
Theorem run_failures
    (G : BitGenerator) (P : Params) (seed : option Z) (w : world G) :
  (forall s, seed = Some s -> ~ (0 <= s < 2 ^ 32)%Z ->
     fst (simulate_single_run G P seed w) = Raise ValueError /\
     rng (snd (simulate_single_run G P seed w)) = rng w) /\
  (seed_ok seed -> (T_STEPS P < 0)%Z ->
     fst (simulate_single_run G P seed w) = Raise ValueError) /\
  (seed_ok seed -> T_STEPS P = 0%Z ->
     fst (simulate_single_run G P seed w) = Raise IndexError) /\
  (seed_ok seed -> (2 <= T_STEPS P)%Z -> sigma_MINT P < 0 ->
     simulate_single_run G P seed w = (Raise ValueError, seeded_world seed w)).
Proof.
  split.
  { intros s -> Hs.
    assert (E : simulate_single_run G P (Some s) w =
                (Raise ValueError,
                 {| rng := rng w; runs_started := Some s :: runs_started w;
                    divisors := divisors w |})).
    { unfold simulate_single_run.
      unfold trace_run at 1. unfold bind at 1.
      unfold np_random_seed at 1. unfold bind at 1.
      destruct (Z.leb_spec 0 s), (Z.ltb_spec s (2 ^ 32)); cbn [andb]; try lia;
        reflexivity. }
    rewrite E; split; reflexivity. }
  split; [intros Hseed HT;
          now rewrite (proj1 (simulate_single_run_cases G P seed w Hseed) HT)|].
  split; [intros Hseed HT;
          now rewrite (proj1 (proj2 (simulate_single_run_cases G P seed w Hseed)) HT)|].
  intros Hseed HT Hs.
  destruct (simulate_single_run_cases G P seed w Hseed) as (_ & _ & Hpos).
  rewrite Hpos by lia.
  apply bind_Raise.
  rewrite range_cons by lia. cbn [for_in].
  apply bind_Raise.
  pose proof (length_initial_arrays P) as (L1 & _).
  apply loop_body_negative_mint_deviation; try assumption; try lia.
  rewrite length_users_series. lia.
Qed.

Lemma run_failures_witness :
  fst (simulate_single_run counter_generator script_params (Some (-1)%Z) world0)
  = Raise ValueError.
Proof.
  assert (Hs : ~ (0 <= -1 < 2 ^ 32)%Z) by lia.
  exact (proj1 (proj1 (run_failures counter_generator script_params
                         (Some (-1)%Z) world0) (-1)%Z eq_refl Hs)).
Defined.

(** X12: with a horizon of one period a run never enters the period
    loop: for any accepted seed and any standard deviations it returns the
    one-entry series time = [0], supply = [S0], users = [userCount(0)],
    mint = [0], burn = [0], rewards = [R0]; neither division of the loop
    body is evaluated (the trace of the loop's divisors is as it was; the
    one division of the run is that of the growth model at t = 0), no
    variate is drawn, and the generator is left exactly as the seeding
    left it. *)
Theorem single_period_run
    (G : BitGenerator) (P : Params) (seed : option Z) (w : world G) :
  T_STEPS P = 1%Z -> seed_ok seed ->
  exists tr w',
    simulate_single_run G P seed w = (Ok tr, w') /\
    time tr = [0%Z] /\
    supply tr = [S0_INITIAL_SUPPLY P] /\
    users tr = [logistic_growth 0 (K_MAX_USERS P) (r_GROWTH_RATE P) (t0_INFLECTION P)] /\
    mint_total tr = [0] /\ burn_total tr = [0] /\
    rewards tr = [R0_INITIAL_REWARD P] /\
    divisors w' = divisors w /\
    rng w' = match seed with Some s => init_by_seed G s | None => rng w end.
Proof.
  intros HT Hseed.
  destruct (simulate_single_run_cases G P seed w Hseed) as (_ & _ & Hrun).
  rewrite Hrun by lia. rewrite range_nil by lia. cbn [for_in].
  unfold ret, bind.
  exists (trajectory_of P (initial_arrays P)), (seeded_world seed w).
  split; [reflexivity|].
  unfold trajectory_of, initial_arrays, users_series, np.arange, range; simpl.
  rewrite HT. simpl.
  repeat split; try reflexivity. f_equal. ring.
Qed.

Lemma single_period_run_witness :
  exists tr w',
    simulate_single_run counter_generator single_period_params (Some 7%Z) world0
    = (Ok tr, w') /\
    supply tr = [0] /\ rewards tr = [1] /\ rng w' = 7%Z.
Proof.
  destruct (single_period_run counter_generator single_period_params (Some 7%Z)
              world0 eq_refl seed_ok_7)
    as (tr & w' & E & _ & HS & _ & _ & _ & HR & _ & Hg).
  exists tr, w'. split; [exact E|]. split; [exact HS|]. split; [exact HR | exact Hg].
Defined.

(** ** The generator: what a run reads and how far it advances *)

(** X13: a run called without a seed continues the global generator: its
    outcome and the generator state it leaves depend on the world only
    through the generator state it finds, and if that state is the one
    seed s installs, the run is the run seeded with s. *)
Theorem unseeded_run_continues_generator (G : BitGenerator) (P : Params) :
  (forall w1 w2 : world G,
     rng w1 = rng w2 ->
     fst (simulate_single_run G P None w1) = fst (simulate_single_run G P None w2) /\
     rng (snd (simulate_single_run G P None w1)) =
     rng (snd (simulate_single_run G P None w2))) /\
  (forall (s : Z) (w w0 : world G),
     (0 <= s < 2 ^ 32)%Z -> rng w = init_by_seed G s ->
     fst (simulate_single_run G P None w) =
     fst (simulate_single_run G P (Some s) w0) /\
     rng (snd (simulate_single_run G P None w)) =
     rng (snd (simulate_single_run G P (Some s) w0))).
Proof.
  assert (Hgen : forall (seed1 seed2 : option Z) (w1 w2 : world G),
            seed_ok seed1 -> seed_ok seed2 ->
            rng (seeded_world seed1 w1) = rng (seeded_world seed2 w2) ->
            fst (simulate_single_run G P seed1 w1) =
            fst (simulate_single_run G P seed2 w2) /\
            rng (snd (simulate_single_run G P seed1 w1)) =
            rng (snd (simulate_single_run G P seed2 w2))).
  { intros seed1 seed2 w1 w2 H1 H2 Hr.
    destruct (simulate_single_run_cases G P seed1 w1 H1) as (N1 & Z1 & P1).
    destruct (simulate_single_run_cases G P seed2 w2 H2) as (N2 & Z2 & P2).
    destruct (Z.lt_trichotomy (T_STEPS P) 0) as [HT|[HT|HT]].
    - rewrite (N1 HT), (N2 HT). simpl in *. auto.
    - rewrite (Z1 HT), (Z2 HT). simpl in *. auto.
    - rewrite P1, P2 by lia.
      apply rng_only_bind; [|intros a; apply rng_only_ret| exact Hr].
      apply rng_only_for_in. intros i a. apply rng_only_loop_body. }
  split.
  - intros w1 w2 Hr. apply Hgen; simpl; auto.
  - intros s w w0 Hs Hr. apply Hgen; simpl; auto.
Qed.

Lemma unseeded_run_continues_generator_witness :
  fst (simulate_single_run counter_generator script_params None
         (Build_world counter_generator 7%Z [] []))
  = fst (simulate_single_run counter_generator script_params (Some 7%Z) world0).
Proof.
  assert (Hs : (0 <= 7 < 2 ^ 32)%Z) by lia.
  exact (proj1 (proj2 (unseeded_run_continues_generator counter_generator script_params)
                  7%Z (Build_world counter_generator 7%Z [] []) world0 Hs eq_refl)).
Defined.

Lemma gauss_n_add (G : BitGenerator) (a b : nat) (g : rng_state G) :
  gauss_n G (a + b) g =
  (fst (gauss_n G a g) ++ fst (gauss_n G b (snd (gauss_n G a g))),
   snd (gauss_n G b (snd (gauss_n G a g)))).
Proof.
  revert g. induction a as [|a IH]; intros g; simpl.
  - now destruct (gauss_n G b g).
  - destruct (gauss G g) as [z g1]. rewrite IH.
    destruct (gauss_n G a g1) as [zs g2]. simpl. reflexivity.
Qed.

(** X14: one pass of the period loop reads exactly 2 * int(n_t) variates
    from the generator, in order: the first int(n_t) become the mint
    samples, the next int(n_t) the burn samples, each clamped at 0. *)
Theorem period_step_reads_generator
    (G : BitGenerator) (P : Params) (S_prev n_t : R) (w : world G) p w' :
  period_step G P S_prev n_t w = (Ok p, w') ->
  let n := Z.to_nat (int n_t) in
  let zs := fst (gauss_n G (n + n) (rng w)) in
  rng w' = snd (gauss_n G (n + n) (rng w)) /\
  length zs = (n + n)%nat /\
  mint_per_user p =
    map (fun z => Rmax 0 (mu_MINT P + sigma_MINT P * z)) (firstn n zs) /\
  burn_per_user p =
    map (fun z => Rmax 0 (mu_burn_adaptive p + sigma_BURN P * z)) (skipn n zs).
Proof.
  intros H n zs.
  apply period_step_Ok in H. cbv zeta in H. fold n in H.
  destruct H as (_ & _ & _ & Hm & _ & _ & Hb & _ & _ & _ & Hg & _).
  subst zs. rewrite gauss_n_add. cbn [fst snd].
  pose proof (length_gauss_n n (rng w)) as L1.
  split; [exact Hg|].
  split; [rewrite length_app, !length_gauss_n; reflexivity|].
  rewrite firstn_app, skipn_app, L1, Nat.sub_diag.
  rewrite firstn_O, skipn_O, app_nil_r.
  rewrite <- L1 at 1. rewrite firstn_all.
  rewrite <- L1 at 2. rewrite skipn_all. cbn [app].
  rewrite Hm, Hb. unfold np.maximum0. now rewrite !map_map.
Qed.

Lemma period_step_reads_generator_witness :
  exists p w',
    period_step counter_generator script_params 0 (5 / 2) world0 = (Ok p, w') /\
    rng w' = snd (gauss_n counter_generator 4 (rng world0)).
Proof.
  assert (Hi : int (5 / 2) = 2%Z).
  { rewrite int_of_nonneg by lra. symmetry. apply Int_part_spec. simpl. lra. }
  destruct (period_step_returns counter_generator script_params 0 (5 / 2) world0)
    as (p & w' & E); [simpl; lra | simpl; lra | rewrite Hi; lia |].
  exists p, w'. split; [exact E|].
  pose proof (period_step_reads_generator _ _ _ _ _ _ _ E) as H.
  cbv zeta in H. rewrite Hi in H. exact (proj1 H).
Defined.

Lemma for_in_loop_body_rng (G : BitGenerator) (P : Params) (users : list R) (k : nat) :
  forall (lo : Z) (a : Arrays) (w : world G) a' w',
    for_in (range lo (lo + Z.of_nat k)) (loop_body G P users) a w = (Ok a', w') ->
    rng w' =
    snd (gauss_n G
           (list_sum (map (fun t => (2 * Z.to_nat (int (item users t)))%nat)
                          (range lo (lo + Z.of_nat k))))
           (rng w)).
Proof.
  induction k as [|k IH]; intros lo a w a' w' H.
  - rewrite range_nil in * by lia. cbn [for_in] in H.
    apply ret_Ok in H as [_ ->]. reflexivity.
  - rewrite range_cons in * by lia. cbn [for_in] in H.
    apply bind_Ok in H as (a1 & w1 & Hb & H).
    replace (lo + Z.of_nat (S k))%Z with (lo + 1 + Z.of_nat k)%Z in * by lia.
    apply IH in H. rewrite H. rewrite map_cons.
    change (list_sum (?x :: ?l)) with (x + list_sum l)%nat.
    rewrite gauss_n_add. cbn [snd]. f_equal.
    apply loop_body_Ok in Hb as (p & Hp & _).
    apply period_step_Ok in Hp. cbv zeta in Hp.
    destruct Hp as (_ & _ & _ & _ & _ & _ & _ & _ & _ & _ & Hg & _).
    rewrite Hg.
    replace (2 * Z.to_nat (int (item users lo)))%nat
      with (Z.to_nat (int (item users lo)) + Z.to_nat (int (item users lo)))%nat by lia.
    rewrite gauss_n_add. reflexivity.
Qed.

(** X15: how far a run advances the generator depends on the
    configuration only, not on the values drawn: a run that returns has
    read exactly 2 * (int(users[1]) + ... + int(users[T_STEPS - 1]))
    variates after its seeding. *)
Theorem run_advances_generator
    (G : BitGenerator) (P : Params) (seed : option Z) (w : world G) tr w' :
  simulate_single_run G P seed w = (Ok tr, w') ->
  rng w' =
  snd (gauss_n G (variates_of_run P)
         (match seed with Some s => init_by_seed G s | None => rng w end)).
Proof.
  intros H.
  pose proof (simulate_single_run_Ok _ _ _ _ _ _ H) as (HT & Hseed & _).
  destruct (simulate_single_run_cases G P seed w Hseed) as (_ & _ & Hrun).
  rewrite Hrun in H by exact HT.
  apply bind_Ok in H as (a & w1 & Hl & Hr).
  apply ret_Ok in Hr as [_ ->].
  assert (ET : T_STEPS P = (1 + Z.of_nat (Z.to_nat (T_STEPS P - 1)))%Z) by lia.
  unfold variates_of_run, variates_of_period.
  rewrite ET in Hl at 1. rewrite ET at 1.
  apply for_in_loop_body_rng in Hl. exact Hl.
Qed.

Lemma run_advances_generator_witness :
  exists tr w',
    simulate_single_run counter_generator script_params (Some 7%Z) world0 = (Ok tr, w') /\
    rng w' = snd (gauss_n counter_generator (variates_of_run script_params) 7%Z).
Proof.
  destruct (simulate_single_run_returns counter_generator script_params
              (Some 7%Z) world0 valid_script_params seed_ok_7) as (tr & w' & E).
  exists tr, w'. split; [exact E|].
  exact (run_advances_generator _ _ _ _ _ _ E).
Defined.

(** ** The batch of runs *)

Section Batch.

Variable G : BitGenerator.
Variable P : Params.

Lemma rng_only_simulate_single_run (seed : option Z) :
  rng_only (simulate_single_run G P seed).
Proof.
  unfold simulate_single_run.
  apply rng_only_bind; [intros w1 w2 H; simpl; auto|]. intros u.
  apply rng_only_bind.
  { destruct seed as [s|]; [|apply rng_only_ret].
    intros w1 w2 H. unfold np_random_seed.
    destruct ((0 <=? s) && (s <? 2 ^ 32))%Z; simpl; auto. }
  intros u'.
  apply rng_only_bind; [apply rng_only_np_zeros|]. intros s0.
  apply rng_only_bind; [apply rng_only_np_zeros|]. intros m0.
  apply rng_only_bind; [apply rng_only_np_zeros|]. intros b0.
  apply rng_only_bind; [apply rng_only_np_ones|]. intros o0.
  apply rng_only_bind; [apply rng_only_setitem|]. intros s1.
  apply rng_only_bind; [|intros a; apply rng_only_ret].
  apply rng_only_for_in. intros i a. apply rng_only_loop_body.
Qed.

Lemma reseeding_simulate_single_run (s : Z) :
  reseeding (simulate_single_run G P (Some s)).
Proof.
  intros w1 w2.
  destruct (simulate_single_run_seeded P s w1 w2) as [[E1 E2]|[E1 E2]].
  - split; [exact E1 | intros; exact E2].
  - split; [congruence | intros a Ha; congruence].
Qed.

Lemma reseeding_bind {A B : Type} (c : M G A) (k : A -> M G B) :
  reseeding c -> (forall a, rng_only (k a)) -> reseeding (bind c k).
Proof.
  intros Hc Hk w1 w2. unfold bind.
  destruct (Hc w1 w2) as [E1 E2].
  destruct (c w1) as [[a1|e1] w1'], (c w2) as [[a2|e2] w2'];
    simpl in E1, E2; inversion E1; subst; simpl.
  - specialize (E2 a2 eq_refl).
    destruct (Hk a2 w1' w2' E2) as [F1 F2]. split; [exact F1 | intros; exact F2].
  - split; [reflexivity | intros a Ha; discriminate].
Qed.

Lemma outcome_free_bind {A B : Type} (c : M G A) (k : A -> M G B) :
  outcome_free c -> (forall a, outcome_free (k a)) -> outcome_free (bind c k).
Proof.
  intros Hc Hk w1 w2. unfold bind. specialize (Hc w1 w2).
  destruct (c w1) as [[a1|e1] w1'], (c w2) as [[a2|e2] w2'];
    simpl in Hc; inversion Hc; subst; simpl; [apply Hk | reflexivity].
Qed.

Lemma rng_only_collect_run (i : Z) (c : Collected) : rng_only (collect_run G P i c).
Proof.
  unfold collect_run.
  apply rng_only_bind; [apply rng_only_simulate_single_run|]. intros tr.
  apply rng_only_bind; [apply rng_only_setitem|]. intros s'.
  apply rng_only_bind; [apply rng_only_setitem|]. intros r'.
  apply rng_only_ret.
Qed.

Lemma reseeding_collect_run (i : Z) (c : Collected) : reseeding (collect_run G P i c).
Proof.
  unfold collect_run.
  apply reseeding_bind; [apply reseeding_simulate_single_run|]. intros tr.
  apply rng_only_bind; [apply rng_only_setitem|]. intros s'.
  apply rng_only_bind; [apply rng_only_setitem|]. intros r'.
  apply rng_only_ret.
Qed.

Lemma outcome_free_for_in_collect_run (l : list Z) (c : Collected) :
  outcome_free (for_in l (collect_run G P) c).
Proof.
  destruct l as [|i l]; cbn [for_in]; [intros w1 w2; reflexivity|].
  intros w1 w2.
  apply (reseeding_bind (collect_run G P i c)
           (fun c' => for_in l (collect_run G P) c')).
  - apply reseeding_collect_run.
  - intros c'. apply rng_only_for_in. intros j c''. apply rng_only_collect_run.
Qed.

Lemma outcome_free_statistics_phase (ncols : Z) (s r : list (list R)) :
  outcome_free (statistics_phase G ncols s r).
Proof.
  intros w1 w2. destruct s; reflexivity.
Qed.

End Batch.

(** X16: the outcome of the whole batch does not depend on the world it is
    called in, in particular not on the state of the global generator:
    every run is reseeded with its own index. *)
Theorem batch_outcome_ignores_generator_state
    (G : BitGenerator) (P : Params) (w1 w2 : world G) :
  fst (run_monte_carlo G P w1) = fst (run_monte_carlo G P w2).
Proof.
  unfold run_monte_carlo.
  apply outcome_free_bind.
  { intros u1 u2. unfold np_zeros2. destruct (_ || _)%bool; reflexivity. }
  intros s0. apply outcome_free_bind.
  { intros u1 u2. unfold np_zeros2. destruct (_ || _)%bool; reflexivity. }
  intros r0. apply outcome_free_bind.
  { apply outcome_free_for_in_collect_run. }
  intros c. apply outcome_free_bind.
  { apply outcome_free_statistics_phase. }
  intros st. apply outcome_free_bind.
  { intros u1 u2. destruct (T_STEPS P =? 0)%Z; reflexivity. }
  intros u u1 u2. destruct (last_time_users c) as [[tm us]|]; reflexivity.
Qed.

Lemma simulate_single_run_seed_free (G : BitGenerator) (P : Params) (s : Z)
    (w1 w2 : world G) :
  fst (simulate_single_run G P (Some s) w1) = fst (simulate_single_run G P (Some s) w2).
Proof.
  apply (reseeding_simulate_single_run G P s w1 w2).
Qed.

Lemma collect_run_Ok (G : BitGenerator) (P : Params) (i : Z) (c : Collected)
    (w : world G) c' w' :
  collect_run G P i c w = (Ok c', w') ->
  exists tr,
    simulate_single_run G P (Some i) w = (Ok tr, w') /\
    c' = {| all_supplies := upd (all_supplies c) (Z.to_nat i) (supply tr);
            all_rewards := upd (all_rewards c) (Z.to_nat i) (rewards tr);
            last_time_users := Some (time tr, users tr) |} /\
    (Z.to_nat i < length (all_supplies c))%nat /\
    (Z.to_nat i < length (all_rewards c))%nat.
Proof.
  unfold collect_run. intros H.
  apply bind_Ok in H as (tr & w1 & Hr & H).
  apply bind_Ok in H as (s' & w2 & H1 & H).
  apply setitem_Ok in H1 as (-> & -> & L1).
  apply bind_Ok in H as (r' & w2 & H1 & H).
  apply setitem_Ok in H1 as (-> & -> & L2).
  apply ret_Ok in H as [-> ->].
  exists tr. auto.
Qed.

(** The loop over the runs from index [lo] on: the matrices keep their
    number of rows, rows below [lo] are left alone, and row [i] holds the
    series of the run seeded with [i]. *)
Lemma for_in_collect_run_Ok (G : BitGenerator) (P : Params) (w0 : world G) (k : nat) :
  forall (lo : Z) (c : Collected) (w : world G) c' w',
    for_in (range lo (lo + Z.of_nat k)) (collect_run G P) c w = (Ok c', w') ->
    (0 <= lo)%Z ->
    length (all_supplies c') = length (all_supplies c) /\
    length (all_rewards c') = length (all_rewards c) /\
    (forall i, (i < Z.to_nat lo)%nat ->
       nth i (all_supplies c') [] = nth i (all_supplies c) [] /\
       nth i (all_rewards c') [] = nth i (all_rewards c) []) /\
    (forall i, (lo <= i < lo + Z.of_nat k)%Z ->
       exists tr,
         fst (simulate_single_run G P (Some i) w0) = Ok tr /\
         nth (Z.to_nat i) (all_supplies c') [] = supply tr /\
         nth (Z.to_nat i) (all_rewards c') [] = rewards tr) /\
    last_time_users c' =
      match k with
      | O => last_time_users c
      | S _ => Some (np.arange (T_STEPS P), users_series P)
      end /\
    runs_started w' = rev (map Some (range lo (lo + Z.of_nat k))) ++ runs_started w.
Proof.
  induction k as [|k IH]; intros lo c w c' w' H Hlo.
  - rewrite range_nil in * by lia. cbn [for_in] in H.
    apply ret_Ok in H as [-> ->].
    repeat split; auto; intros; lia.
  - rewrite range_cons in * by lia. cbn [for_in] in H.
    apply bind_Ok in H as (c1 & w1 & Hb & H).
    replace (lo + Z.of_nat (S k))%Z with (lo + 1 + Z.of_nat k)%Z in * by lia.
    apply IH in H; [|lia].
    destruct H as (E1 & E2 & Hbelow & Hrows & Hlast & Htrace).
    pose proof (collect_run_traced P lo c w) as Ht. rewrite Hb in Ht. simpl in Ht.
    apply collect_run_Ok in Hb as (tr & Hr & -> & L1 & L2).
    simpl in *. rewrite !length_upd in *.
    split; [exact E1|]. split; [exact E2|]. split.
    { intros i Hi. destruct (Hbelow i) as [F1 F2]; [lia|].
      rewrite F1, F2, !nth_upd_other by lia. auto. }
    split.
    { intros i Hi. destruct (Z.eq_dec i lo) as [->|Hne]; [|apply Hrows; lia].
      exists tr. destruct (Hbelow (Z.to_nat lo)) as [F1 F2]; [lia|].
      rewrite F1, F2, !nth_upd_same by assumption.
      split; [|auto].
      rewrite (simulate_single_run_seed_free G P lo w0 w), Hr. reflexivity. }
    split.
    { rewrite Hlast. destruct k as [|k]; [|reflexivity].
      apply simulate_single_run_Ok in Hr as (_ & _ & Et & Eu & _).
      now rewrite Et, Eu. }
    rewrite Htrace, Ht. cbn [map rev]. now rewrite <- app_assoc.
Qed.

Lemma for_in_collect_run_returns (G : BitGenerator) (P : Params) (k : nat) :
  valid_params P ->
  forall (lo : Z) (c : Collected) (w : world G),
    (0 <= lo)%Z -> (lo + Z.of_nat k <= 2 ^ 32)%Z ->
    (Z.to_nat (lo + Z.of_nat k) <= length (all_supplies c))%nat ->
    (Z.to_nat (lo + Z.of_nat k) <= length (all_rewards c))%nat ->
    exists c' w',
      for_in (range lo (lo + Z.of_nat k)) (collect_run G P) c w = (Ok c', w').
Proof.
  intros Hv. induction k as [|k IH]; intros lo c w Hlo Hhi L1 L2.
  - rewrite range_nil by lia. cbn [for_in]. unfold ret. eauto.
  - rewrite range_cons by lia. cbn [for_in].
    assert (Hseed : seed_ok (Some lo)) by (simpl; lia).
    destruct (simulate_single_run_returns G P (Some lo) w Hv Hseed) as (tr & w1 & Hr).
    assert (Hc : collect_run G P lo c w =
                 (Ok {| all_supplies := upd (all_supplies c) (Z.to_nat lo) (supply tr);
                        all_rewards := upd (all_rewards c) (Z.to_nat lo) (rewards tr);
                        last_time_users := Some (time tr, users tr) |}, w1)).
    { unfold collect_run. rewrite (bind_step _ _ _ _ _ Hr).
      rewrite (bind_step _ _ _ _ _
                 (setitem_in_range (all_supplies c) lo (supply tr) w1 ltac:(lia))).
      rewrite (bind_step _ _ _ _ _
                 (setitem_in_range (all_rewards c) lo (rewards tr) w1 ltac:(lia))).
      reflexivity. }
    rewrite (bind_step _ _ _ _ _ Hc).
    replace (lo + Z.of_nat (S k))%Z with (lo + 1 + Z.of_nat k)%Z in * by lia.
    apply IH; simpl; rewrite ?length_upd; lia.
Qed.

Lemma np_zeros2_Ok (G : BitGenerator) (n m : Z) (w : world G) :
  (0 <= n)%Z -> (0 <= m)%Z ->
  np_zeros2 G n m w = (Ok (repeat (repeat 0 (Z.to_nat m)) (Z.to_nat n)), w).
Proof.
  intros Hn Hm. unfold np_zeros2.
  destruct (Z.ltb_spec n 0), (Z.ltb_spec m 0); try lia. reflexivity.
Qed.

(** What a batch that returns has gone through. *)
Lemma run_monte_carlo_Ok (G : BitGenerator) (P : Params) (w : world G) mc w' :
  run_monte_carlo G P w = (Ok mc, w') ->
  (1 <= N_SIMULATIONS P)%Z /\ (1 <= T_STEPS P)%Z /\
  exists c tm us,
    for_in (range 0 (N_SIMULATIONS P)) (collect_run G P)
      {| all_supplies :=
           repeat (repeat 0 (Z.to_nat (T_STEPS P))) (Z.to_nat (N_SIMULATIONS P));
         all_rewards :=
           repeat (repeat 0 (Z.to_nat (T_STEPS P))) (Z.to_nat (N_SIMULATIONS P));
         last_time_users := None |} w = (Ok c, w') /\
    last_time_users c = Some (tm, us) /\
    mc = {| mc_time := tm; mc_all_supplies := all_supplies c;
            mc_statistics :=
              compute_statistics (T_STEPS P) (all_supplies c) (all_rewards c);
            mc_users := us |}.
Proof.
  unfold run_monte_carlo. intros H.
  apply bind_Ok in H as (s0 & w1 & H0 & H).
  assert (HN : (0 <= N_SIMULATIONS P)%Z /\ (0 <= T_STEPS P)%Z).
  { unfold np_zeros2 in H0.
    destruct (Z.ltb_spec (N_SIMULATIONS P) 0), (Z.ltb_spec (T_STEPS P) 0);
      simpl in H0; try discriminate. lia. }
  destruct HN as [HN HT].
  rewrite np_zeros2_Ok in H0 by assumption. inversion H0; subst s0 w1; clear H0.
  apply bind_Ok in H as (r0 & w1 & H0 & H).
  rewrite np_zeros2_Ok in H0 by assumption. inversion H0; subst r0 w1; clear H0.
  apply bind_Ok in H as (c & w1 & Hloop & H).
  apply bind_Ok in H as (st & w2 & Hst & H).
  apply bind_Ok in H as (u & w3 & Hlast & H).
  destruct (Z.eqb_spec (T_STEPS P) 0) as [E0|N0]; [discriminate|].
  apply ret_Ok in Hlast as [_ ->].
  destruct (last_time_users c) as [[tm us]|] eqn:El; [|discriminate].
  apply ret_Ok in H as [-> ->].
  assert (Hne : all_supplies c <> []).
  { intros E. rewrite E in Hst. discriminate. }
  rewrite statistics_phase_nonempty in Hst by exact Hne.
  inversion Hst; subst st w2; clear Hst.
  assert (HN1 : (1 <= N_SIMULATIONS P)%Z).
  { destruct (Z.eq_dec (N_SIMULATIONS P) 0) as [E|E]; [|lia].
    rewrite E in Hloop. rewrite range_nil in Hloop by lia. cbn [for_in] in Hloop.
    apply ret_Ok in Hloop as [-> _]. simpl in El. discriminate. }
  split; [exact HN1|]. split; [lia|].
  exists c, tm, us. auto.
Qed.

Lemma run_monte_carlo_returns (G : BitGenerator) (P : Params) (w : world G) :
  valid_params P -> (1 <= N_SIMULATIONS P <= 2 ^ 32)%Z ->
  exists mc w', run_monte_carlo G P w = (Ok mc, w').
Proof.
  intros Hv HN.
  pose proof Hv as (HT & _).
  assert (EN : N_SIMULATIONS P = (0 + Z.of_nat (Z.to_nat (N_SIMULATIONS P)))%Z) by lia.
  destruct (for_in_collect_run_returns G P (Z.to_nat (N_SIMULATIONS P)) Hv 0%Z
              {| all_supplies :=
                   repeat (repeat 0 (Z.to_nat (T_STEPS P))) (Z.to_nat (N_SIMULATIONS P));
                 all_rewards :=
                   repeat (repeat 0 (Z.to_nat (T_STEPS P))) (Z.to_nat (N_SIMULATIONS P));
                 last_time_users := None |} w)
    as (c & w' & Hloop); try (simpl; rewrite ?repeat_length); try lia.
  pose proof (for_in_collect_run_Ok G P w _ _ _ _ _ _ Hloop ltac:(lia))
    as (E1 & _ & _ & _ & Hlast & _).
  simpl in E1. rewrite repeat_length in E1.
  rewrite <- EN in Hloop.
  assert (Hne : all_supplies c <> []).
  { intros E. rewrite E in E1. simpl in E1. lia. }
  unfold run_monte_carlo.
  assert (HN0 : (0 <= N_SIMULATIONS P)%Z) by lia.
  assert (HT0 : (0 <= T_STEPS P)%Z) by lia.
  rewrite (bind_step _ _ _ _ _ (np_zeros2_Ok G _ _ w HN0 HT0)).
  rewrite (bind_step _ _ _ _ _ (np_zeros2_Ok G _ _ w HN0 HT0)).
  rewrite (bind_step _ _ _ _ _ Hloop).
  rewrite (bind_step _ _ _ _ _ (statistics_phase_nonempty G _ _ _ w' Hne)).
  destruct (Z.eqb_spec (T_STEPS P) 0); [lia|].
  unfold ret at 1. unfold bind at 1. rewrite Hlast.
  destruct (Z.to_nat (N_SIMULATIONS P)) eqn:En; [lia|]. unfold ret. eauto.
Qed.

(** X17: what a batch that returns holds: all_supplies has one row per
    run; row i is the supply series of the run seeded with i (and likewise
    for the rewards behind mean_reward), whatever state the generator was
    in; the statistics are computed from these rows; and time and users
    are those of the configuration. *)
Theorem batch_rows_are_seeded_runs
    (G : BitGenerator) (P : Params) (w : world G) mc w' :
  run_monte_carlo G P w = (Ok mc, w') ->
  exists reward_rows,
    length (mc_all_supplies mc) = Z.to_nat (N_SIMULATIONS P) /\
    length reward_rows = Z.to_nat (N_SIMULATIONS P) /\
    (forall i, (0 <= i < N_SIMULATIONS P)%Z ->
       exists tr,
         fst (simulate_single_run G P (Some i) w) = Ok tr /\
         nth (Z.to_nat i) (mc_all_supplies mc) [] = supply tr /\
         nth (Z.to_nat i) reward_rows [] = rewards tr) /\
    mc_statistics mc =
      compute_statistics (T_STEPS P) (mc_all_supplies mc) reward_rows /\
    mc_time mc = np.arange (T_STEPS P) /\
    mc_users mc = users_series P.
Proof.
  intros E.
  pose proof (run_monte_carlo_Ok _ _ _ _ _ E)
    as (HN & _ & c & tm & us & Hloop & Hlast & ->).
  assert (EN : N_SIMULATIONS P = (0 + Z.of_nat (Z.to_nat (N_SIMULATIONS P)))%Z) by lia.
  rewrite EN in Hloop at 1.
  pose proof (for_in_collect_run_Ok G P w _ _ _ _ _ _ Hloop ltac:(lia))
    as (E1 & E2 & _ & Hrows & Hlast' & _).
  rewrite <- EN in Hrows.
  simpl in E1, E2. rewrite repeat_length in E1, E2.
  rewrite Hlast in Hlast'.
  assert (Hk : exists n, Z.to_nat (N_SIMULATIONS P) = S n)
    by (exists (Nat.pred (Z.to_nat (N_SIMULATIONS P))); lia).
  destruct Hk as [n En]. rewrite En in Hlast'.
  inversion Hlast'; subst tm us.
  exists (all_rewards c).
  simpl. repeat split; auto.
Qed.

Lemma batch_rows_are_seeded_runs_witness :
  exists mc w',
    run_monte_carlo counter_generator script_params world0 = (Ok mc, w') /\
    length (mc_all_supplies mc) = 100%nat.
Proof.
  assert (HN : (1 <= N_SIMULATIONS script_params <= 2 ^ 32)%Z) by (simpl; lia).
  destruct (run_monte_carlo_returns counter_generator script_params world0
              valid_script_params HN) as (mc & w' & E).
  exists mc, w'. split; [exact E|].
  destruct (batch_rows_are_seeded_runs _ _ _ _ _ E) as (rr & L & _).
  exact L.
Defined.

(** X18: a batch returns only with at least one run and one period, and a
    batch that returns has started exactly the runs seeded
    0, 1, ..., N_SIMULATIONS - 1, in this order: one run per seed, no seed
    twice. *)
Theorem batch_seeds_are_run_indices
    (G : BitGenerator) (P : Params) (w : world G) mc w' :
  run_monte_carlo G P w = (Ok mc, w') ->
  (1 <= N_SIMULATIONS P)%Z /\ (1 <= T_STEPS P)%Z /\
  runs_started w' = rev (map Some (range 0 (N_SIMULATIONS P))) ++ runs_started w /\
  NoDup (map Some (range 0 (N_SIMULATIONS P))).
Proof.
  intros H.
  apply run_monte_carlo_Ok in H as (HN & HT & c & tm & us & Hloop & _).
  split; [exact HN|]. split; [exact HT|].
  split.
  - assert (EN : N_SIMULATIONS P = (0 + Z.of_nat (Z.to_nat (N_SIMULATIONS P)))%Z) by lia.
    rewrite EN in Hloop at 1.
    apply (for_in_collect_run_Ok G P w) in Hloop; [|lia].
    destruct Hloop as (_ & _ & _ & _ & _ & Htrace).
    rewrite Htrace. now rewrite <- EN.
  - apply Finite.Injective_map_NoDup; [intros x y E; congruence|].
    unfold range. apply Finite.Injective_map_NoDup; [intros x y E; lia|].
    apply seq_NoDup.
Qed.

Lemma batch_seeds_are_run_indices_witness :
  exists mc w',
    run_monte_carlo counter_generator script_params world0 = (Ok mc, w') /\
    runs_started w' = rev (map Some (range 0 100)) ++ [].
Proof.
  assert (HN : (1 <= N_SIMULATIONS script_params <= 2 ^ 32)%Z) by (simpl; lia).
  destruct (run_monte_carlo_returns counter_generator script_params world0
              valid_script_params HN) as (mc & w' & E).
  exists mc, w'. split; [exact E|].
  exact (proj1 (proj2 (proj2 (batch_seeds_are_run_indices _ _ _ _ _ E)))).
Defined.

(** X19: the batch stops at a failing run and keeps nothing: when the run
    seeded with 0 fails, the batch fails with the same exception, after
    having started that one run only. *)
Theorem batch_stops_at_failing_run
    (G : BitGenerator) (P : Params) (w : world G) (cls : string) :
  (1 <= N_SIMULATIONS P)%Z -> (0 <= T_STEPS P)%Z ->
  fst (simulate_single_run G P (Some 0%Z) w) = Raise cls ->
  fst (run_monte_carlo G P w) = Raise cls /\
  runs_started (snd (run_monte_carlo G P w)) = Some 0%Z :: runs_started w.
Proof.
  intros HN HT Hrun.
  assert (E : exists w1,
             run_monte_carlo G P w = (Raise cls, w1) /\
             runs_started w1 = Some 0%Z :: runs_started w).
  { unfold run_monte_carlo.
    assert (HN0 : (0 <= N_SIMULATIONS P)%Z) by lia.
    rewrite (bind_step _ _ _ _ _ (np_zeros2_Ok G _ _ w HN0 HT)).
    rewrite (bind_step _ _ _ _ _ (np_zeros2_Ok G _ _ w HN0 HT)).
    rewrite range_cons by lia. cbn [for_in].
    pose proof (simulate_single_run_traced P (Some 0%Z) w) as Ht.
    destruct (simulate_single_run G P (Some 0%Z) w) as [r w1] eqn:Er.
    simpl in Hrun, Ht. subst r.
    exists w1. split; [|exact Ht].
    apply bind_Raise. apply bind_Raise. unfold collect_run.
    apply bind_Raise. exact Er. }
  destruct E as (w1 & E & Ht). rewrite E. split; [reflexivity | exact Ht].
Qed.

Lemma batch_stops_at_failing_run_witness :
  fst (run_monte_carlo counter_generator empty_horizon_params world0) = Raise IndexError.
Proof.
  assert (HN : (1 <= N_SIMULATIONS empty_horizon_params)%Z) by (simpl; lia).
  assert (HT : (0 <= T_STEPS empty_horizon_params)%Z) by (simpl; lia).
  assert (Hs : seed_ok (Some 0%Z)) by (simpl; lia).
  assert (Hrun : fst (simulate_single_run counter_generator empty_horizon_params
                        (Some 0%Z) world0) = Raise IndexError).
  { rewrite (proj1 (proj2 (simulate_single_run_cases counter_generator
                             empty_horizon_params (Some 0%Z) world0 Hs)) eq_refl).
    reflexivity. }
  exact (proj1 (batch_stops_at_failing_run counter_generator empty_horizon_params
                  world0 IndexError HN HT Hrun)).
Defined.

(** ** The sample paths of the supply figure *)

(** X20: the rows plot_results draws as sample trajectories are rows the
    matrix has: every index is a multiple of 5 below both 50 and the
    number of rows, there are at most 10 of them, and none when the matrix
    is empty. *)
Theorem plotted_trajectories_in_bounds (n : Z) :
  (forall i, In i (plotted_trajectories n) ->
     (0 <= i < n)%Z /\ (i < 50)%Z /\ (i mod 5 = 0)%Z) /\
  (length (plotted_trajectories n) <= 10)%nat /\
  ((n <= 0)%Z -> plotted_trajectories n = []) /\
  (forall i, (0 <= i < n)%Z -> (i < 50)%Z -> (i mod 5 = 0)%Z ->
     In i (plotted_trajectories n)).
Proof.
  unfold plotted_trajectories, range3.
  replace (Z.min 50 n - 0 + 5 - 1)%Z with (Z.min 50 n + 4)%Z by lia.
  assert (Hq : forall j : nat,
            (j < Z.to_nat ((Z.min 50 n + 4) / 5))%nat ->
            (5 * Z.of_nat j < Z.min 50 n)%Z).
  { intros j Hj.
    assert (H1 : (Z.of_nat j < (Z.min 50 n + 4) / 5)%Z) by lia.
    pose proof (Z.mul_div_le (Z.min 50 n + 4) 5 ltac:(lia)). lia. }
  split.
  - intros i Hi. apply in_map_iff in Hi as (j & <- & Hj).
    apply in_seq in Hj. specialize (Hq j ltac:(lia)).
    rewrite Z.add_0_l, Z.mul_comm, Z.mod_mul by lia. lia.
  - split.
    + rewrite length_map, length_seq.
      assert (((Z.min 50 n + 4) / 5 < 11)%Z).
      { apply Z.div_lt_upper_bound; lia. }
      lia.
    + split.
      * intros Hn.
        assert (E : ((Z.min 50 n + 4) / 5 < 1)%Z).
        { apply Z.div_lt_upper_bound; lia. }
        replace (Z.to_nat ((Z.min 50 n + 4) / 5)) with O by lia. reflexivity.
      * intros i Hi Hi50 Hmod.
        apply in_map_iff. exists (Z.to_nat (i / 5)). split.
        -- rewrite Z2Nat.id by (apply Z.div_pos; lia).
           pose proof (Z.div_mod i 5 ltac:(lia)). lia.
        -- apply in_seq. split; [lia|]. simpl.
           apply Z2Nat.inj_lt; [apply Z.div_pos; lia | apply Z.div_pos; lia |].
           pose proof (Z.div_mod i 5 ltac:(lia)).
           apply Z.div_lt_upper_bound; [lia|].
           pose proof (Z.mul_succ_div_gt (Z.min 50 n + 4) 5 ltac:(lia)). lia.
Qed.

Lemma plotted_trajectories_in_bounds_witness :
  In 45%Z (plotted_trajectories 100).
Proof.
  apply (proj2 (proj2 (proj2 (plotted_trajectories_in_bounds 100)))).
  - lia.
  - lia.
  - reflexivity.
Defined.

(** ** Percentiles *)

Lemma Int_part_le (x y : R) : x <= y -> (Int_part x <= Int_part y)%Z.
Proof.
  intros Hxy.
  destruct (base_Int_part x) as [Hx _]. destruct (base_Int_part y) as [_ Hy].
  assert (H : IZR (Int_part x) < IZR (Int_part y + 1)) by (rewrite plus_IZR; lra).
  apply lt_IZR in H. lia.
Qed.

(** X21: percentiles are ordered and stay within the data: for a
    non-empty column and 0 <= q1 <= q2 <= 100 the q1-th percentile is not
    above the q2-th, and both lie between the smallest and the largest
    entry; so in the statistics of a batch percentile_5 is nowhere above
    percentile_95. *)
Theorem percentiles_are_ordered :
  (forall (c : list R) (q1 q2 : R),
     c <> [] -> 0 <= q1 -> q1 <= q2 -> q2 <= 100 ->
     nth 0 (sort c) 0 <= np.percentile c q1 /\
     np.percentile c q1 <= np.percentile c q2 /\
     np.percentile c q2 <= nth (length c - 1) (sort c) 0 /\
     In (nth 0 (sort c) 0) c /\ In (nth (length c - 1) (sort c) 0) c) /\
  (forall (ncols : Z) (supplies rewards : list (list R)) (j : nat),
     supplies <> [] -> (j < Z.to_nat ncols)%nat ->
     nth j (percentile_5 (compute_statistics ncols supplies rewards)) 0 <=
     nth j (percentile_95 (compute_statistics ncols supplies rewards)) 0).
Proof.
  assert (Hmono : forall (c : list R) (q1 q2 : R),
            c <> [] -> 0 <= q1 -> q1 <= q2 -> q2 <= 100 ->
            np.percentile c q1 <= np.percentile c q2).
  { intros c q1 q2 Hc H0 H12 H100.
    destruct (percentile_parts c q1 Hc ltac:(lra))
      as (lo1 & hi1 & g1 & El1 & Eg1 & Eh1 & Hr1 & Hg1 & Ev1 & Hb1).
    destruct (percentile_parts c q2 Hc ltac:(lra))
      as (lo2 & hi2 & g2 & El2 & Eg2 & Eh2 & Hr2 & Hg2 & Ev2 & Hb2).
    assert (Hn1 : 1 <= INR (length c)).
    { change 1 with (INR 1). apply le_INR. destruct c; [congruence | simpl; lia]. }
    assert (Hh : (INR (length c) - 1) * (q1 / 100) <= (INR (length c) - 1) * (q2 / 100))
      by nra.
    assert (Hlo : (lo1 <= lo2)%nat).
    { apply INR_le. rewrite El1, El2. apply IZR_le, Int_part_le, Hh. }
    destruct (Nat.eq_dec lo1 lo2) as [E|Hne].
    - assert (Ehi : hi2 = hi1) by (rewrite Eh1, Eh2, E; reflexivity).
      rewrite <- E in Eg2, Ev2. rewrite Ehi in Ev2.
      assert (Hab : nth lo1 (sort c) 0 <= nth hi1 (sort c) 0) by lra.
      assert (Hg : g1 <= g2) by lra.
      rewrite Ev1, Ev2.
      apply Rplus_le_compat_l, Rmult_le_compat_l; lra.
    - assert (Hhi : (hi1 <= lo2)%nat) by lia.
      assert (Hmid : nth hi1 (sort c) 0 <= nth lo2 (sort c) 0).
      { apply Sorted_nth_le; [apply sort_Sorted | rewrite length_sort; lia]. }
      lra. }
  split.
  - intros c q1 q2 Hc H0 H12 H100.
    assert (Hn : (1 <= length c)%nat) by (destruct c; [congruence | simpl; lia]).
    destruct (percentile_parts c q1 Hc ltac:(lra))
      as (lo1 & hi1 & g1 & _ & _ & _ & Hr1 & _ & _ & Hb1).
    destruct (percentile_parts c q2 Hc ltac:(lra))
      as (lo2 & hi2 & g2 & _ & _ & _ & Hr2 & _ & _ & Hb2).
    assert (Hfirst : nth 0 (sort c) 0 <= nth lo1 (sort c) 0).
    { apply Sorted_nth_le; [apply sort_Sorted | rewrite length_sort; lia]. }
    assert (Hlast : nth hi2 (sort c) 0 <= nth (length c - 1) (sort c) 0).
    { apply Sorted_nth_le; [apply sort_Sorted | rewrite length_sort; lia]. }
    split; [lra|]. split; [now apply Hmono|]. split; [lra|].
    split; apply (Permutation_in _ (sort_perm c)), nth_In; rewrite length_sort; lia.
  - intros ncols supplies rewards j Hs Hj.
    unfold compute_statistics, np.along_axis0; simpl.
    set (f5 := fun j => np.percentile (np.column supplies j) 5).
    set (f95 := fun j => np.percentile (np.column supplies j) 95).
    rewrite (nth_indep (map f5 _) 0 (f5 O)) by now rewrite length_map, length_seq.
    rewrite (nth_indep (map f95 _) 0 (f95 O)) by now rewrite length_map, length_seq.
    rewrite !map_nth, seq_nth by exact Hj. unfold f5, f95. simpl.
    apply Hmono; try lra.
    unfold np.column. destruct supplies; [congruence | discriminate].
Qed.

Lemma percentiles_are_ordered_witness :
  np.percentile [3; 1; 2] 5 <= np.percentile [3; 1; 2] 95.
Proof.
  assert (Hc : [3; 1; 2] <> @nil R) by discriminate.
  assert (H0 : 0 <= 5) by lra.
  assert (H1 : 5 <= 95) by lra.
  assert (H2 : 95 <= 100) by lra.
  exact (proj1 (proj2 (proj1 percentiles_are_ordered [3; 1; 2] 5 95 Hc H0 H1 H2))).
Defined.

(** ** Percentiles of identical runs *)

Lemma sort_repeat (x : R) (n : nat) : sort (repeat x n) = repeat x n.
Proof.
  induction n as [|n IH]; [reflexivity|].
  cbn [repeat sort]. rewrite IH.
  destruct n as [|n]; [reflexivity|]. cbn [repeat insert_sorted].
  destruct (Rle_dec x x) as [_|H]; [reflexivity | contradiction H; lra].
Qed.

Lemma nth_repeat_lt (x : R) (n i : nat) : (i < n)%nat -> nth i (repeat x n) 0 = x.
Proof.
  intros Hi. rewrite (nth_indep _ 0 x) by now rewrite repeat_length.
  apply nth_repeat.
Qed.

Lemma percentile_repeat (x q : R) (n : nat) :
  (1 <= n)%nat -> 0 <= q <= 100 -> np.percentile (repeat x n) q = x.
Proof.
  intros Hn Hq.
  assert (Hc : repeat x n <> []) by (destruct n; [lia | discriminate]).
  destruct (percentile_parts (repeat x n) q Hc Hq)
    as (lo & hi & g & _ & _ & _ & Hr & _ & Ev & _).
  rewrite repeat_length in Hr.
  rewrite Ev, sort_repeat, !nth_repeat_lt by lia. ring.
Qed.

Lemma column_repeat (row : list R) (n j : nat) :
  np.column (repeat row n) j = repeat (nth j row 0) n.
Proof.
  unfold np.column. apply map_repeat.
Qed.

Lemma map_nth_seq_R (row : list R) :
  map (fun j => nth j row 0) (seq 0 (length row)) = row.
Proof.
  apply (nth_ext _ _ 0 0); [now rewrite length_map, length_seq|].
  intros i Hi. rewrite length_map, length_seq in Hi.
  set (f := fun j => nth j row 0).
  rewrite (nth_indep _ 0 (f O)) by now rewrite length_map, length_seq.
  rewrite map_nth, seq_nth by exact Hi. reflexivity.
Qed.

(** The percentiles of [n >= 1] identical rows. *)
Lemma percentile_axis0_repeat (ncols : Z) (row : list R) (n : nat) (q : R) :
  (1 <= n)%nat -> 0 <= q <= 100 -> length row = Z.to_nat ncols ->
  np.along_axis0 (fun c => np.percentile c q) ncols (repeat row n) = row.
Proof.
  intros Hn Hq Lr. unfold np.along_axis0.
  rewrite <- Lr. rewrite <- (map_nth_seq_R row) at 2.
  apply map_ext. intros j. rewrite column_repeat, percentile_repeat; auto.
Qed.

(** X22: a configuration with both standard deviations at 0 has no spread
    across runs: in a batch that returns, every row of all_supplies is the
    supply series of one and the same run, the run seeded 0, and both
    percentile bands of the supply are that series. *)
Theorem zero_variance_batch_has_no_spread
    (G : BitGenerator) (P : Params) (w : world G) mc w' :
  sigma_MINT P = 0 -> sigma_BURN P = 0 ->
  run_monte_carlo G P w = (Ok mc, w') ->
  exists tr,
    fst (simulate_single_run G P (Some 0%Z) w) = Ok tr /\
    mc_all_supplies mc = repeat (supply tr) (Z.to_nat (N_SIMULATIONS P)) /\
    percentile_5 (mc_statistics mc) = supply tr /\
    percentile_95 (mc_statistics mc) = supply tr.
Proof.
  intros Hsm Hsb E.
  pose proof (run_monte_carlo_Ok _ _ _ _ _ E)
    as (HN & _ & c & tm & us & Hloop & _ & ->).
  assert (EN : N_SIMULATIONS P = (0 + Z.of_nat (Z.to_nat (N_SIMULATIONS P)))%Z) by lia.
  rewrite EN in Hloop at 1.
  pose proof (for_in_collect_run_Ok G P w _ _ _ _ _ _ Hloop ltac:(lia))
    as (E1 & _ & _ & Hrows & _ & _).
  rewrite <- EN in Hrows. simpl in E1. rewrite repeat_length in E1.
  destruct (Hrows 0%Z ltac:(lia)) as (tr & Hr0 & _).
  destruct (simulate_single_run G P (Some 0%Z) w) as [r0 w0] eqn:Er0.
  simpl in Hr0. subst r0.
  assert (Hrow : forall i : nat, (i < Z.to_nat (N_SIMULATIONS P))%nat ->
            nth i (all_supplies c) [] = supply tr).
  { intros i Hi. destruct (Hrows (Z.of_nat i)) as (tri & Hri & Fs & _); [lia|].
    rewrite Nat2Z.id in Fs.
    destruct (simulate_single_run G P (Some (Z.of_nat i)) w) as [r wi] eqn:Eri.
    simpl in Hri. subst r.
    assert (tri = tr)
      by exact (zero_variance_runs_agree G G P _ _ _ _ _ _ _ _ Hsm Hsb Eri Er0).
    subst tri. exact Fs. }
  assert (Es : all_supplies c = repeat (supply tr) (Z.to_nat (N_SIMULATIONS P))).
  { apply (nth_ext _ _ [] []); [now rewrite repeat_length|].
    intros i Hi. rewrite E1 in Hi.
    rewrite (nth_indep (repeat _ _) [] (supply tr)) by now rewrite repeat_length.
    rewrite nth_repeat. now apply Hrow. }
  pose proof (simulate_single_run_lengths _ _ _ _ _ _ Er0) as (_ & Ls & _).
  exists tr. split; [reflexivity|].
  cbn [mc_all_supplies mc_statistics compute_statistics percentile_5 percentile_95].
  split; [exact Es|].
  assert (Hn1 : (1 <= Z.to_nat (N_SIMULATIONS P))%nat) by lia.
  rewrite Es.
  split; apply percentile_axis0_repeat; auto; lra.
Qed.

Lemma zero_variance_batch_has_no_spread_witness :
  exists mc w' tr,
    run_monte_carlo counter_generator scenario_A world0 = (Ok mc, w') /\
    fst (simulate_single_run counter_generator scenario_A (Some 0%Z) world0) = Ok tr /\
    percentile_5 (mc_statistics mc) = supply tr.
Proof.
  assert (HN : (1 <= N_SIMULATIONS scenario_A <= 2 ^ 32)%Z) by (simpl; lia).
  destruct (run_monte_carlo_returns counter_generator scenario_A world0
              valid_scenario_A HN) as (mc & w' & E).
  destruct (zero_variance_batch_has_no_spread counter_generator scenario_A world0
              mc w' eq_refl eq_refl E) as (tr & Hr & _ & H5 & _).
  exists mc, w', tr. auto.
Defined.
